(** * Deep-Learning-for-Time-Series: data loading and gap detection

    A shallow embedding of [src/data_preprocessing.py] and
    [src/load_data.py].  A pandas [DataFrame] is a list of column labels
    together with its rows in positional order; a row maps column labels
    to cells.  Python exceptions are values of [exception]; a function
    that may raise returns a [result]. *)

From Stdlib Require Import ZArith QArith Lia Ascii.
From stdpp Require Import base decidable option list gmap strings sorting.

Local Open Scope Z_scope.

(** ** Exceptions *)

(** The [ValueError]s the two files can raise, by origin. *)
Inductive value_error : Type :=
  | DirectoryMissing (dir_path : string)
      (* raise ValueError(f"Directory {dir_path} doesn't exist.") *)
  | UnsupportedFileFormat (file_format : string)
      (* raise ValueError(f"Unsupported file format: {file_format}") *)
  | NoObjectsToConcatenate
      (* pd.concat([]) *)
  | NaTBound
      (* pd.date_range: neither start nor end can be NaT *)
  | TimeDataMismatch (data : string)
      (* pd.to_datetime: the text does not match the format *)
  | UnconvertedDataRemains (data : string)
      (* pd.to_datetime: text is left after the format is matched *)
  | DayOutOfRange (data : string)
      (* pd.to_datetime: no such day in that month, or year 0 *)
  | BadDirective (format : string)
      (* pd.to_datetime: the format has a directive that is not known *)
  | OutOfBoundsDatetime (data : string)
      (* pd.to_datetime: the instant is not representable *)
  | ColumnsLengthMismatch
      (* df[[a, b]] = frame with another number of columns *)
  | DuplicateEntries.
      (* DataFrame.pivot: index contains duplicate entries *)

Inductive exception : Type :=
  | ValueError (why : value_error)
  | KeyError (label : string)
  | AttributeError (name : string)
  | ZeroDivisionError
  | OSError (path : string).

Inductive result (A : Type) : Type :=
  | Ok (a : A)
  | Raise (e : exception).
Arguments Ok {A} a.
Arguments Raise {A} e.

Definition bind {A B} (r : result A) (k : A → result B) : result B :=
  match r with
  | Ok a => k a
  | Raise e => Raise e
  end.

Notation "x ←! r ; k" := (bind r (fun x => k))
  (at level 20, r at level 100, k at level 200, right associativity,
   format "x  ←!  r ;  '/' k").

(** [traverse f l] applies [f] from left to right and stops at the first
    exception, as a vectorised pandas call over a column does. *)
Fixpoint traverse {A B} (f : A → result B) (l : list A) : result (list B) :=
  match l with
  | [] => Ok []
  | a :: l' => b ←! f a; bs ←! traverse f l'; Ok (b :: bs)
  end.

Definition raises {A} (r : result A) : Prop := ∃ e, r = Raise e.

(** ** Cells and frames *)

(** Instants are nanoseconds since the Unix epoch (the payload of
    [datetime64[ns]]). *)
Inductive cell : Type :=
  | Str (s : string)      (* a Python str in an object column *)
  | Num (x : Q)           (* a float64 number *)
  | NaN                   (* np.nan *)
  | Naive (ns : Z)        (* a datetime without time zone *)
  | Ts (ns : Z)           (* a datetime in UTC *)
  | NaT.                  (* the missing datetime *)

#[global] Instance Q_eq_dec : EqDecision Q.
Proof. solve_decision. Defined.
#[global] Instance cell_eq_dec : EqDecision cell.
Proof. solve_decision. Defined.

Record DataFrame : Type := mkDataFrame {
  columns : list string;
  rows : list (gmap string cell)
}.

(** [row[label]]; a label a row does not carry reads as missing. *)
Definition get (label : string) (row : gmap string cell) : cell :=
  default NaN (row !! label).

(** The values of a column, in row order. *)
Definition column (df : DataFrame) (label : string) : list cell :=
  get label <$> rows df.

(** [df[label]] *)
Definition getitem (df : DataFrame) (label : string) : result (list cell) :=
  if decide (label ∈ columns df) then Ok (column df label)
  else Raise (KeyError label).

(** [df[label] = values], for [values] aligned with the rows of [df]:
    an existing column is overwritten, a new one is appended. *)
Definition setitem (df : DataFrame) (label : string) (values : list cell)
  : DataFrame :=
  {| columns := if decide (label ∈ columns df) then columns df
                else columns df ++ [label];
     rows := zip_with (λ row v, <[label := v]> row) (rows df) values |}.

(** Order of [sort_values] within one column: numbers, texts and instants
    ascending, missing values last.  The columns the code sorts by hold
    one kind of value; kinds are ranked only to keep the order total. *)
Definition kind (c : cell) : Z :=
  match c with
  | Num _ => 0 | Str _ => 1 | Naive _ => 2 | Ts _ => 3 | NaN | NaT => 4
  end.

Definition cell_leb (a b : cell) : bool :=
  match a, b with
  | Num x, Num y => Qle_bool x y
  | Str x, Str y => String.leb x y
  | Naive x, Naive y => x <=? y
  | Ts x, Ts y => x <=? y
  | _, _ => kind a <=? kind b
  end.

(** Rows compared by the columns [by], the first one first. *)
Fixpoint row_leb (by_ : list string) (r1 r2 : gmap string cell) : bool :=
  match by_ with
  | [] => true
  | label :: by' =>
      if negb (cell_leb (get label r2) (get label r1)) then true
      else if negb (cell_leb (get label r1) (get label r2)) then false
      else row_leb by' r1 r2
  end.

(** [df.sort_values(by).reset_index(drop=True)]: a new frame; the
    positional index of the model is the fresh index. *)
Definition sort_values (df : DataFrame) (by_ : list string) : DataFrame :=
  {| columns := columns df;
     rows := merge_sort (λ r1 r2, row_leb by_ r1 r2) (rows df) |}.

Module DataPreprocessing.

Section with_inference.

(** [pd.to_datetime] without a format guesses the layout of strings and
    reads numbers as epoch offsets.  That inference is a parameter; [None]
    stands for a value pandas cannot interpret. *)
Variable infer_datetime : cell → option Z.

(** [pd.to_datetime(value, utc=True)] on one value. *)
Definition to_datetime_cell (c : cell) : result cell :=
  match c with
  | Ts ns => Ok (Ts ns)
  | Naive ns => Ok (Ts ns)
  | NaT | NaN => Ok NaT
  | Str s =>
      match infer_datetime c with
      | Some ns => Ok (Ts ns)
      | None => Raise (ValueError (TimeDataMismatch s))
      end
  | Num _ =>
      match infer_datetime c with
      | Some ns => Ok (Ts ns)
      | None => Raise (ValueError (OutOfBoundsDatetime ""))
      end
  end.

(** [pd.to_datetime(series, utc=True)] *)
Definition to_datetime (series : list cell) : result (list cell) :=
  traverse to_datetime_cell series.

(** The instants of a datetime column; missing values are skipped, as
    [min], [max] and index membership skip them. *)
Definition instants (series : list cell) : list Z :=
  omap (λ c, match c with Ts ns => Some ns | _ => None end) series.

(** [series.min()] and [series.max()]: [None] is [NaT]. *)
Definition series_min (series : list cell) : option Z :=
  match instants series with
  | [] => None
  | t :: ts => Some (foldr Z.min t ts)
  end.

Definition series_max (series : list cell) : option Z :=
  match instants series with
  | [] => None
  | t :: ts => Some (foldr Z.max t ts)
  end.

(** [np.arange(b, e, stride)] for a stride other than zero. *)
Definition arange (b e stride : Z) : list Z :=
  (λ j : nat, b + Z.of_nat j * stride) <$>
    seq 0 (Z.to_nat (- ((b - e) / stride))).

(** [pd.date_range(start=start, end=end, freq=frequency, tz='UTC')] for a
    fixed frequency, given as its stride in nanoseconds.  pandas computes
    the exclusive bound [e] below and fills the range with [np.arange];
    [//] is floor division, as [/] on [Z]. *)
Definition date_range (start end_ : option Z) (frequency : Z)
  : result (list Z) :=
  match start, end_ with
  | Some b, Some iend =>
      if decide (frequency = 0) then Raise ZeroDivisionError
      else
        let e := b + (iend - b) / frequency * frequency + frequency / 2 + 1 in
        Ok (arange b e frequency)
  | _, _ => Raise (ValueError NaTBound)
  end.

(** [index.difference(series)]: the distinct values of [index] that are
    not in [series], in ascending order. *)
Definition difference (index : list Z) (series : list cell) : list Z :=
  merge_sort Z.le (list_difference (remove_dups index) (instants series)).

(** [contains_datetime_gaps(df, datetime_col_name, frequency)].  The first
    component is the caller's frame after the call: line 14 assigns into
    the frame that was passed in, line 15 rebinds the local name to a new
    sorted frame. *)
Definition contains_datetime_gaps (df : DataFrame)
    (datetime_col_name : string) (frequency : Z)
  : DataFrame * result (bool * list Z) :=
  match getitem df datetime_col_name with
  | Raise e => (df, Raise e)
  | Ok series =>
      match to_datetime series with
      | Raise e => (df, Raise e)
      | Ok coerced =>
          let caller_df := setitem df datetime_col_name coerced in
          let df := sort_values caller_df [datetime_col_name] in
          (caller_df,
           full_range ←! date_range
                           (series_min (column df datetime_col_name))
                           (series_max (column df datetime_col_name))
                           frequency;
           let missing_times :=
             difference full_range (column df datetime_col_name) in
           Ok (negb (bool_decide (missing_times = [])), missing_times))
      end
  end.

End with_inference.

(** ** Vocabulary of the specification *)

(** The least and the greatest of the observed instants. *)
Definition is_min (obs : list Z) (lo : Z) : Prop :=
  lo ∈ obs ∧ ∀ t, t ∈ obs → lo ≤ t.
Definition is_max (obs : list Z) (hi : Z) : Prop :=
  hi ∈ obs ∧ ∀ t, t ∈ obs → t ≤ hi.

(** The regular calendar from [lo] to [hi] at [frequency], both ends
    included: the instants [lo], [lo + frequency], ... that are not after
    [hi]. *)
Definition regular_calendar (lo hi frequency t : Z) : Prop :=
  lo ≤ t ≤ hi ∧ ∃ k, 0 ≤ k ∧ t = lo + k * frequency.

(** A cell that [to_datetime] leaves as it is. *)
Definition is_utc (c : cell) : Prop := c = NaT ∨ ∃ ns, c = Ts ns.

(** The regular calendar as a list: [lo], [lo + frequency], ... up to
    the last instant that is not after [hi]. *)
Definition calendar_list (lo hi frequency : Z) : list Z :=
  (λ k, lo + k * frequency) <$> seqZ 0 ((hi - lo) / frequency + 1).

(** The example of the specification: 00:00, 01:00 and 03:00 observed on
    2024-01-01, checked against an hourly calendar. *)
Definition hour_ns : Z := 3600 * 1000000000.
Definition midnight_ns : Z := 1704067200 * 1000000000.

Definition observations (cells : list cell) : DataFrame :=
  {| columns := ["timestamp"; "value"];
     rows := (λ c, {[ "timestamp" := c; "value" := Num 1 ]}) <$> cells |}.

Definition three_hours : list cell :=
  [Ts midnight_ns; Ts (midnight_ns + hour_ns); Ts (midnight_ns + 3 * hour_ns)].

Definition no_inference : cell → option Z := λ _, None.

(** Two consecutive hours, with nothing missing between them. *)
Definition two_hours : list cell :=
  [Ts midnight_ns; Ts (midnight_ns + hour_ns)].

End DataPreprocessing.

Module LoadData.

(** ** Strings *)

(** [s.endswith(suffix)] *)
Definition endswith (s suffix : string) : bool :=
  String.prefix (String.rev suffix) (String.rev s).

(** [s.startswith(prefix)] *)
Definition startswith (s prefix : string) : bool := String.prefix prefix s.

(** [os.path.join(a, b)] on a POSIX system. *)
Definition path_join (a b : string) : string :=
  if startswith b "/" then b
  else if bool_decide (a = "") || endswith a "/" then a +:+ b
  else a +:+ "/" +:+ b.

(** [s.split(sep)] for a separator of at least one character: [cur] is
    the piece being read and [skip] the number of separator characters
    still to be passed over. *)
Fixpoint split_go (sep : string) (skip : nat) (cur : string) (s : string)
  : list string :=
  match s with
  | EmptyString => [cur]
  | String c s' =>
      match skip with
      | S k => split_go sep k cur s'
      | O =>
          if String.prefix sep s
          then cur :: split_go sep (String.length sep - 1) "" s'
          else split_go sep O (cur +:+ String c "") s'
      end
  end.

Definition split (sep s : string) : list string := split_go sep O "" s.

(** [c.lower()] and [s.lower()] on ASCII text. *)
Definition lower_char (c : ascii) : ascii :=
  let n := N_of_ascii c in
  if ((65 <=? n) && (n <=? 90))%N then ascii_of_N (n + 32) else c.

Fixpoint lower (s : string) : string :=
  match s with
  | EmptyString => EmptyString
  | String c s' => String (lower_char c) (lower s')
  end.

(** [s.replace(" ", "_")] *)
Fixpoint replace_space (s : string) : string :=
  match s with
  | EmptyString => EmptyString
  | String c s' =>
      String (if Ascii.eqb c " "%char then "_"%char else c) (replace_space s')
  end.

(** ** Frames *)

(** A row restricted to [labels], absent cells filled with [NaN]. *)
Definition reindex (labels : list string) (row : gmap string cell)
  : gmap string cell :=
  list_to_map ((λ label, (label, get label row)) <$> labels).

(** [df[labels]] for a list of labels. *)
Definition select (df : DataFrame) (labels : list string) : result DataFrame :=
  match list_difference labels (columns df) with
  | [] => Ok {| columns := labels; rows := reindex labels <$> rows df |}
  | label :: _ => Raise (KeyError label)
  end.

(** [df[mask]] for a row predicate. *)
Definition where_ (keep : gmap string cell → bool) (df : DataFrame)
  : DataFrame :=
  {| columns := columns df; rows := List.filter keep (rows df) |}.

Definition rename_label (old new label : string) : string :=
  if decide (label = old) then new else label.

(** [df.rename(columns={old: new}, inplace=True)]; a label that is not a
    column is ignored. *)
Definition rename (old new : string) (df : DataFrame) : DataFrame :=
  {| columns := rename_label old new <$> columns df;
     rows := (λ row,
                match row !! old with
                | Some v => <[new := v]> (delete old row)
                | None => row
                end) <$> rows df |}.

(** [pd.concat(dataframes).reset_index(drop=True)]: the rows of all frames
    in order, over the union of their columns in order of appearance. *)
Definition concat (dataframes : list DataFrame) : result DataFrame :=
  match dataframes with
  | [] => Raise (ValueError NoObjectsToConcatenate)
  | _ =>
      let labels :=
        foldl (λ acc df, acc ++ list_difference (columns df) acc)
              [] dataframes in
      Ok {| columns := labels;
            rows := reindex labels <$> (dataframes ≫= rows) |}
  end.

(** ** The directory reader *)

(** What the loaders see of the file system: which paths are directories,
    their entries, and the table each reader makes of a file ([None] when
    the reader fails on it). *)
Record FileSystem : Type := mkFileSystem {
  isdir : string → bool;
  listdir : string → list string;
  read_csv : string → option DataFrame;
  read_excel : string → option DataFrame
}.

Definition read_with (reader : string → option DataFrame) (path : string)
  : result DataFrame :=
  match reader path with
  | Some df => Ok df
  | None => Raise (OSError path)
  end.

(** [read_from_dir_as_df(dir_path, file_format)] *)
Definition read_from_dir_as_df (fs : FileSystem) (dir_path : string)
    (file_format : string) : result DataFrame :=
  if negb (isdir fs dir_path)
  then Raise (ValueError (DirectoryMissing dir_path))
  else
    let files :=
      List.filter (λ fn, endswith fn file_format) (listdir fs dir_path) in
    dataframes ←! traverse
      (λ file,
         if decide (file_format = ".csv")
         then read_with (read_csv fs) (path_join dir_path file)
         else if decide (file_format = ".xlsx")
         then read_with (read_excel fs) (path_join dir_path file)
         else Raise (ValueError (UnsupportedFileFormat file_format)))
      files;
    concat dataframes.

(** ** Parsing timestamps with a format *)

(** A format is compiled item by item, as the regular expression that
    pandas builds from it: a directive, a run of white space (which
    matches one or more white-space characters), or a literal character. *)
Inductive directive : Type := Dd | Dm | DY | DH | DM | DS.

Inductive item : Type :=
  | Directive (d : directive)
  | Whitespace (text : string)
  | Literal (c : ascii).

Definition directive_of (c : ascii) : option directive :=
  match c with
  | "d" => Some Dd | "m" => Some Dm | "Y" => Some DY
  | "H" => Some DH | "M" => Some DM | "S" => Some DS
  | _ => None
  end%char.

(** White space of the regular expression class [\s], within ASCII. *)
Definition is_space (c : ascii) : bool :=
  let n := N_of_ascii c in
  ((9 <=? n) && (n <=? 13) || (28 <=? n) && (n <=? 32))%N.

Definition snoc_space (c : ascii) (items : list item) : list item :=
  match items with
  | Whitespace text :: items' => Whitespace (String c text) :: items'
  | _ => Whitespace (String c "") :: items
  end.

Fixpoint compile_format (format : string) : option (list item) :=
  match format with
  | EmptyString => Some []
  | String "%" (String c format') =>
      d ← directive_of c;
      items ← compile_format format';
      Some (Directive d :: items)
  | String "%" EmptyString => None
  | String c format' =>
      items ← compile_format format';
      Some (if is_space c then snoc_space c items else Literal c :: items)
  end.

(** A character class of the regular expression: an inclusive range. *)
Definition in_range (lo hi c : ascii) : bool :=
  ((N_of_ascii lo <=? N_of_ascii c) && (N_of_ascii c <=? N_of_ascii hi))%N.

(** The alternatives of each directive, in the order in which the regular
    expression tries them; each alternative is a sequence of classes. *)
Definition alternatives (d : directive) : list (list (ascii * ascii)) :=
  match d with
  | Dd => [ [("3","3"); ("0","1")]; [("1","2"); ("0","9")];
            [("0","0"); ("1","9")]; [("1","9")]; [(" "," "); ("1","9")] ]
  | Dm => [ [("1","1"); ("0","2")]; [("0","0"); ("1","9")]; [("1","9")] ]
  | DY => [ [("0","9"); ("0","9"); ("0","9"); ("0","9")] ]
  | DH => [ [("2","2"); ("0","3")]; [("0","1"); ("0","9")]; [("0","9")] ]
  | DM => [ [("0","5"); ("0","9")]; [("0","9")] ]
  | DS => [ [("6","6"); ("0","1")]; [("0","5"); ("0","9")]; [("0","9")] ]
  end%char.

(** Match a sequence of classes at the head of [s]: the text matched, in
    reverse, and the rest. *)
Fixpoint match_classes (classes : list (ascii * ascii)) (acc s : string)
  : option (string * string) :=
  match classes with
  | [] => Some (acc, s)
  | (lo, hi) :: classes' =>
      match s with
      | String c s' =>
          if in_range lo hi c then match_classes classes' (String c acc) s'
          else None
      | EmptyString => None
      end
  end.

(** [int(text)] for text of digits with optional blanks around them;
    [rev_text] is the text in reverse. *)
Fixpoint int_rev (rev_text : string) : Z :=
  match rev_text with
  | EmptyString => 0
  | String c rest =>
      if in_range "0" "9" c
      then Z.of_N (N_of_ascii c) - 48 + 10 * int_rev rest
      else int_rev rest
  end.

(** The fields a match fills in, with the defaults of pandas. *)
Record fields : Type := mkFields {
  f_year : Z; f_month : Z; f_day : Z;
  f_hour : Z; f_minute : Z; f_second : Z
}.

Definition default_fields : fields :=
  {| f_year := 1900; f_month := 1; f_day := 1;
     f_hour := 0; f_minute := 0; f_second := 0 |}.

Definition set_field (d : directive) (v : Z) (f : fields) : fields :=
  match d with
  | Dd => {| f_year := f_year f; f_month := f_month f; f_day := v;
             f_hour := f_hour f; f_minute := f_minute f;
             f_second := f_second f |}
  | Dm => {| f_year := f_year f; f_month := v; f_day := f_day f;
             f_hour := f_hour f; f_minute := f_minute f;
             f_second := f_second f |}
  | DY => {| f_year := v; f_month := f_month f; f_day := f_day f;
             f_hour := f_hour f; f_minute := f_minute f;
             f_second := f_second f |}
  | DH => {| f_year := f_year f; f_month := f_month f; f_day := f_day f;
             f_hour := v; f_minute := f_minute f; f_second := f_second f |}
  | DM => {| f_year := f_year f; f_month := f_month f; f_day := f_day f;
             f_hour := f_hour f; f_minute := v; f_second := f_second f |}
  | DS => {| f_year := f_year f; f_month := f_month f; f_day := f_day f;
             f_hour := f_hour f; f_minute := f_minute f; f_second := v |}
  end.

(** The first alternative, in order, whose match lets [k] succeed. *)
Fixpoint first_alternative {A} (alts : list (list (ascii * ascii)))
    (s : string) (k : Z → string → option A) : option A :=
  match alts with
  | [] => None
  | alt :: alts' =>
      match match_classes alt "" s with
      | Some (rev_text, rest) =>
          match k (int_rev rev_text) rest with
          | Some r => Some r
          | None => first_alternative alts' s k
          end
      | None => first_alternative alts' s k
      end
  end.

(** One or more white-space characters, the longest run first, then [k]. *)
Fixpoint match_space {A} (s : string) (k : string → option A) : option A :=
  match s with
  | String c s' =>
      if is_space c then
        match match_space s' k with
        | Some r => Some r
        | None => k s'
        end
      else None
  | EmptyString => None
  end.

(** [format_regex.match(s)]: the fields and the text left over. *)
Fixpoint match_items (items : list item) (s : string) (f : fields)
  : option (fields * string) :=
  match items with
  | [] => Some (f, s)
  | Directive d :: items' =>
      first_alternative (alternatives d) s
        (λ v rest, match_items items' rest (set_field d v f))
  | Whitespace _ :: items' =>
      match_space s (λ rest, match_items items' rest f)
  | Literal c :: items' =>
      match s with
      | String c' rest =>
          if Ascii.eqb c c' then match_items items' rest f else None
      | EmptyString => None
      end
  end.

(** Calendar arithmetic of the proleptic Gregorian calendar. *)
Definition is_leap (y : Z) : bool :=
  (y mod 4 =? 0) && negb (y mod 100 =? 0) || (y mod 400 =? 0).

Definition days_in_month (y m : Z) : Z :=
  if m =? 2 then (if is_leap y then 29 else 28)
  else if (m =? 4) || (m =? 6) || (m =? 9) || (m =? 11) then 30
  else 31.

(** Days from 1970-01-01 to the civil date [y]-[m]-[d]. *)
Definition days_from_civil (y m d : Z) : Z :=
  let y' := if m <=? 2 then y - 1 else y in
  let era := y' / 400 in
  let yoe := y' - era * 400 in
  let doy := (153 * (if 2 <? m then m - 3 else m + 9) + 2) / 5 + d - 1 in
  let doe := yoe * 365 + yoe / 4 - yoe / 100 + doy in
  era * 146097 + doe - 719468.

Definition epoch_ns (f : fields) : Z :=
  (((days_from_civil (f_year f) (f_month f) (f_day f) * 24 + f_hour f) * 60
    + f_minute f) * 60 + f_second f) * 1000000000.

(** The instants a [datetime64[ns]] holds; the least 64-bit value is
    [NaT]. *)
Definition timestamp_max : Z := 2 ^ 63 - 1.
Definition timestamp_min : Z := - timestamp_max.

(** [pd.to_datetime(s, format=format, utc=True)] on a text that is not
    a null token. *)
Definition strptime (format s : string) : result Z :=
  match compile_format format with
  | None => Raise (ValueError (BadDirective format))
  | Some items =>
      match match_items items s default_fields with
      | None => Raise (ValueError (TimeDataMismatch s))
      | Some (f, rest) =>
          if negb (bool_decide (rest = ""))
          then Raise (ValueError (UnconvertedDataRemains s))
          else if (f_year f <? 1)
                  || (days_in_month (f_year f) (f_month f) <? f_day f)
          then Raise (ValueError (DayOutOfRange s))
          else if (timestamp_min <=? epoch_ns f)
                  && (epoch_ns f <=? timestamp_max)
          then Ok (epoch_ns f)
          else Raise (ValueError (OutOfBoundsDatetime s))
      end
  end.

(** The texts pandas reads as a missing datetime. *)
Definition nat_strings : list string :=
  [""; "NaT"; "nat"; "NAT"; "nan"; "NaN"; "NAN"].

(** One value of a column of texts; [None] is a missing value. *)
Definition to_datetime_value (format : string) (v : option string)
  : result cell :=
  match v with
  | None => Ok NaT
  | Some s =>
      if decide (s ∈ nat_strings) then Ok NaT
      else ns ←! strptime format s; Ok (Ts ns)
  end.

(** [series.str.split(sep, expand=True)]: one list of pieces per row.  A
    cell that is not a text gives one missing piece.  The accessor is
    refused on a column that has rows but no text. *)
Definition is_str (c : cell) : bool :=
  match c with Str _ => true | _ => false end.

Definition str_split (sep : string) (series : list cell)
  : result (list (list (option string))) :=
  if negb (bool_decide (series = [])) && negb (existsb is_str series)
  then Raise (AttributeError "str")
  else Ok ((λ c, match c with
                 | Str s => Some <$> split sep s
                 | _ => [None]
                 end) <$> series).

(** The expanded frame has as many columns as the longest row has
    pieces; shorter rows are filled with missing values. *)
Definition expand_width (pieces : list (list (option string))) : nat :=
  foldr Nat.max 0%nat (length <$> pieces).

Definition expand_column (pieces : list (list (option string))) (k : nat)
  : list (option string) :=
  (λ row, mjoin (row !! k)) <$> pieces.

(** [df[["start_ts_utc", "end_ts_utc"]] =
       series.str.split(" - ", expand=True).apply(pd.to_datetime,
                                                   format=format, utc=True)]:
    the two columns to assign.  Every column of the expanded frame is
    converted before the assignment checks that there are two of them. *)
Definition parse_intervals (format : string) (series : list cell)
  : result (list cell * list cell) :=
  pieces ←! str_split " - " series;
  parsed ←! traverse
    (λ k, traverse (to_datetime_value format) (expand_column pieces k))
    (seq 0 (expand_width pieces));
  match parsed with
  | [starts; ends] => Ok (starts, ends)
  | _ => Raise (ValueError ColumnsLengthMismatch)
  end.

Definition assign_intervals (format : string) (df : DataFrame)
  : result DataFrame :=
  mtu ←! getitem df "MTU (UTC)";
  parsed ←! parse_intervals format mtu;
  Ok (setitem (setitem df "start_ts_utc" parsed.1) "end_ts_utc" parsed.2).

(** ** The three loaders *)

(** [load_raw_prices(raw_data_dir)] *)
Definition load_raw_prices (fs : FileSystem) (raw_data_dir : string)
  : result DataFrame :=
  prices_df ←! read_from_dir_as_df fs (path_join raw_data_dir "prices") ".csv";
  prices_df ←!
    (if decide ("Sequence" ∈ columns prices_df)
     then Ok (where_ (λ row, bool_decide
                        (get "Sequence" row = Str "Sequence Sequence 1"))
                     prices_df)
     else Raise (AttributeError "Sequence"));
  let prices_df :=
    rename "Day-ahead Price (EUR/MWh)" "da_price_eur_mwh" prices_df in
  prices_df ←! assign_intervals "%d/%m/%Y %H:%M:%S" prices_df;
  selected ←! select prices_df
                 ["start_ts_utc"; "end_ts_utc"; "da_price_eur_mwh"];
  Ok (sort_values selected ["start_ts_utc"]).

(** [load_raw_consumption(raw_data_dir)] *)
Definition load_raw_consumption (fs : FileSystem) (raw_data_dir : string)
  : result DataFrame :=
  cons_df ←!
    read_from_dir_as_df fs (path_join raw_data_dir "consumption") ".csv";
  cons_df ←! assign_intervals "%d/%m/%Y %H:%M" cons_df;
  let cons_df := rename "Actual Total Load (MW)" "actual_load_mw" cons_df in
  selected ←! select cons_df ["start_ts_utc"; "end_ts_utc"; "actual_load_mw"];
  Ok (sort_values selected ["start_ts_utc"]).

(** The cells of a row under the labels [index]. *)
Definition key_of (index : list string) (row : gmap string cell)
  : list cell :=
  (λ label, get label row) <$> index.

(** Keys compared cell by cell, the first one first. *)
Fixpoint key_leb (k1 k2 : list cell) : bool :=
  match k1, k2 with
  | a :: k1', b :: k2' =>
      if negb (cell_leb b a) then true
      else if negb (cell_leb a b) then false
      else key_leb k1' k2'
  | [], _ => true
  | _ :: _, [] => false
  end.

(** The label pandas gives the column made from a cell of texts. *)
Definition label_of (c : cell) : string :=
  match c with Str s => s | _ => "nan" end.

(** [df.pivot(index=index, columns=columns_, values=values).reset_index()]:
    one row per distinct key, one column per distinct value of
    [columns_], both in ascending order; a cell holds the value of the
    row with that key and that column value, [NaN] when there is none.
    Two rows with the same key and column value are refused. *)
Definition pivot (index : list string) (columns_ values : string)
    (df : DataFrame) : result DataFrame :=
  let entries :=
    (λ row, (key_of index row, get columns_ row)) <$> rows df in
  if decide (NoDup entries) then
    let keys :=
      merge_sort (λ k1 k2, key_leb k1 k2)
                 (remove_dups (key_of index <$> rows df)) in
    let heads :=
      merge_sort (λ a b, cell_leb a b)
                 (remove_dups (get columns_ <$> rows df)) in
    let value_at (key : list cell) (head : cell) : cell :=
      match List.filter
              (λ row, bool_decide (key_of index row = key
                                   ∧ get columns_ row = head))
              (rows df) with
      | row :: _ => get values row
      | [] => NaN
      end in
    Ok {| columns := index ++ (label_of <$> heads);
          rows := (λ key,
                     list_to_map (zip index key)
                     ∪ list_to_map
                         ((λ head, (label_of head, value_at key head))
                            <$> heads)) <$> keys |}
  else Raise (ValueError DuplicateEntries).

(** [df.columns = labels], for as many labels as [df] has columns. *)
Definition set_columns (labels : list string) (df : DataFrame) : DataFrame :=
  {| columns := labels;
     rows := (λ row, list_to_map (zip labels (key_of (columns df) row)))
               <$> rows df |}.

Definition renewable_types : list string :=
  ["Solar"; "Wind Offshore"; "Wind Onshore"].

(** Lines 98 to 116 of [load_raw_production]: the long table, one row per
    interval and production type, that is handed to [pivot]. *)
Definition production_long (fs : FileSystem) (raw_data_dir : string)
  : result DataFrame :=
  prod_df ←!
    read_from_dir_as_df fs (path_join raw_data_dir "production") ".csv";
  prod_df ←! assign_intervals "%d/%m/%Y %H:%M:%S" prod_df;
  let prod_df :=
    rename "Production Type" "production_type"
      (rename "Generation (MW)" "actual_generation_mw" prod_df) in
  _ ←! getitem prod_df "production_type";
  let prod_df :=
    where_ (λ row, bool_decide
              (get "production_type" row ∈ Str <$> renewable_types))
           prod_df in
  selected ←! select prod_df
                 ["start_ts_utc"; "end_ts_utc"; "production_type";
                  "actual_generation_mw"];
  Ok (sort_values selected ["production_type"; "start_ts_utc"]).

(** The label of a generation column of the wide table. *)
Definition generation_label (col : string) : string :=
  "actual_generation_mw_" +:+ replace_space (lower col).

(** [load_raw_production(raw_data_dir)] *)
Definition load_raw_production (fs : FileSystem) (raw_data_dir : string)
  : result DataFrame :=
  prod_df ←! production_long fs raw_data_dir;
  prod_df ←! pivot ["start_ts_utc"; "end_ts_utc"] "production_type"
                   "actual_generation_mw" prod_df;
  Ok (set_columns
        (take 2 (columns prod_df)
         ++ (generation_label <$> drop 2 (columns prod_df)))
        prod_df).

(** ** Merging *)

(** [pd.merge(left, right, on=on, how="left")] for frames that share no
    label outside [on]: each left row, in order, once per right row with
    the same key, or once with the right columns missing. *)
Definition merge (left right : DataFrame) (on : list string) : DataFrame :=
  let extra := list_difference (columns right) on in
  {| columns := columns left ++ extra;
     rows :=
       rows left ≫= λ left_row,
         match List.filter
                 (λ r, bool_decide (key_of on r = key_of on left_row))
                 (rows right) with
         | [] => [left_row ∪ reindex extra ∅]
         | matches => (λ r, left_row ∪ reindex extra r) <$> matches
         end |}.

(** [df.replace(to_replace, value, inplace=True)] *)
Definition replace_cell (to_replace : list cell) (value c : cell) : cell :=
  if decide (c ∈ to_replace) then value else c.

Definition replace (to_replace : list cell) (value : cell) (df : DataFrame)
  : DataFrame :=
  {| columns := columns df;
     rows := (λ row : gmap string cell,
                replace_cell to_replace value <$> row) <$> rows df |}.

Definition interval_key : list string := ["start_ts_utc"; "end_ts_utc"].

(** [load_raw_data_from_dir()] *)
Definition load_raw_data_from_dir (fs : FileSystem) : result DataFrame :=
  let raw_data_dir := "../data/raw/" in
  prices_df ←! load_raw_prices fs raw_data_dir;
  cons_df ←! load_raw_consumption fs raw_data_dir;
  prod_df ←! load_raw_production fs raw_data_dir;
  let merged_data := merge prices_df cons_df interval_key in
  let merged_data := merge merged_data prod_df interval_key in
  Ok (replace [Str "n/e"; Str "-"] NaN merged_data).

(** ** Vocabulary of the specification *)

(** How many rows of a frame carry the interval key [key]. *)
Definition count_key (key : list cell) (df : DataFrame) : nat :=
  length (List.filter
            (λ row, bool_decide (key_of interval_key row = key)) (rows df)).

(** The cell the final pass puts in place of [c]. *)
Definition cleaned (c : cell) : cell :=
  replace_cell [Str "n/e"; Str "-"] NaN c.

(** Formatting an instant back, as [strftime] does.  The civil date of
    a day number: *)
Definition civil_from_days (days : Z) : Z * Z * Z :=
  let z := days + 719468 in
  let era := z / 146097 in
  let doe := z - era * 146097 in
  let yoe := (doe - doe / 1460 + doe / 36524 - doe / 146096) / 365 in
  let doy := doe - (365 * yoe + yoe / 4 - yoe / 100) in
  let mp := (5 * doy + 2) / 153 in
  let d := doy - (153 * mp + 2) / 5 + 1 in
  let m := if mp <? 10 then mp + 3 else mp - 9 in
  (if m <=? 2 then yoe + era * 400 + 1 else yoe + era * 400, m, d).

(** The fields of the instant [ns] nanoseconds after the epoch. *)
Definition fields_of_ns (ns : Z) : fields :=
  let days := ns / 86400000000000 in
  let secs := ns mod 86400000000000 / 1000000000 in
  let '(y, m, d) := civil_from_days days in
  {| f_year := y; f_month := m; f_day := d;
     f_hour := secs / 3600; f_minute := secs mod 3600 / 60;
     f_second := secs mod 60 |}.

Definition digit_char (d : Z) : ascii := ascii_of_N (48 + Z.to_N d).

(** A directive prints its field as a decimal number padded with zeros:
    two digits, four for the year. *)
Definition pad2 (n : Z) (rest : string) : string :=
  String (digit_char (n / 10)) (String (digit_char (n mod 10)) rest).

Definition pad4 (n : Z) (rest : string) : string :=
  pad2 (n / 100) (pad2 (n mod 100) rest).

(** The field a directive shows. *)
Definition field (d : directive) (f : fields) : Z :=
  match d with
  | Dd => f_day f | Dm => f_month f | DY => f_year f
  | DH => f_hour f | DM => f_minute f | DS => f_second f
  end.

Definition render_directive (d : directive) (f : fields) (rest : string)
  : string :=
  match d with
  | DY => pad4 (field d f) rest
  | _ => pad2 (field d f) rest
  end.

Fixpoint render (items : list item) (f : fields) : string :=
  match items with
  | [] => ""
  | Directive d :: items' => render_directive d f (render items' f)
  | Whitespace text :: items' => text +:+ render items' f
  | Literal c :: items' => String c (render items' f)
  end.

(** [timestamp.strftime(format)] *)
Definition strftime (format : string) (ns : Z) : option string :=
  items ← compile_format format;
  Some (render items (fields_of_ns ns)).

(** Fields that name a date and a time of day of a representable
    instant. *)
Definition valid_fields (f : fields) : Prop :=
  1 ≤ f_month f ≤ 12 ∧
  1 ≤ f_day f ≤ days_in_month (f_year f) (f_month f) ∧
  0 ≤ f_hour f < 24 ∧ 0 ≤ f_minute f < 60 ∧ 0 ≤ f_second f < 60 ∧
  timestamp_min ≤ epoch_ns f ≤ timestamp_max.

(** The two formats of the source tables. *)
Definition source_formats : list string :=
  ["%d/%m/%Y %H:%M:%S"; "%d/%m/%Y %H:%M"].

(** The fields a text in the format determines: those its directives
    show, the others at their defaults. *)
Fixpoint shown (items : list item) (f acc : fields) : fields :=
  match items with
  | [] => acc
  | Directive d :: items' => shown items' f (set_field d (field d f) acc)
  | _ :: items' => shown items' f acc
  end.

(** A well-formed interval text in [format]: the start and the end of the
    interval, each written in [format] with its fields padded as the
    directives prescribe, joined by " - ". *)
Definition well_formed_interval (format s : string) : Prop :=
  ∃ items f_start f_end,
    compile_format format = Some items ∧
    valid_fields f_start ∧ shown items f_start default_fields = f_start ∧
    valid_fields f_end ∧ shown items f_end default_fields = f_end ∧
    s = render items f_start +:+ " - " +:+ render items f_end.

(** The two source formats, compiled. *)
Definition items_with_seconds : list item :=
  [Directive Dd; Literal "/"; Directive Dm; Literal "/"; Directive DY;
   Whitespace " "; Directive DH; Literal ":"; Directive DM; Literal ":";
   Directive DS].

Definition items_without_seconds : list item :=
  [Directive Dd; Literal "/"; Directive Dm; Literal "/"; Directive DY;
   Whitespace " "; Directive DH; Literal ":"; Directive DM].

(** What a well-formed text parses to: the instants of its two sides. *)
Definition parses_to (format s : string) (instants : Z * Z) : Prop :=
  split " - " s ≠ [] ∧
  (Some <$> split " - " s) = [Some (default "" (split " - " s !! 0%nat));
                              Some (default "" (split " - " s !! 1%nat))] ∧
  to_datetime_value format (split " - " s !! 0%nat) = Ok (Ts instants.1) ∧
  to_datetime_value format (split " - " s !! 1%nat) = Ok (Ts instants.2) ∧
  ∃ text_start text_end,
    strftime format instants.1 = Some text_start ∧
    strftime format instants.2 = Some text_end ∧
    text_start +:+ " - " +:+ text_end = s.

(** Whether the character [c] occurs in [s]. *)
Fixpoint has_char (c : ascii) (s : string) : bool :=
  match s with
  | EmptyString => false
  | String c' s' => Ascii.eqb c c' || has_char c s'
  end.

(** What interval parsing makes of one cell of the interval column: the
    first piece of a text gives the start and the second the end, a
    missing piece and a cell that is not a text give [NaT]. *)
Definition parsed_interval (format : string) (c a b : cell) : Prop :=
  match c with
  | Str s =>
      to_datetime_value format (split " - " s !! 0%nat) = Ok a ∧
      to_datetime_value format (split " - " s !! 1%nat) = Ok b
  | _ => a = NaT ∧ b = NaT
  end.

(** The text [s] has the interval separator somewhere. *)
Definition contains_separator (s : string) : Prop :=
  ∃ a b, s = a +:+ " - " +:+ b.

(** Every row has a UTC instant or [NaT] under both key labels. *)
Definition well_keyed (df : DataFrame) : Prop :=
  Forall (λ row, Forall DataPreprocessing.is_utc (key_of interval_key row)) (rows df).

(** Row [r1] does not start after row [r2]: a row without a start
    instant comes after every row that has one. *)
Definition starts_before (r1 r2 : gmap string cell) : Prop :=
  match get "start_ts_utc" r1, get "start_ts_utc" r2 with
  | Ts x, Ts y => (x ≤ y)%Z
  | _, Ts _ => False
  | _, _ => True
  end.

(** The reader [read_from_dir_as_df] uses for a supported format. *)
Definition reader_of (fs : FileSystem) (file_format : string)
  : string → option DataFrame :=
  if decide (file_format = ".csv") then read_csv fs else read_excel fs.

(** The renewable production types that occur in a long table, in the
    order of [renewable_types]. *)
Definition present_types (long : DataFrame) : list string :=
  List.filter
    (λ t, bool_decide (Str t ∈ column long "production_type"))
    renewable_types.

(** What identifies a row of the long table. *)
Definition entry (row : gmap string cell) : list cell * cell :=
  (key_of interval_key row, get "production_type" row).

(** ** Example tables *)

Definition price_row (mtu sequence : string) (price : cell)
  : gmap string cell :=
  {[ "MTU (UTC)" := Str mtu; "Sequence" := Str sequence;
     "Day-ahead Price (EUR/MWh)" := price ]}.

Definition load_row (mtu : string) (load : cell) : gmap string cell :=
  {[ "MTU (UTC)" := Str mtu; "Actual Total Load (MW)" := load ]}.

Definition generation_row (mtu kind : string) (generation : cell)
  : gmap string cell :=
  {[ "MTU (UTC)" := Str mtu; "Production Type" := Str kind;
     "Generation (MW)" := generation ]}.

Definition prices_file : DataFrame :=
  {| columns := ["MTU (UTC)"; "Sequence"; "Day-ahead Price (EUR/MWh)"];
     rows :=
       [ price_row "01/01/2024 01:00:00 - 01/01/2024 02:00:00"
                   "Sequence Sequence 1" (Str "n/e");
         price_row "01/01/2024 00:00:00 - 01/01/2024 01:00:00"
                   "Sequence Sequence 1" (Num 5);
         price_row "01/01/2024 00:00:00 - 01/01/2024 01:00:00"
                   "Sequence Sequence 2" (Num 6) ] |}.

Definition consumption_file : DataFrame :=
  {| columns := ["MTU (UTC)"; "Actual Total Load (MW)"];
     rows := [ load_row "01/01/2024 00:00 - 01/01/2024 01:00" (Num 100) ] |}.

(** The same load interval delivered twice. *)
Definition consumption_file_twice : DataFrame :=
  {| columns := ["MTU (UTC)"; "Actual Total Load (MW)"];
     rows := [ load_row "01/01/2024 00:00 - 01/01/2024 01:00" (Num 100);
               load_row "01/01/2024 00:00 - 01/01/2024 01:00" (Num 101) ] |}.

Definition production_file : DataFrame :=
  {| columns := ["MTU (UTC)"; "Production Type"; "Generation (MW)"];
     rows :=
       [ generation_row "01/01/2024 00:00:00 - 01/01/2024 01:00:00"
                        "Wind Onshore" (Num 7);
         generation_row "01/01/2024 00:00:00 - 01/01/2024 01:00:00"
                        "Solar" (Str "-");
         generation_row "01/01/2024 00:00:00 - 01/01/2024 01:00:00"
                        "Nuclear" (Num 9) ] |}.

(** A raw data directory with one CSV file and one other file in each of
    its three folders. *)
Definition fs_of (prices consumption production : DataFrame) : FileSystem :=
  {| isdir := λ path,
       bool_decide (path ∈ ["../data/raw/prices"; "../data/raw/consumption";
                            "../data/raw/production"]);
     listdir := λ _, ["a.csv"; "readme.txt"];
     read_csv := λ path,
       if decide (path = "../data/raw/prices/a.csv") then Some prices
       else if decide (path = "../data/raw/consumption/a.csv")
       then Some consumption
       else if decide (path = "../data/raw/production/a.csv")
       then Some production
       else None;
     read_excel := λ _, None |}.

Definition example_fs : FileSystem :=
  fs_of prices_file consumption_file production_file.

Definition fan_out_fs : FileSystem :=
  fs_of prices_file consumption_file_twice production_file.

(** A directory that exists and holds no CSV file. *)
Definition notes_fs : FileSystem :=
  {| isdir := λ _, true; listdir := λ _, ["notes.txt"];
     read_csv := λ _, None; read_excel := λ _, None |}.

(** The table a call returned, for a call that is known to return. *)
Definition returned (r : result DataFrame) : DataFrame :=
  match r with
  | Ok df => df
  | Raise _ => {| columns := []; rows := [] |}
  end.

Definition example_merged : DataFrame :=
  returned (load_raw_data_from_dir example_fs).

Definition example_long : DataFrame :=
  returned (production_long example_fs "../data/raw/").

(** A production file that delivers the solar generation of one interval
    twice, and what reaches the pivot of it. *)
Definition production_file_twice : DataFrame :=
  {| columns := ["MTU (UTC)"; "Production Type"; "Generation (MW)"];
     rows :=
       [ generation_row "01/01/2024 00:00:00 - 01/01/2024 01:00:00"
                        "Solar" (Num 3);
         generation_row "01/01/2024 00:00:00 - 01/01/2024 01:00:00"
                        "Wind Onshore" (Num 7);
         generation_row "01/01/2024 00:00:00 - 01/01/2024 01:00:00"
                        "Solar" (Num 4) ] |}.

Definition duplicated_fs : FileSystem :=
  fs_of prices_file consumption_file production_file_twice.

Definition duplicated_long : DataFrame :=
  returned (production_long duplicated_fs "../data/raw/").

(** What the example directory gives at each stage. *)
Definition example_prices_raw : DataFrame :=
  returned (read_from_dir_as_df example_fs "../data/raw/prices" ".csv").

Definition example_consumption_raw : DataFrame :=
  returned (read_from_dir_as_df example_fs "../data/raw/consumption" ".csv").

Definition example_prices : DataFrame :=
  returned (load_raw_prices example_fs "../data/raw/").

Definition example_consumption : DataFrame :=
  returned (load_raw_consumption example_fs "../data/raw/").

Definition example_production : DataFrame :=
  returned (load_raw_production example_fs "../data/raw/").

(** A price file whose intervals are written without seconds, and a load
    file whose intervals are written with seconds. *)
Definition prices_file_minutes : DataFrame :=
  {| columns := ["MTU (UTC)"; "Sequence"; "Day-ahead Price (EUR/MWh)"];
     rows := [ price_row "01/01/2024 00:00 - 01/01/2024 01:00"
                         "Sequence Sequence 1" (Num 5) ] |}.

Definition consumption_file_seconds : DataFrame :=
  {| columns := ["MTU (UTC)"; "Actual Total Load (MW)"];
     rows := [ load_row "01/01/2024 00:00:00 - 01/01/2024 01:00:00"
                        (Num 100) ] |}.

Definition minutes_in_prices_fs : FileSystem :=
  fs_of prices_file_minutes consumption_file production_file.

Definition seconds_in_load_fs : FileSystem :=
  fs_of prices_file consumption_file_seconds production_file.

(** The first hour of 2024, as an interval key. *)
Definition first_hour : list cell :=
  [Ts 1704067200000000000; Ts 1704070800000000000].

(** A column in which the second row has no separator. *)
Definition mixed_batch : DataFrame :=
  {| columns := ["MTU (UTC)"];
     rows := [ {[ "MTU (UTC)" :=
                    Str "01/01/2024 00:00:00 - 01/01/2024 01:00:00" ]};
               {[ "MTU (UTC)" := Str "01/01/2024 01:00:00" ]} ] |}.

(** A column with a date in another layout. *)
Definition iso_batch : DataFrame :=
  {| columns := ["MTU (UTC)"];
     rows := [ {[ "MTU (UTC)" :=
                    Str "2024-01-01 00:00:00 - 2024-01-01 01:00:00" ]} ] |}.

Definition midnight_fields : fields :=
  {| f_year := 2024; f_month := 1; f_day := 1;
     f_hour := 0; f_minute := 0; f_second := 0 |}.

Definition one_o_clock_fields : fields :=
  {| f_year := 2024; f_month := 1; f_day := 1;
     f_hour := 1; f_minute := 0; f_second := 0 |}.

End LoadData.

(** * Properties *)

(** ** The result monad *)

Lemma bind_Ok {A B} (r : result A) (k : A → result B) b :
  bind r k = Ok b ↔ ∃ a, r = Ok a ∧ k a = Ok b.
Proof.
  destruct r as [a|e]; simpl; split.
  - intros Hk. by exists a.
  - by intros (a' & [= <-] & Hk).
  - done.
  - by intros (a' & [=] & _).
Qed.

Lemma traverse_Ok {A B} (f : A → result B) l l' :
  traverse f l = Ok l' ↔ Forall2 (λ a b, f a = Ok b) l l'.
Proof.
  revert l'. induction l as [|a l IH]; intros l'; simpl.
  - split; [intros [= <-]; constructor | by inversion 1].
  - split.
    + intros (b & Hb & (bs & Hbs & [= <-])%bind_Ok)%bind_Ok.
      constructor; [done | by apply IH].
    + inversion 1 as [|? b ? bs Hb Hbs]; subst.
      rewrite Hb; simpl. apply IH in Hbs. by rewrite Hbs.
Qed.

Lemma traverse_Raise {A B} (f : A → result B) l a :
  a ∈ l → raises (f a) → raises (traverse f l).
Proof.
  intros Hin [e He]. unfold raises.
  induction Hin as [a l | a b l Hin IH]; simpl.
  - rewrite He. by eexists.
  - destruct (f b); simpl; [|by eexists].
    destruct (IH He) as [e' ->]. by eexists.
Qed.

(** ** Frames *)

Lemma get_insert label v (row : gmap string cell) :
  get label (<[label := v]> row) = v.
Proof. unfold get. by rewrite lookup_insert_eq. Qed.

Lemma get_insert_ne label label' v (row : gmap string cell) :
  label ≠ label' → get label' (<[label := v]> row) = get label' row.
Proof. intros. unfold get. by rewrite lookup_insert_ne. Qed.

Lemma column_setitem df label values :
  length values = length (rows df) →
  column (setitem df label values) label = values.
Proof.
  unfold column, setitem; simpl. generalize (rows df) as rs.
  induction values as [|v vs IH]; intros [|r rs] Hlen;
    simplify_eq/=; [done|].
  rewrite get_insert. f_equal. by apply IH.
Qed.

Lemma column_setitem_ne df label label' values :
  length values = length (rows df) → label ≠ label' →
  column (setitem df label values) label' = column df label'.
Proof.
  unfold column, setitem; simpl. generalize (rows df) as rs.
  induction values as [|v vs IH]; intros [|r rs] Hlen Hne;
    simplify_eq/=; [done|].
  rewrite get_insert_ne by done. f_equal. by apply IH.
Qed.

Lemma column_sort_values df by_ label :
  column (sort_values df by_) label ≡ₚ column df label.
Proof. unfold column, sort_values; simpl. by rewrite merge_sort_Permutation. Qed.

(** ** Gap detection *)

Import DataPreprocessing.

Section gap_detection.

Variable infer_datetime : cell → option Z.

Local Abbreviation to_datetime := (to_datetime infer_datetime).
Local Abbreviation contains_datetime_gaps :=
  (contains_datetime_gaps infer_datetime).

Lemma to_datetime_length series coerced :
  to_datetime series = Ok coerced → length coerced = length series.
Proof. intros H%traverse_Ok. symmetry. by eapply Forall2_length. Qed.

Lemma foldr_min_spec t ts : is_min (t :: ts) (foldr Z.min t ts).
Proof.
  induction ts as [|x ts [IHin IHle]]; simpl.
  - split; [left | intros ? ->%list_elem_of_singleton; lia].
  - split.
    + destruct (Z.min_spec x (foldr Z.min t ts)) as [[_ ->]|[_ ->]].
      * right; left.
      * apply elem_of_cons in IHin as [->|?]; [left | right; by right].
    + intros y Hy. assert (foldr Z.min t ts ≤ y ∨ y = x) as [?| ->].
      { apply elem_of_cons in Hy as [->|[->|?]%elem_of_cons].
        - left. apply IHle. left.
        - by right.
        - left. apply IHle. by right. }
      all: lia.
Qed.

Lemma foldr_max_spec t ts : is_max (t :: ts) (foldr Z.max t ts).
Proof.
  induction ts as [|x ts [IHin IHle]]; simpl.
  - split; [left | intros ? ->%list_elem_of_singleton; lia].
  - split.
    + destruct (Z.max_spec x (foldr Z.max t ts)) as [[_ ->]|[_ ->]].
      * apply elem_of_cons in IHin as [->|?]; [left | right; by right].
      * right; left.
    + intros y Hy. assert (y ≤ foldr Z.max t ts ∨ y = x) as [?| ->].
      { apply elem_of_cons in Hy as [->|[->|?]%elem_of_cons].
        - left. apply IHle. left.
        - by right.
        - left. apply IHle. by right. }
      all: lia.
Qed.

Lemma series_min_spec series :
  match series_min series with
  | Some lo => is_min (instants series) lo
  | None => instants series = []
  end.
Proof.
  unfold series_min. destruct (instants series); [done|apply foldr_min_spec].
Qed.

Lemma series_max_spec series :
  match series_max series with
  | Some hi => is_max (instants series) hi
  | None => instants series = []
  end.
Proof.
  unfold series_max. destruct (instants series); [done|apply foldr_max_spec].
Qed.

Lemma series_min_ext s1 s2 :
  (∀ t, t ∈ instants s1 ↔ t ∈ instants s2) → series_min s1 = series_min s2.
Proof.
  intros Hext. pose proof (series_min_spec s1) as H1.
  pose proof (series_min_spec s2) as H2.
  destruct (series_min s1) as [a|], (series_min s2) as [b|]; try done.
  - destruct H1 as [Ha1 Ha2], H2 as [Hb1 Hb2]. f_equal.
    apply Hext in Ha1 as Ha. apply Hext in Hb1 as Hb.
    specialize (Ha2 _ Hb). specialize (Hb2 _ Ha). lia.
  - destruct H1 as [Ha%Hext _]. rewrite H2 in Ha. by apply elem_of_nil in Ha.
  - destruct H2 as [Hb%Hext _]. rewrite H1 in Hb. by apply elem_of_nil in Hb.
Qed.

Lemma series_max_ext s1 s2 :
  (∀ t, t ∈ instants s1 ↔ t ∈ instants s2) → series_max s1 = series_max s2.
Proof.
  intros Hext. pose proof (series_max_spec s1) as H1.
  pose proof (series_max_spec s2) as H2.
  destruct (series_max s1) as [a|], (series_max s2) as [b|]; try done.
  - destruct H1 as [Ha1 Ha2], H2 as [Hb1 Hb2]. f_equal.
    apply Hext in Ha1 as Ha. apply Hext in Hb1 as Hb.
    specialize (Ha2 _ Hb). specialize (Hb2 _ Ha). lia.
  - destruct H1 as [Ha%Hext _]. rewrite H2 in Ha. by apply elem_of_nil in Ha.
  - destruct H2 as [Hb%Hext _]. rewrite H1 in Hb. by apply elem_of_nil in Hb.
Qed.

Lemma list_difference_ext (l k1 k2 : list Z) :
  (∀ t, t ∈ k1 ↔ t ∈ k2) → list_difference l k1 = list_difference l k2.
Proof.
  intros Hext. induction l as [|x l IH]; simpl; [done|].
  rewrite IH.
  destruct (decide_rel _ x k1) as [H1|H1], (decide_rel _ x k2) as [H2|H2];
    try done; exfalso; [apply H2|apply H1]; by apply Hext.
Qed.

Lemma difference_ext index s1 s2 :
  (∀ t, t ∈ instants s1 ↔ t ∈ instants s2) →
  difference index s1 = difference index s2.
Proof. intros. unfold difference. f_equal. by apply list_difference_ext. Qed.

Lemma elem_of_difference index series t :
  t ∈ difference index series ↔ t ∈ index ∧ t ∉ instants series.
Proof.
  unfold difference. rewrite merge_sort_Permutation.
  by rewrite list_elem_of_difference, elem_of_remove_dups.
Qed.

Lemma StronglySorted_le_lt (l : list Z) :
  StronglySorted Z.le l → NoDup l → StronglySorted Z.lt l.
Proof.
  induction 1 as [|x l Hl IH Hx]; intros Hnd; [constructor|].
  apply NoDup_cons in Hnd as [Hnotin Hnd]. constructor; [by apply IH|].
  apply Forall_forall. intros y Hy.
  assert (x ≤ y) by (eapply Forall_forall in Hx; done).
  assert (x ≠ y) by (intros ->; done). lia.
Qed.

Lemma difference_sorted index series :
  StronglySorted Z.lt (difference index series).
Proof.
  apply StronglySorted_le_lt.
  - apply (StronglySorted_merge_sort Z.le).
  - unfold difference. rewrite merge_sort_Permutation.
    apply NoDup_list_difference, NoDup_remove_dups.
Qed.

Lemma elem_of_arange b e stride t :
  0 < stride →
  t ∈ arange b e stride ↔
  ∃ j, 0 ≤ j < - ((b - e) / stride) ∧ t = b + j * stride.
Proof.
  intros Hs. unfold arange. rewrite list_elem_of_fmap. split.
  - intros (j & -> & Hj%elem_of_seq). exists (Z.of_nat j). split; lia.
  - intros (j & Hj & ->). exists (Z.to_nat j). split.
    + f_equal. lia.
    + apply elem_of_seq. lia.
Qed.

(** With a positive stride [date_range] is the regular calendar. *)
Lemma elem_of_date_range lo hi frequency full_range t :
  0 < frequency → lo ≤ hi →
  date_range (Some lo) (Some hi) frequency = Ok full_range →
  t ∈ full_range ↔ regular_calendar lo hi frequency t.
Proof.
  intros Hf Hle. unfold date_range. case_decide; [lia|]. intros [= <-].
  rewrite elem_of_arange by done.
  set (k := (hi - lo) / frequency).
  assert (Hk : k * frequency ≤ hi - lo < (k + 1) * frequency).
  { pose proof (Z.div_mod (hi - lo) frequency ltac:(lia)).
    pose proof (Z.mod_pos_bound (hi - lo) frequency Hf). subst k. nia. }
  assert (Hlen : - ((lo - (lo + k * frequency + frequency / 2 + 1))
                    / frequency) = k + 1).
  { assert (0 ≤ frequency / 2 < frequency).
    { split; [apply Z.div_pos; lia | apply Z.div_lt_upper_bound; lia]. }
    replace (lo - (lo + k * frequency + frequency / 2 + 1))
      with ((frequency - (frequency / 2 + 1)) + (- (k + 1)) * frequency)
      by lia.
    rewrite Z.div_add by lia. rewrite Z.div_small by lia. lia. }
  rewrite Hlen. unfold regular_calendar. split.
  - intros (j & Hj & ->). split; [nia|]. exists j. split; lia.
  - intros ([_ Hhi] & j & Hj & ->). exists j. split; [|done]. nia.
Qed.

(** What the call returns, in terms of the coerced column alone. *)
Lemma contains_datetime_gaps_result df label frequency series coerced :
  getitem df label = Ok series →
  to_datetime series = Ok coerced →
  contains_datetime_gaps df label frequency =
    (setitem df label coerced,
     full_range ←! date_range (series_min coerced) (series_max coerced)
                     frequency;
     Ok (negb (bool_decide (difference full_range coerced = [])),
         difference full_range coerced)).
Proof.
  intros Hget Hto. unfold DataPreprocessing.contains_datetime_gaps.
  rewrite Hget, Hto.
  assert (Hlen : length coerced = length (rows df)).
  { rewrite (to_datetime_length _ _ Hto). unfold getitem in Hget.
    case_decide; simplify_eq. unfold column. by rewrite length_fmap. }
  assert (Hext : ∀ t,
    t ∈ instants (column (sort_values (setitem df label coerced) [label])
                         label) ↔ t ∈ instants coerced).
  { intros t. unfold instants.
    by rewrite column_sort_values, column_setitem. }
  rewrite (series_min_ext _ _ Hext), (series_max_ext _ _ Hext).
  f_equal. destruct (date_range _ _ _) as [full_range|]; simpl; [|done].
  by rewrite (difference_ext _ _ _ Hext).
Qed.

(** C1. When the timestamp column parses and holds at least one instant,
    and the frequency is a positive step, the call returns a boolean and
    a sequence of instants: the sequence holds exactly the instants of the
    regular calendar from the least to the greatest observed instant
    (both ends included) that were not observed, in strictly ascending
    order, and the boolean is true exactly when there is such an instant. *)
Theorem contains_datetime_gaps_calendar_difference
    df label frequency series coerced :
  getitem df label = Ok series →
  to_datetime series = Ok coerced →
  instants coerced ≠ [] →
  0 < frequency →
  ∃ lo hi has_gaps missing_times,
    is_min (instants coerced) lo ∧ is_max (instants coerced) hi ∧
    (contains_datetime_gaps df label frequency).2
      = Ok (has_gaps, missing_times) ∧
    (has_gaps = true ↔
       ∃ t, regular_calendar lo hi frequency t ∧ t ∉ instants coerced) ∧
    (∀ t, t ∈ missing_times ↔
       regular_calendar lo hi frequency t ∧ t ∉ instants coerced) ∧
    StronglySorted Z.lt missing_times.
Proof.
  intros Hget Hto Hobs Hf.
  rewrite (contains_datetime_gaps_result _ _ _ _ _ Hget Hto); simpl.
  pose proof (series_min_spec coerced) as Hmin.
  pose proof (series_max_spec coerced) as Hmax.
  destruct (series_min coerced) as [lo|]; [|done].
  destruct (series_max coerced) as [hi|]; [|done].
  assert (lo ≤ hi) by (destruct Hmin as [_ Hmin], Hmax as [Hin _]; auto).
  destruct (date_range (Some lo) (Some hi) frequency) as [full_range|e]
    eqn:Hrange;
    [|unfold date_range in Hrange; destruct (decide (frequency = 0)); [lia|done]].
  assert (Hmem : ∀ t, t ∈ difference full_range coerced ↔
            regular_calendar lo hi frequency t ∧ t ∉ instants coerced).
  { intros t. rewrite elem_of_difference.
    by rewrite (elem_of_date_range _ _ _ _ t Hf ltac:(done) Hrange). }
  exists lo, hi, (negb (bool_decide (difference full_range coerced = []))),
    (difference full_range coerced).
  split_and!; try done; [|apply difference_sorted].
  rewrite negb_true_iff, bool_decide_eq_false. split.
  - intros Hne. destruct (difference full_range coerced) as [|t l] eqn:Hd;
      [done|]. exists t. apply Hmem. left.
  - intros (t & Ht%Hmem) Hnil. rewrite Hnil in Ht. by apply elem_of_nil in Ht.
Qed.

(** A column with rows but a single distinct instant has no gaps, at any
    step other than zero. *)
Lemma single_timestamp_no_gaps df label frequency series coerced :
  getitem df label = Ok series →
  to_datetime series = Ok coerced →
  instants coerced ≠ [] →
  (∀ t1 t2, t1 ∈ instants coerced → t2 ∈ instants coerced → t1 = t2) →
  frequency ≠ 0 →
  (contains_datetime_gaps df label frequency).2 = Ok (false, []).
Proof.
  intros Hget Hto Hobs Hone Hf.
  rewrite (contains_datetime_gaps_result _ _ _ _ _ Hget Hto); simpl.
  pose proof (series_min_spec coerced) as Hmin.
  pose proof (series_max_spec coerced) as Hmax.
  destruct (series_min coerced) as [lo|]; [|done].
  destruct (series_max coerced) as [hi|]; [|done].
  destruct Hmin as [Hlo _], Hmax as [Hhi _].
  rewrite <- (Hone _ _ Hlo Hhi). unfold date_range.
  case_decide; [done|]. simpl.
  rewrite Z.sub_diag, Z.div_0_l, Z.mul_0_l, Z.add_0_r by done.
  assert (Hnil : difference (arange lo (lo + frequency / 2 + 1) frequency)
                   coerced = []).
  { apply elem_of_nil_inv. intros t [Ht Hnotin]%elem_of_difference.
    apply Hnotin. unfold arange in Ht.
    apply list_elem_of_fmap in Ht as (j & -> & Hj%elem_of_seq).
    assert (- ((lo - (lo + frequency / 2 + 1)) / frequency) ≤ 1).
    { replace (lo - (lo + frequency / 2 + 1)) with (- (frequency / 2 + 1))
        by lia.
      pose proof (Z.div_mod frequency 2 ltac:(lia)).
      pose proof (Z.mod_pos_bound frequency 2 ltac:(lia)).
      destruct (decide (0 < frequency)).
      - pose proof (Z.div_mod (- (frequency / 2 + 1)) frequency Hf).
        pose proof (Z.mod_pos_bound (- (frequency / 2 + 1)) frequency
                      ltac:(lia)). nia.
      - pose proof (Z.div_mod (- (frequency / 2 + 1)) frequency Hf).
        pose proof (Z.mod_neg_bound (- (frequency / 2 + 1)) frequency
                      ltac:(lia)). nia. }
    replace j with 0%nat by lia. by rewrite Z.mul_0_l, Z.add_0_r. }
  by rewrite Hnil.
Qed.

(** C2, on a table without rows: the least and the greatest instant are
    both missing, [pd.date_range] refuses them, and the call raises
    instead of reporting that there are no gaps. *)
Theorem contains_datetime_gaps_empty_table_raises frequency :
  contains_datetime_gaps
    {| columns := ["timestamp"]; rows := [] |} "timestamp" frequency
  = ({| columns := ["timestamp"]; rows := [] |},
     Raise (ValueError NaTBound)).
Proof. reflexivity. Qed.

(** C3. Two tables whose timestamp columns parse to the same set of
    instants get the same answer at the same frequency, whatever the
    order of their rows and however often an instant is repeated. *)
Theorem contains_datetime_gaps_set_invariant
    df1 df2 label1 label2 frequency series1 series2 coerced1 coerced2 :
  getitem df1 label1 = Ok series1 →
  to_datetime series1 = Ok coerced1 →
  getitem df2 label2 = Ok series2 →
  to_datetime series2 = Ok coerced2 →
  (∀ t, t ∈ instants coerced1 ↔ t ∈ instants coerced2) →
  (contains_datetime_gaps df1 label1 frequency).2
  = (contains_datetime_gaps df2 label2 frequency).2.
Proof.
  intros Hget1 Hto1 Hget2 Hto2 Hext.
  rewrite (contains_datetime_gaps_result _ _ _ _ _ Hget1 Hto1).
  rewrite (contains_datetime_gaps_result _ _ _ _ _ Hget2 Hto2). simpl.
  rewrite (series_min_ext _ _ Hext), (series_max_ext _ _ Hext).
  destruct (date_range _ _ _) as [full_range|]; simpl; [|done].
  by rewrite (difference_ext _ _ _ Hext).
Qed.

Lemma to_datetime_utc series :
  Forall is_utc series → to_datetime series = Ok series.
Proof.
  intros H. apply traverse_Ok. induction H as [|c l Hc _ IH]; constructor;
    [|done]. by destruct Hc as [->|[ns ->]].
Qed.

Lemma setitem_same df label :
  label ∈ columns df →
  Forall (λ row, is_Some (row !! label)) (rows df) →
  setitem df label (column df label) = df.
Proof.
  intros Hin Hrows. destruct df as [cols rs]. unfold setitem, column; simpl in *.
  rewrite decide_True by done. f_equal.
  induction Hrows as [|row rs [c Hc] _ IH]; simpl; [done|].
  f_equal; [|done]. apply insert_id. unfold get. by rewrite Hc.
Qed.

(** C8, as the code has it.  The call leaves the caller's table with the
    same columns and the same rows in the same order, and changes no
    cell outside the timestamp column.  The table is left as it was when
    the column is missing and when the coercion raises.  As soon as the
    coercion succeeds the timestamp column is overwritten, in the
    caller's table, with its values coerced to UTC: the table is then the
    one that the assignment of line 14 makes, and its timestamp column
    holds the coerced values.  So the table is left as it was when every
    row already holds a UTC instant or [NaT] there. *)
Theorem contains_datetime_gaps_frame_effect df label frequency :
  let caller_df := (contains_datetime_gaps df label frequency).1 in
  columns caller_df = columns df ∧
  length (rows caller_df) = length (rows df) ∧
  (∀ i row', rows caller_df !! i = Some row' →
     ∃ row, rows df !! i = Some row ∧
            ∀ other, other ≠ label → row' !! other = row !! other) ∧
  (label ∉ columns df → caller_df = df) ∧
  (∀ e, to_datetime (column df label) = Raise e → caller_df = df) ∧
  (∀ coerced, label ∈ columns df →
     to_datetime (column df label) = Ok coerced →
     caller_df = setitem df label coerced ∧
     column caller_df label = coerced ∧
     ∀ i row', rows caller_df !! i = Some row' →
       ∃ c, coerced !! i = Some c ∧ row' !! label = Some c) ∧
  (Forall (λ row, ∃ c, row !! label = Some c ∧ is_utc c) (rows df) →
   caller_df = df).
Proof.
  simpl. unfold DataPreprocessing.contains_datetime_gaps, getitem.
  destruct (decide (label ∈ columns df)) as [Hin|Hnot]; simpl.
  2: { split_and!; try done. intros i row' ->. by exists row'. }
  destruct (to_datetime (column df label)) as [coerced|e] eqn:Hto; simpl.
  2: { split_and!; try done. intros i row' ->. by exists row'. }
  assert (Hlen : length coerced = length (rows df)).
  { rewrite (to_datetime_length _ _ Hto). unfold column.
    by rewrite length_fmap. }
  split_and!.
  - by rewrite decide_True.
  - rewrite length_zip_with. lia.
  - intros i row' Hi. apply lookup_zip_with_Some in Hi
      as (row & v & -> & Hrow & _).
    exists row. split; [done|]. intros other Hne.
    by rewrite lookup_insert_ne.
  - done.
  - done.
  - intros coerced' _ [= <-]. split_and!; [done|by rewrite column_setitem|].
    intros i row' Hi. apply lookup_zip_with_Some in Hi
      as (row & c & -> & _ & Hc).
    exists c. split; [done|]. by rewrite lookup_insert_eq.
  - intros Hutc.
    assert (Hcol : Forall is_utc (column df label)).
    { unfold column. apply Forall_fmap. eapply Forall_impl; [done|].
      intros row (c & Hc & ?); simpl. unfold get. by rewrite Hc. }
    rewrite (to_datetime_utc _ Hcol) in Hto. simplify_eq.
    apply setitem_same; [done|].
    eapply Forall_impl; [done|]. intros row (c & -> & _). by eexists.
Qed.

End gap_detection.

Example contains_datetime_gaps_example :
  (contains_datetime_gaps no_inference (observations three_hours)
     "timestamp" hour_ns).2
  = Ok (true, [midnight_ns + 2 * hour_ns]).
Proof. vm_compute. reflexivity. Qed.

Lemma contains_datetime_gaps_calendar_difference_witness :
  ∃ lo hi has_gaps missing_times,
    is_min (instants three_hours) lo ∧ is_max (instants three_hours) hi ∧
    (contains_datetime_gaps no_inference (observations three_hours)
       "timestamp" hour_ns).2 = Ok (has_gaps, missing_times) ∧
    (has_gaps = true ↔
       ∃ t, regular_calendar lo hi hour_ns t ∧ t ∉ instants three_hours) ∧
    (∀ t, t ∈ missing_times ↔
       regular_calendar lo hi hour_ns t ∧ t ∉ instants three_hours) ∧
    StronglySorted Z.lt missing_times.
Proof.
  apply (contains_datetime_gaps_calendar_difference no_inference
           (observations three_hours) "timestamp" hour_ns
           three_hours three_hours).
  - reflexivity.
  - reflexivity.
  - discriminate.
  - reflexivity.
Defined.

Lemma same_elements (l1 l2 : list Z) :
  bool_decide (Forall (.∈ l2) l1 ∧ Forall (.∈ l1) l2) = true →
  ∀ t, t ∈ l1 ↔ t ∈ l2.
Proof.
  intros [H1 H2]%bool_decide_eq_true t.
  rewrite Forall_forall in H1, H2. split; auto.
Qed.

Lemma contains_datetime_gaps_set_invariant_witness :
  let shuffled :=
    [Ts (midnight_ns + 3 * hour_ns); Ts midnight_ns; NaT;
     Ts (midnight_ns + hour_ns); Ts midnight_ns] in
  (contains_datetime_gaps no_inference (observations three_hours)
     "timestamp" hour_ns).2
  = (contains_datetime_gaps no_inference (observations shuffled)
       "timestamp" hour_ns).2.
Proof.
  intros shuffled.
  apply (contains_datetime_gaps_set_invariant no_inference
           (observations three_hours) (observations shuffled)
           "timestamp" "timestamp" hour_ns
           three_hours shuffled three_hours shuffled).
  - reflexivity.
  - reflexivity.
  - reflexivity.
  - reflexivity.
  - apply same_elements. reflexivity.
Defined.

(** C8 as stated fails: a column of datetimes without time zone is
    replaced, in the caller's table, by datetimes in UTC. *)
Lemma contains_datetime_gaps_mutates_caller :
  (contains_datetime_gaps no_inference (observations [Naive midnight_ns])
     "timestamp" hour_ns).1
  = observations [Ts midnight_ns]
  ∧ observations [Ts midnight_ns] ≠ observations [Naive midnight_ns].
Proof.
  split; [reflexivity|]. intros H.
  apply (f_equal (λ df, column df "timestamp")) in H. discriminate H.
Qed.


(** ** The directory reader *)

Import LoadData.

Lemma traverse_Raise_inv {A B} (f : A → result B) l e :
  traverse f l = Raise e → ∃ a, a ∈ l ∧ f a = Raise e.
Proof.
  induction l as [|a l IH]; simpl; [done|].
  destruct (f a) as [b|e'] eqn:Hfa; simpl.
  - destruct (traverse f l) as [bs|e'] eqn:Hl; simpl; [done|].
    intros [= ->]. destruct (IH eq_refl) as (a' & Hin & Ha').
    exists a'. split; [by right | done].
  - intros [= ->]. exists a. split; [left | done].
Qed.

Lemma concat_Raise dataframes e :
  concat dataframes = Raise e →
  dataframes = [] ∧ e = ValueError NoObjectsToConcatenate.
Proof. destruct dataframes; simpl; [by intros [= <-] | done]. Qed.

(** C10. In a directory that exists, no entry with the requested ending
    makes [pd.concat] raise on an empty list; and the explicit rejection of
    an unsupported format is raised exactly when the format is neither
    ".csv" nor ".xlsx" and some entry has that ending. *)
Theorem read_from_dir_as_df_no_matching_file fs dir_path file_format :
  isdir fs dir_path = true →
  ((∀ fn, fn ∈ listdir fs dir_path → endswith fn file_format = false) →
   read_from_dir_as_df fs dir_path file_format
   = Raise (ValueError NoObjectsToConcatenate)) ∧
  (∀ rejected,
     read_from_dir_as_df fs dir_path file_format
     = Raise (ValueError (UnsupportedFileFormat rejected)) ↔
     rejected = file_format ∧ file_format ≠ ".csv" ∧ file_format ≠ ".xlsx" ∧
     ∃ fn, fn ∈ listdir fs dir_path ∧ endswith fn file_format = true).
Proof.
  intros Hdir. unfold read_from_dir_as_df. rewrite Hdir; simpl. split.
  - intros Hnone.
    assert (List.filter (λ fn, endswith fn file_format)
              (listdir fs dir_path) = []) as ->; [|done].
    induction (listdir fs dir_path) as [|fn l IH]; simpl; [done|].
    rewrite (Hnone fn) by left. apply IH. intros fn' Hin.
    apply Hnone. by right.
  - intros rejected.
    set (files := List.filter _ _).
    assert (Hfiles : ∀ fn, fn ∈ files ↔
              fn ∈ listdir fs dir_path ∧ endswith fn file_format = true).
    { intros fn. subst files. rewrite !list_elem_of_In, filter_In.
      done. }
    split.
    + destruct (traverse _ files) as [dataframes|e] eqn:Htr; simpl.
      { by intros [_ [=]]%concat_Raise. }
      intros [= ->]. apply traverse_Raise_inv in Htr as (fn & Hfn & Hread).
      repeat case_decide; unfold read_with in Hread;
        try (destruct (read_csv _ _); done);
        try (destruct (read_excel _ _); done).
      simplify_eq. split_and!; try done. exists fn. by apply Hfiles.
    + intros (-> & Hcsv & Hxlsx & fn & Hfn). apply Hfiles in Hfn.
      destruct files as [|fn' files']; [by apply elem_of_nil in Hfn|].
      simpl. by rewrite !decide_False.
Qed.

(** ** Rows and keys *)

Lemma get_fmap (f : cell → cell) label (row : gmap string cell) :
  f NaN = NaN → get label (f <$> row) = f (get label row).
Proof.
  intros Hf. unfold get. rewrite lookup_fmap.
  by destruct (row !! label).
Qed.

Lemma lookup_reindex labels row label :
  reindex labels row !! label =
    if decide (label ∈ labels) then Some (get label row) else None.
Proof.
  unfold reindex. induction labels as [|l labels IH]; csimpl.
  - by rewrite lookup_empty.
  - destruct (decide (l = label)) as [->|Hne].
    + rewrite lookup_insert_eq. by rewrite decide_True by left.
    + rewrite lookup_insert_ne by done. rewrite IH.
      destruct (decide (label ∈ labels)) as [Hin|Hnin].
      * by rewrite decide_True by (by right).
      * rewrite decide_False; [done|].
        intros [?|?]%elem_of_cons; by simplify_eq.
Qed.

Lemma get_reindex labels row label :
  label ∈ labels → get label (reindex labels row) = get label row.
Proof.
  intros Hin. unfold get at 1. by rewrite lookup_reindex, decide_True.
Qed.

Lemma get_union_l label (r1 r2 : gmap string cell) :
  r2 !! label = None → get label (r1 ∪ r2) = get label r1.
Proof.
  intros H2. unfold get. rewrite lookup_union, H2.
  by destruct (r1 !! label).
Qed.

Lemma key_of_ext index (r1 r2 : gmap string cell) :
  (∀ label, label ∈ index → get label r1 = get label r2) →
  key_of index r1 = key_of index r2.
Proof.
  intros H. unfold key_of. apply list_fmap_ext.
  intros i label Hi. apply H. by eapply list_elem_of_lookup_2.
Qed.

(** A merged row keeps the key of the left row it comes from. *)
Lemma key_of_merged on right_columns (left_row r : gmap string cell) :
  key_of on (left_row ∪ reindex (list_difference right_columns on) r)
  = key_of on left_row.
Proof.
  apply key_of_ext. intros label Hin. apply get_union_l.
  rewrite lookup_reindex, decide_False; [done|].
  rewrite list_elem_of_difference. tauto.
Qed.

Lemma filter_all {A} (P : A → bool) l :
  Forall (λ x, P x = true) l → List.filter P l = l.
Proof. induction 1 as [|x l Hx _ IH]; simpl; [done|]. by rewrite Hx, IH. Qed.

Lemma filter_none {A} (P : A → bool) l :
  Forall (λ x, P x = false) l → List.filter P l = [].
Proof. induction 1 as [|x l Hx _ IH]; simpl; [done|]. by rewrite Hx. Qed.

(** Rows of the left join: a key of the left table comes out once for
    every matching right row, and once when there is none. *)
Lemma filter_cons_bool {A} (P : A → bool) x l :
  List.filter P (x :: l)
  = if P x then x :: List.filter P l else List.filter P l.
Proof. reflexivity. Qed.

Lemma count_key_merge left right key :
  count_key key (merge left right interval_key)
  = (count_key key left * Nat.max 1 (count_key key right))%nat.
Proof.
  unfold count_key, merge. cbn [rows].
  induction (rows left) as [|left_row rs IH]; [done|].
  rewrite bind_cons, List.filter_app, length_app, IH. clear IH.
  set (matches := List.filter _ (rows right)).
  set (block := match matches with [] => _ | _ => _ end).
  assert (Hblock : Forall (λ row, key_of interval_key row
                                  = key_of interval_key left_row) block).
  { subst block. destruct matches as [|r matches].
    - repeat constructor. apply key_of_merged.
    - apply Forall_fmap, Forall_forall. intros r' _. apply key_of_merged. }
  assert (Hlen : length block = Nat.max 1 (length matches)).
  { subst block. destruct matches; [done|].
    rewrite length_fmap. simpl. lia. }
  clearbody block. subst matches.
  rewrite filter_cons_bool.
  destruct (decide (key_of interval_key left_row = key)) as [<-|Hne].
  - rewrite bool_decide_eq_true_2 by done.
    rewrite filter_all, Hlen; [simpl length; lia|].
    eapply Forall_impl; [done|]. intros row ->.
    by apply bool_decide_eq_true_2.
  - rewrite bool_decide_eq_false_2 by done.
    rewrite filter_none; [done|].
    eapply Forall_impl; [done|]. intros row Hrow.
    apply bool_decide_eq_false_2. congruence.
Qed.

(** ** Interval columns *)


Lemma to_datetime_value_utc format v c :
  to_datetime_value format v = Ok c → is_utc c.
Proof.
  unfold to_datetime_value. destruct v as [s|]; [|intros [= <-]; by left].
  case_decide; [intros [= <-]; by left|].
  destruct (strptime format s) as [ns|]; simpl; [|done].
  intros [= <-]. right. by eexists.
Qed.

Lemma parse_intervals_Ok format series starts ends :
  parse_intervals format series = Ok (starts, ends) →
  Forall is_utc starts ∧ Forall is_utc ends ∧
  length starts = length series ∧ length ends = length series.
Proof.
  unfold parse_intervals.
  intros (pieces & Hsplit & (parsed & Hparsed & Hmatch)%bind_Ok)%bind_Ok.
  assert (Hlen : length pieces = length series).
  { unfold str_split in Hsplit. destruct (_ && _) in Hsplit; [done|].
    injection Hsplit as <-. by rewrite length_fmap. }
  destruct parsed as [|starts' [|ends' [|]]]; simplify_eq.
  apply traverse_Ok in Hparsed.
  assert (Hcol : ∀ col, col ∈ [starts; ends] →
            Forall is_utc col ∧ length col = length series).
  { intros col Hcol. apply list_elem_of_lookup in Hcol as [i Hi].
    destruct (Forall2_lookup_r _ _ _ _ _ Hparsed Hi) as (k & _ & Hk).
    apply traverse_Ok in Hk. split.
    - clear Hi. induction Hk as [|v c vs cs Hv _ IH]; constructor; [|done].
      by eapply to_datetime_value_utc.
    - rewrite <- (Forall2_length _ _ _ Hk). unfold expand_column.
      by rewrite length_fmap. }
  destruct (Hcol starts) as [? ?]; [left|].
  destruct (Hcol ends) as [? ?]; [right; left|]. done.
Qed.

Lemma assign_intervals_Ok format df df' :
  assign_intervals format df = Ok df' →
  ∃ starts ends,
    parse_intervals format (column df "MTU (UTC)") = Ok (starts, ends) ∧
    df' = setitem (setitem df "start_ts_utc" starts) "end_ts_utc" ends.
Proof.
  unfold assign_intervals.
  intros (mtu & Hget & ([starts ends] & Hparse & [= <-])%bind_Ok)%bind_Ok.
  unfold getitem in Hget. case_decide; simplify_eq. by exists starts, ends.
Qed.

Lemma length_rows_setitem df label values :
  length values = length (rows df) →
  length (rows (setitem df label values)) = length (rows df).
Proof. intros H. unfold setitem; simpl. rewrite length_zip_with. lia. Qed.

(** After the assignment every row carries a UTC instant or [NaT] under
    both key labels, and keeps its other cells. *)
Lemma assign_intervals_rows format df df' :
  assign_intervals format df = Ok df' →
  length (rows df') = length (rows df) ∧
  Forall (λ row, Forall is_utc (key_of interval_key row)) (rows df') ∧
  ∀ label, label ∉ interval_key → column df' label = column df label.
Proof.
  intros (starts & ends & Hparse & ->)%assign_intervals_Ok.
  apply parse_intervals_Ok in Hparse as (Hs & He & Hls & Hle).
  unfold column in Hls, Hle. rewrite length_fmap in Hls, Hle.
  assert (Hle' : length ends
                 = length (rows (setitem df "start_ts_utc" starts)))
    by by rewrite length_rows_setitem.
  split_and!.
  - by rewrite !length_rows_setitem.
  - assert (Hstart :
      column (setitem (setitem df "start_ts_utc" starts) "end_ts_utc" ends)
             "start_ts_utc" = starts).
    { rewrite column_setitem_ne by done. by apply column_setitem. }
    assert (Hend :
      column (setitem (setitem df "start_ts_utc" starts) "end_ts_utc" ends)
             "end_ts_utc" = ends) by by apply column_setitem.
    rewrite <- Hstart in Hs. rewrite <- Hend in He. unfold column in Hs, He.
    rewrite Forall_fmap in Hs, He. rewrite Forall_forall in Hs, He.
    apply Forall_forall. intros row Hrow.
    unfold key_of, interval_key. rewrite !fmap_cons, fmap_nil.
    constructor; [by apply Hs|]. constructor; [by apply He|constructor].
  - intros label Hlabel.
    assert ("start_ts_utc" ≠ label) by (intros <-; apply Hlabel; left).
    assert ("end_ts_utc" ≠ label)
      by (intros <-; apply Hlabel; right; left).
    by rewrite !column_setitem_ne.
Qed.

(** ** What the loaders return *)

Lemma select_Ok df labels df' :
  select df labels = Ok df' →
  columns df' = labels ∧ rows df' = reindex labels <$> rows df.
Proof.
  unfold select. destruct (list_difference _ _); [|done]. by intros [= <-].
Qed.

Lemma key_of_reindex labels row :
  interval_key ⊆ labels →
  key_of interval_key (reindex labels row) = key_of interval_key row.
Proof.
  intros Hsub. apply key_of_ext. intros label Hin.
  apply get_reindex. by apply Hsub.
Qed.

Lemma interval_key_subseteq labels :
  "start_ts_utc" ∈ labels → "end_ts_utc" ∈ labels → interval_key ⊆ labels.
Proof.
  intros Hs He label [->|[->|[]%elem_of_nil]%elem_of_cons]%elem_of_cons;
    done.
Qed.

Lemma well_keyed_select df labels df' :
  select df labels = Ok df' → interval_key ⊆ labels →
  well_keyed df → well_keyed df'.
Proof.
  intros [_ Hrows]%select_Ok Hsub Hdf. unfold well_keyed. rewrite Hrows.
  apply Forall_fmap. eapply Forall_impl; [done|]. intros row Hrow.
  unfold compose. by rewrite key_of_reindex.
Qed.

Lemma well_keyed_sort_values df by_ :
  well_keyed df → well_keyed (sort_values df by_).
Proof.
  unfold well_keyed, sort_values; simpl. by rewrite merge_sort_Permutation.
Qed.

Lemma get_rename old new df label :
  label ≠ old → label ≠ new →
  column (rename old new df) label = column df label.
Proof.
  intros Hold Hnew. unfold column, rename; simpl.
  rewrite <- list_fmap_compose. apply list_fmap_ext. intros i row _; simpl.
  destruct (row !! old); [|done]. unfold get.
  by rewrite lookup_insert_ne, lookup_delete_ne.
Qed.

Lemma well_keyed_column df :
  well_keyed df ↔
  Forall is_utc (column df "start_ts_utc") ∧
  Forall is_utc (column df "end_ts_utc").
Proof.
  unfold well_keyed, column. rewrite !Forall_fmap, <- Forall_and.
  apply Forall_proper; [|done]. intros row.
  unfold key_of, interval_key. rewrite !fmap_cons, fmap_nil.
  rewrite !Forall_cons, Forall_nil. simpl. tauto.
Qed.

Lemma well_keyed_assign_intervals format df df' :
  assign_intervals format df = Ok df' → well_keyed df'.
Proof. by intros (_ & ? & _)%assign_intervals_rows. Qed.

Lemma load_raw_prices_Ok fs raw_data_dir prices_df :
  load_raw_prices fs raw_data_dir = Ok prices_df →
  columns prices_df = ["start_ts_utc"; "end_ts_utc"; "da_price_eur_mwh"] ∧
  well_keyed prices_df ∧
  Forall (λ row, ∀ label,
            is_Some (row !! label) ↔ label ∈ columns prices_df)
         (rows prices_df).
Proof.
  unfold load_raw_prices.
  intros (raw & _ & (filtered & _ & (assigned & Hassign
    & (selected & Hselect & [= <-])%bind_Ok)%bind_Ok)%bind_Ok)%bind_Ok.
  pose proof (select_Ok _ _ _ Hselect) as [Hcols Hrows].
  split_and!; [done| |].
  - apply well_keyed_sort_values.
    eapply well_keyed_select; [done| |by eapply well_keyed_assign_intervals].
    apply interval_key_subseteq; [left | right; left].
  - simpl. rewrite merge_sort_Permutation, Hrows, Hcols.
    apply Forall_fmap, Forall_forall. intros row _ label. unfold compose.
    rewrite lookup_reindex. case_decide; [|split; [by intros []|done]].
    split; [done|by eexists].
Qed.

(** ** The pivot *)

Lemma pivot_Ok index columns_ values df wide :
  pivot index columns_ values df = Ok wide →
  NoDup ((λ row, (key_of index row, get columns_ row)) <$> rows df) ∧
  ∃ keys heads,
    NoDup keys ∧ (∀ key, key ∈ keys ↔ key ∈ key_of index <$> rows df) ∧
    NoDup heads ∧ (∀ head, head ∈ heads ↔ head ∈ get columns_ <$> rows df) ∧
    columns wide = index ++ (label_of <$> heads) ∧
    rows wide =
      (λ key,
         list_to_map (zip index key)
         ∪ list_to_map
             ((λ head,
                 (label_of head,
                  match List.filter
                          (λ row, bool_decide (key_of index row = key
                                               ∧ get columns_ row = head))
                          (rows df) with
                  | row :: _ => get values row
                  | [] => NaN
                  end)) <$> heads)) <$> keys.
Proof.
  unfold pivot. case_decide as Hnd; [|done]. intros [= <-]. split; [done|].
  eexists _, _. split_and!; [| | | |reflexivity|reflexivity].
  - rewrite merge_sort_Permutation. apply NoDup_remove_dups.
  - intros key. by rewrite merge_sort_Permutation, elem_of_remove_dups.
  - rewrite merge_sort_Permutation. apply NoDup_remove_dups.
  - intros head. by rewrite merge_sort_Permutation, elem_of_remove_dups.
Qed.

Lemma pivot_Raise index columns_ values df :
  ¬ NoDup ((λ row, (key_of index row, get columns_ row)) <$> rows df) →
  pivot index columns_ values df = Raise (ValueError DuplicateEntries).
Proof. intros Hnd. unfold pivot. by rewrite decide_False. Qed.

(** A row of the wide table carries its key under the key labels. *)
Lemma key_of_pivot_row a b (rest : gmap string cell) :
  key_of interval_key (list_to_map (zip interval_key [a; b]) ∪ rest) = [a; b].
Proof.
  unfold key_of, interval_key, get. rewrite !fmap_cons, fmap_nil. simpl.
  repeat f_equal.
  - erewrite lookup_union_Some_l; [done|]. by rewrite lookup_insert_eq.
  - erewrite lookup_union_Some_l; [done|].
    rewrite lookup_insert_ne by done. by rewrite lookup_insert_eq.
Qed.

Lemma key_of_set_columns labels columns_ (row : gmap string cell) :
  key_of interval_key
    (list_to_map (zip (interval_key ++ labels)
                      (key_of (interval_key ++ columns_) row)))
  = key_of interval_key row.
Proof.
  unfold key_of, interval_key, get. simpl.
  rewrite lookup_insert_eq, lookup_insert_ne by done.
  by rewrite lookup_insert_eq.
Qed.

Lemma load_raw_production_keys fs raw_data_dir prod_df :
  load_raw_production fs raw_data_dir = Ok prod_df →
  NoDup (key_of interval_key <$> rows prod_df).
Proof.
  unfold load_raw_production.
  intros (long & _ & (wide & Hpivot & [= <-])%bind_Ok)%bind_Ok.
  apply pivot_Ok in Hpivot
    as (_ & keys & heads & Hkeys & Hin & _ & _ & Hcols & Hrows).
  unfold set_columns. cbn [rows]. rewrite Hcols, Hrows.
  rewrite <- !list_fmap_compose.
  assert (Hkey : Forall (λ key : list cell, length key = 2%nat) keys).
  { apply Forall_forall. intros key (row & -> & _)%Hin%list_elem_of_fmap.
    done. }
  erewrite (list_fmap_ext _ id); [by rewrite list_fmap_id|].
  intros i key Hi. eapply Forall_lookup_1 in Hkey; [|done].
  destruct key as [|a [|b [|]]]; try done. unfold compose, id.
  etrans; [|apply (key_of_pivot_row a b)].
  apply (key_of_set_columns (generation_label <$> (label_of <$> heads))
           (label_of <$> heads)).
Qed.

Lemma count_key_NoDup key df :
  NoDup (key_of interval_key <$> rows df) → (count_key key df ≤ 1)%nat.
Proof.
  unfold count_key. induction (rows df) as [|row rs IH]; [simpl; lia|].
  rewrite fmap_cons, NoDup_cons, filter_cons_bool.
  intros [Hnotin Hnd]. case_bool_decide as Hrow; [|by apply IH].
  rewrite filter_none; [simpl; lia|].
  apply Forall_forall. intros row' Hrow'. apply bool_decide_eq_false_2.
  intros Heq. apply Hnotin. rewrite Hrow, <- Heq.
  by apply list_elem_of_fmap_2.
Qed.

(** ** The merged table *)

Lemma elem_of_merge_rows left right on row' :
  row' ∈ rows (merge left right on) →
  ∃ left_row r,
    left_row ∈ rows left ∧
    row' = left_row ∪ reindex (list_difference (columns right) on) r.
Proof.
  unfold merge. cbn [rows].
  intros (left_row & Hrow' & Hleft)%list_elem_of_bind.
  destruct (List.filter _ (rows right)) as [|r matches].
  - apply list_elem_of_singleton in Hrow'. by exists left_row, ∅.
  - apply list_elem_of_fmap in Hrow' as (r' & -> & _). by exists left_row, r'.
Qed.

Lemma merge_unmatched left right left_row :
  left_row ∈ rows left →
  count_key (key_of interval_key left_row) right = 0%nat →
  left_row ∪ reindex (list_difference (columns right) interval_key) ∅
    ∈ rows (merge left right interval_key).
Proof.
  intros Hleft Hcount. unfold merge. cbn [rows].
  apply list_elem_of_bind. exists left_row. split; [|done].
  unfold count_key in Hcount. apply length_zero_iff_nil in Hcount.
  rewrite Hcount. left.
Qed.

Lemma well_keyed_merge left right :
  well_keyed left → well_keyed (merge left right interval_key).
Proof.
  intros Hleft. apply Forall_forall.
  intros row' (left_row & r & Hin & ->)%elem_of_merge_rows.
  rewrite key_of_merged. unfold well_keyed in Hleft.
  rewrite Forall_forall in Hleft. by apply Hleft.
Qed.

Lemma cleaned_utc c : is_utc c → cleaned c = c.
Proof. by intros [->|[ns ->]]. Qed.

Lemma cleaned_spec c :
  cleaned c = if decide (c = Str "n/e" ∨ c = Str "-") then NaN else c.
Proof.
  unfold cleaned, replace_cell.
  destruct (decide (c ∈ _)) as [Hin|Hnin], (decide (_ ∨ _)) as [Hor|Hnor];
    try done; exfalso.
  - apply Hnor. apply elem_of_cons in Hin as [->|Hin]; [by left|].
    apply list_elem_of_singleton in Hin as ->. by right.
  - apply Hnin. destruct Hor as [->| ->]; [left|right; left].
Qed.

Lemma key_of_cleaned (row : gmap string cell) :
  Forall is_utc (key_of interval_key row) →
  key_of interval_key (cleaned <$> row) = key_of interval_key row.
Proof.
  unfold key_of. rewrite Forall_fmap, Forall_forall. intros Hrow.
  apply list_fmap_ext. intros i label Hi.
  rewrite get_fmap by done. apply cleaned_utc, Hrow.
  by eapply list_elem_of_lookup_2.
Qed.

Lemma count_key_replace key df :
  well_keyed df →
  count_key key (replace [Str "n/e"; Str "-"] NaN df) = count_key key df.
Proof.
  unfold count_key, replace, well_keyed. cbn [rows].
  change (replace_cell [Str "n/e"; Str "-"] NaN) with cleaned.
  induction 1 as [|row rs Hrow _ IH]; [done|].
  rewrite fmap_cons, !filter_cons_bool, (key_of_cleaned _ Hrow).
  destruct (bool_decide _); cbn [length]; by rewrite IH.
Qed.

Lemma load_raw_data_from_dir_Ok fs merged_data :
  load_raw_data_from_dir fs = Ok merged_data →
  ∃ prices_df cons_df prod_df,
    load_raw_prices fs "../data/raw/" = Ok prices_df ∧
    load_raw_consumption fs "../data/raw/" = Ok cons_df ∧
    load_raw_production fs "../data/raw/" = Ok prod_df ∧
    merged_data =
      replace [Str "n/e"; Str "-"] NaN
        (merge (merge prices_df cons_df interval_key) prod_df interval_key).
Proof.
  unfold load_raw_data_from_dir.
  intros (prices_df & ? & (cons_df & ? &
    (prod_df & ? & [= <-])%bind_Ok)%bind_Ok)%bind_Ok.
  by exists prices_df, cons_df, prod_df.
Qed.

(** C5. The table returned is the twice-merged table with each cell
    passed through [cleaned], position by position: a cell holding "n/e"
    or "-" becomes [NaN], any other cell is kept, no row is dropped and no
    column is added or removed, so neither sentinel text is left in the
    result. *)
Theorem load_raw_data_from_dir_sentinels fs merged_data :
  load_raw_data_from_dir fs = Ok merged_data →
  ∃ prices_df cons_df prod_df,
    load_raw_prices fs "../data/raw/" = Ok prices_df ∧
    load_raw_consumption fs "../data/raw/" = Ok cons_df ∧
    load_raw_production fs "../data/raw/" = Ok prod_df ∧
    let merged :=
      merge (merge prices_df cons_df interval_key) prod_df interval_key in
    columns merged_data = columns merged ∧
    length (rows merged_data) = length (rows merged) ∧
    (∀ i row label, rows merged !! i = Some row →
       ∃ row', rows merged_data !! i = Some row' ∧
               row' !! label = cleaned <$> row !! label) ∧
    (∀ c, cleaned c
          = if decide (c = Str "n/e" ∨ c = Str "-") then NaN else c) ∧
    (∀ row' label, row' ∈ rows merged_data →
       row' !! label ≠ Some (Str "n/e") ∧ row' !! label ≠ Some (Str "-")).
Proof.
  intros (prices_df & cons_df & prod_df & Hp & Hc & Hg & ->)
    %load_raw_data_from_dir_Ok.
  exists prices_df, cons_df, prod_df. do 3 (split; [done|]).
  cbv zeta. split_and!.
  - done.
  - unfold replace. cbn [rows]. by rewrite length_fmap.
  - intros i row label Hi. exists (cleaned <$> row). split.
    + unfold replace. cbn [rows]. by rewrite list_lookup_fmap, Hi.
    + by rewrite lookup_fmap.
  - apply cleaned_spec.
  - intros row' label Hrow'. unfold replace in Hrow'. cbn [rows] in Hrow'.
    apply list_elem_of_fmap in Hrow' as (row & -> & _).
    rewrite lookup_fmap. fold cleaned.
    destruct (row !! label) as [c|]; [|done]. simpl. rewrite cleaned_spec.
    case_decide as Hc'; [done|]. split; intros [= ->]; apply Hc'; auto.
Qed.

Lemma get_empty label : get label ∅ = NaN.
Proof. unfold get. by rewrite lookup_empty. Qed.

(** C4, as the code has it.  In the table returned, an interval key comes
    out as often as it occurs in the price table, times the number of load
    rows with that key when there are several; the generation table has
    every key at most once.  So each key of the price table is present,
    and it is present exactly once when the price table has it once and
    the load table at most once.  A price row whose key is in neither the
    load nor the generation table gives a row with the same key, the
    cleaned price cell, and [NaN] under every label that is not a column
    of the price table. *)
Theorem load_raw_data_from_dir_left_join fs merged_data :
  load_raw_data_from_dir fs = Ok merged_data →
  ∃ prices_df cons_df prod_df,
    load_raw_prices fs "../data/raw/" = Ok prices_df ∧
    load_raw_consumption fs "../data/raw/" = Ok cons_df ∧
    load_raw_production fs "../data/raw/" = Ok prod_df ∧
    (∀ key, (count_key key prod_df ≤ 1)%nat) ∧
    (∀ key,
       count_key key merged_data
       = (count_key key prices_df * Nat.max 1 (count_key key cons_df))%nat) ∧
    (∀ key, count_key key prices_df = 1%nat →
            (count_key key cons_df ≤ 1)%nat →
            count_key key merged_data = 1%nat) ∧
    (∀ row, row ∈ rows prices_df →
       count_key (key_of interval_key row) cons_df = 0%nat →
       count_key (key_of interval_key row) prod_df = 0%nat →
       ∃ row', row' ∈ rows merged_data ∧
         key_of interval_key row' = key_of interval_key row ∧
         row' !! "da_price_eur_mwh" = cleaned <$> row !! "da_price_eur_mwh" ∧
         ∀ label, label ∈ columns merged_data →
                  label ∉ columns prices_df → row' !! label = Some NaN).
Proof.
  intros (prices_df & cons_df & prod_df & Hp & Hc & Hg & ->)
    %load_raw_data_from_dir_Ok.
  exists prices_df, cons_df, prod_df. do 3 (split; [done|]).
  pose proof (load_raw_prices_Ok _ _ _ Hp) as (Hcols & Hkeyed & Hdom).
  assert (Hprod : ∀ key, (count_key key prod_df ≤ 1)%nat).
  { intros key. eapply count_key_NoDup, load_raw_production_keys, Hg. }
  assert (Hcount : ∀ key,
    count_key key
      (replace [Str "n/e"; Str "-"] NaN
         (merge (merge prices_df cons_df interval_key) prod_df interval_key))
    = (count_key key prices_df * Nat.max 1 (count_key key cons_df))%nat).
  { intros key. rewrite count_key_replace
      by (by do 2 apply well_keyed_merge).
    rewrite !count_key_merge. specialize (Hprod key). lia. }
  split_and!; [done|done| |].
  - intros key H1 Hle. rewrite Hcount, H1. lia.
  - intros row Hrow Hcons Hgen.
    set (extra1 := list_difference (columns cons_df) interval_key).
    set (extra2 := list_difference (columns prod_df) interval_key).
    set (row1 := row ∪ reindex extra1 ∅).
    set (row2 := row1 ∪ reindex extra2 ∅).
    assert (H1 : row1 ∈ rows (merge prices_df cons_df interval_key))
      by by apply merge_unmatched.
    assert (Hk1 : key_of interval_key row1 = key_of interval_key row)
      by apply key_of_merged.
    assert (H2 : row2 ∈ rows (merge (merge prices_df cons_df interval_key)
                                prod_df interval_key)).
    { apply merge_unmatched; [done|]. by rewrite Hk1. }
    assert (Hk2 : key_of interval_key row2 = key_of interval_key row).
    { rewrite <- Hk1. apply key_of_merged. }
    unfold well_keyed in Hkeyed. rewrite Forall_forall in Hkeyed, Hdom.
    exists (cleaned <$> row2). split_and!.
    + unfold replace. cbn [rows]. by apply list_elem_of_fmap_2.
    + rewrite key_of_cleaned; [done|]. rewrite Hk2. by apply Hkeyed.
    + rewrite lookup_fmap. f_equal.
      destruct (proj2 (Hdom row Hrow "da_price_eur_mwh")) as [c Hc'].
      { rewrite Hcols. do 2 right. left. }
      rewrite Hc'. unfold row2, row1.
      apply lookup_union_Some_l. by apply lookup_union_Some_l.
    + intros label Hlabel Hnotin. rewrite lookup_fmap.
      assert (Hnone : row !! label = None).
      { apply eq_None_not_Some. by intros ?%Hdom. }
      unfold replace, merge in Hlabel. cbn [columns] in Hlabel.
      fold extra1 extra2 in Hlabel.
      assert (Hrow1 : row1 !! label
                = if decide (label ∈ extra1) then Some NaN else None).
      { unfold row1. rewrite lookup_union_r by done.
        by rewrite lookup_reindex, get_empty. }
      unfold row2. rewrite lookup_union, Hrow1, lookup_reindex, get_empty.
      apply elem_of_app in Hlabel as [[?|?]%elem_of_app|?]; [done| |].
      * rewrite (decide_True (P := label ∈ extra1)) by done.
        by destruct (decide (label ∈ extra2)).
      * rewrite (decide_True (P := label ∈ extra2)) by done.
        by destruct (decide (label ∈ extra1)).
Qed.

(** ** The generation table *)

Lemma production_long_types fs raw_data_dir long :
  production_long fs raw_data_dir = Ok long →
  Forall (λ row, get "production_type" row ∈ Str <$> renewable_types)
         (rows long).
Proof.
  unfold production_long.
  intros (raw & _ & (assigned & _ & (series & _
    & (selected & Hselect & [= <-])%bind_Ok)%bind_Ok)%bind_Ok)%bind_Ok.
  apply select_Ok in Hselect as [_ Hrows]. unfold sort_values. cbn [rows].
  rewrite merge_sort_Permutation, Hrows. apply Forall_fmap, Forall_forall.
  intros row Hrow. unfold compose. rewrite get_reindex by (do 2 right; left).
  unfold where_ in Hrow. cbn [rows] in Hrow.
  apply list_elem_of_In, filter_In in Hrow as [_ Hrow].
  by apply bool_decide_eq_true in Hrow.
Qed.

Lemma filter_unique {A B} `{EqDecision B} (f : A → B) l x :
  NoDup (f <$> l) → x ∈ l →
  List.filter (λ y, bool_decide (f y = f x)) l = [x].
Proof.
  induction l as [|y l IH]; [by intros _ ?%elem_of_nil|].
  rewrite fmap_cons, NoDup_cons, filter_cons_bool.
  intros [Hnotin Hnd] [->|Hin]%elem_of_cons.
  - rewrite bool_decide_eq_true_2 by done. f_equal. apply filter_none.
    apply Forall_forall. intros z Hz. apply bool_decide_eq_false_2.
    intros Heq. apply Hnotin. rewrite <- Heq. by apply list_elem_of_fmap_2.
  - rewrite bool_decide_eq_false_2; [by apply IH|].
    intros Heq. apply Hnotin. rewrite Heq. by apply list_elem_of_fmap_2.
Qed.

Lemma lookup_list_to_map_fmap {A} (f : A → string) (g : A → cell) l x :
  NoDup (f <$> l) → x ∈ l →
  (list_to_map ((λ y, (f y, g y)) <$> l) : gmap string cell) !! f x
  = Some (g x).
Proof.
  intros Hnd Hin. apply elem_of_list_to_map_1.
  - by rewrite <- list_fmap_compose.
  - by apply (list_elem_of_fmap_2 (λ y, (f y, g y))).
Qed.

Lemma zip_fmap_fmap {A B C D} (f : A → B) (g : A → C) (h : D → A) l :
  zip (f <$> (h <$> l)) (g <$> (h <$> l))
  = (λ x, (f (h x), g (h x))) <$> l.
Proof. induction l as [|x l IH]; [done|]. csimpl. by rewrite IH. Qed.

Lemma generation_label_renewable (a b : cell) :
  a ∈ (Str <$> renewable_types) → b ∈ (Str <$> renewable_types) →
  generation_label (label_of a) = generation_label (label_of b) → a = b.
Proof.
  intros Ha Hb.
  repeat (apply elem_of_cons in Ha as [->|Ha]);
    [| | |by apply elem_of_nil in Ha];
    (repeat (apply elem_of_cons in Hb as [->|Hb]);
       [| | |by apply elem_of_nil in Hb]); by vm_compute.
Qed.

Lemma label_of_renewable (a b : cell) :
  a ∈ (Str <$> renewable_types) → b ∈ (Str <$> renewable_types) →
  label_of a = label_of b → a = b.
Proof. intros Ha Hb H. apply generation_label_renewable; congruence. Qed.

Lemma renewable_not_key (a : cell) :
  a ∈ (Str <$> renewable_types) →
  (label_of a ∉ interval_key) ∧
  (generation_label (label_of a) ∉ interval_key).
Proof.
  intros Ha.
  repeat (apply elem_of_cons in Ha as [->|Ha]);
    [| | |by apply elem_of_nil in Ha];
    split; intros Hin;
    repeat (apply elem_of_cons in Hin as [Hin|Hin]; [by vm_compute in Hin|]);
    by apply elem_of_nil in Hin.
Qed.

(** C9. Two rows of the long table with the same interval and production
    type make [load_raw_production] raise; and when it returns, the long
    table has every (interval, production type) pair at most once, and
    the value of each of its rows is the cell of the wide row with that
    interval under the label of that production type. *)
Theorem load_raw_production_duplicates fs raw_data_dir long :
  production_long fs raw_data_dir = Ok long →
  ((∃ i j r1 r2, i ≠ j ∧ rows long !! i = Some r1 ∧ rows long !! j = Some r2
                 ∧ entry r1 = entry r2) →
   load_raw_production fs raw_data_dir = Raise (ValueError DuplicateEntries))
  ∧
  (∀ wide, load_raw_production fs raw_data_dir = Ok wide →
     NoDup (entry <$> rows long) ∧
     ∀ row, row ∈ rows long →
       ∃ wide_row, wide_row ∈ rows wide ∧
         key_of interval_key wide_row = key_of interval_key row ∧
         get (generation_label (label_of (get "production_type" row)))
             wide_row
         = get "actual_generation_mw" row).
Proof.
  intros Hlong. unfold load_raw_production. rewrite Hlong. cbn [bind].
  split.
  - intros (i & j & r1 & r2 & Hij & Hi & Hj & Heq).
    rewrite pivot_Raise; [done|]. intros Hnd.
    apply Hij. eapply NoDup_lookup; [exact Hnd| |].
    + rewrite list_lookup_fmap, Hi. reflexivity.
    + rewrite list_lookup_fmap, Hj. simpl. f_equal. symmetry. exact Heq.
  - intros wide (pivoted & Hpivot & [= <-])%bind_Ok.
    apply pivot_Ok in Hpivot
      as (Hnd & keys & heads & Hkeys & Hkin & Hheads & Hhin & Hcols & Hrows).
    split; [exact Hnd|]. intros row Hrow.
    pose proof (production_long_types _ _ _ Hlong) as Htypes.
    rewrite Forall_forall in Htypes.
    assert (Hrenewable : ∀ head, head ∈ heads →
              head ∈ (Str <$> renewable_types)).
    { intros head (row' & -> & Hrow')%Hhin%list_elem_of_fmap.
      by apply Htypes. }
    set (head := get "production_type" row).
    assert (Hhead : head ∈ heads).
    { apply Hhin. by apply list_elem_of_fmap_2. }
    destruct (key_of interval_key row) as [|a [|b [|]]] eqn:Hkey;
      try done.
    assert (Hk : [a; b] ∈ keys).
    { apply Hkin. rewrite <- Hkey. by apply list_elem_of_fmap_2. }
    set (value_at := λ h : cell,
           match List.filter
                   (λ r, bool_decide (key_of interval_key r = [a; b]
                                      ∧ get "production_type" r = h))
                   (rows long) with
           | r :: _ => get "actual_generation_mw" r
           | [] => NaN
           end).
    set (pivot_row := list_to_map (zip interval_key [a; b])
                      ∪ list_to_map ((λ h, (label_of h, value_at h))
                                       <$> heads) : gmap string cell).
    assert (Hvalue : value_at head = get "actual_generation_mw" row).
    { unfold value_at.
      erewrite (filter_ext _ (λ r, bool_decide (entry r = entry row))).
      - by rewrite (filter_unique entry).
      - intros r. apply bool_decide_ext. unfold entry. rewrite Hkey.
        fold head. symmetry. apply pair_equal_spec. }
    assert (Hpivot_get : ∀ h, h ∈ heads →
              get (label_of h) pivot_row = value_at h).
    { intros h Hh. unfold get, pivot_row.
      rewrite lookup_union_r.
      - rewrite (lookup_list_to_map_fmap label_of value_at); [done| |done].
        apply NoDup_fmap_2_strong; [|done].
        intros x y Hx Hy. apply label_of_renewable; auto.
      - apply not_elem_of_list_to_map_1. rewrite fst_zip by done.
        by apply renewable_not_key, Hrenewable. }
    exists (list_to_map
              (zip (interval_key
                    ++ (generation_label <$> (label_of <$> heads)))
                   (key_of (interval_key ++ (label_of <$> heads))
                           pivot_row))).
    split_and!.
    + unfold set_columns. cbn [rows]. rewrite Hrows, Hcols.
      apply list_elem_of_fmap. exists pivot_row. split; [done|].
      apply list_elem_of_fmap. by exists [a; b].
    + rewrite key_of_set_columns. apply key_of_pivot_row.
    + unfold key_of at 1. rewrite fmap_app, zip_with_app by done.
      rewrite list_to_map_app. unfold get at 1.
      rewrite lookup_union_r.
      2: { apply not_elem_of_list_to_map_1. rewrite fst_zip by done.
           by apply renewable_not_key, Hrenewable. }
      rewrite (zip_fmap_fmap generation_label
                 (λ label, get label pivot_row) label_of).
      rewrite (lookup_list_to_map_fmap
                 (λ h, generation_label (label_of h))
                 (λ h, get (label_of h) pivot_row) heads head); [| |done].
      * simpl. by rewrite Hpivot_get.
      * apply NoDup_fmap_2_strong; [|done].
        intros x y Hx Hy. apply generation_label_renewable; auto.
Qed.

(** ** The calendar *)

(** The civil date of the day number of a date is that date. *)
Lemma is_leap_spec y :
  is_leap y = true ↔ (y mod 4 = 0 ∧ y mod 100 ≠ 0) ∨ y mod 400 = 0.
Proof.
  unfold is_leap.
  destruct (Z.eqb_spec (y mod 4) 0), (Z.eqb_spec (y mod 100) 0),
    (Z.eqb_spec (y mod 400) 0); simpl; split; try done; try tauto;
    intros; exfalso; Z.div_mod_to_equations; lia.
Qed.

Lemma days_in_month_cases y m :
  1 ≤ m ≤ 12 →
  (m = 2 ∧ is_leap y = true ∧ days_in_month y m = 29) ∨
  (m = 2 ∧ is_leap y = false ∧ days_in_month y m = 28) ∨
  ((m = 4 ∨ m = 6 ∨ m = 9 ∨ m = 11) ∧ days_in_month y m = 30) ∨
  ((m = 1 ∨ m = 3 ∨ m = 5 ∨ m = 7 ∨ m = 8 ∨ m = 10 ∨ m = 12)
   ∧ days_in_month y m = 31).
Proof.
  intros Hm. unfold days_in_month.
  destruct (Z.eqb_spec m 2); [destruct (is_leap y); lia|].
  destruct (Z.eqb_spec m 4), (Z.eqb_spec m 6), (Z.eqb_spec m 9),
    (Z.eqb_spec m 11); simpl; lia.
Qed.

Lemma year_of_era_recovered r doy :
  0 ≤ r < 400 → 0 ≤ doy ≤ 365 →
  (doy = 365 → ((r + 1) mod 4 = 0 ∧ (r + 1) mod 100 ≠ 0) ∨ r = 399) →
  let doe := r * 365 + r / 4 - r / 100 + doy in
  0 ≤ doe < 146097 ∧
  (doe - doe / 1460 + doe / 36524 - doe / 146096) / 365 = r.
Proof.
  intros Hr Hdoy Hleap doe. subst doe.
  split; Z.div_mod_to_equations; lia.
Qed.

Lemma month_recovered mp d :
  0 ≤ mp ≤ 11 → 1 ≤ d ≤ 31 →
  (mp = 1 ∨ mp = 3 ∨ mp = 6 ∨ mp = 8 → d ≤ 30) → (mp = 11 → d ≤ 29) →
  let doy := (153 * mp + 2) / 5 + d - 1 in
  0 ≤ doy ≤ 365 ∧ (doy = 365 → mp = 11 ∧ d = 29) ∧
  (5 * doy + 2) / 153 = mp ∧ doy - (153 * mp + 2) / 5 + 1 = d.
Proof.
  intros Hmp Hd H30 H29 doy. subst doy.
  split_and!; Z.div_mod_to_equations; lia.
Qed.

Lemma civil_from_days_from_civil y m d :
  1 ≤ m ≤ 12 → 1 ≤ d ≤ days_in_month y m →
  civil_from_days (days_from_civil y m d) = (y, m, d).
Proof.
  intros Hm Hd. unfold days_from_civil, civil_from_days.
  set (y' := if m <=? 2 then y - 1 else y).
  set (mp := if 2 <? m then m - 3 else m + 9).
  assert (Hy' : (m ≤ 2 ∧ y' = y - 1 ∧ mp = m + 9)
                ∨ (2 < m ∧ y' = y ∧ mp = m - 3)).
  { subst y' mp. destruct (Z.leb_spec m 2), (Z.ltb_spec 2 m); lia. }
  clearbody y' mp.
  set (q := y' / 400). set (r := y' - q * 400).
  assert (Hr : 0 ≤ r < 400 ∧ y' = q * 400 + r).
  { subst r q. Z.div_mod_to_equations. lia. }
  clearbody r q. destruct Hr as [Hr ->].
  pose proof (days_in_month_cases y m Hm) as Hdim.
  assert (Hleap : m = 2 → d = 29 →
            ((r + 1) mod 4 = 0 ∧ (r + 1) mod 100 ≠ 0) ∨ r = 399).
  { intros -> ->. destruct Hdim as [(_ & Hl & _)|[|[|]]]; try lia.
    apply is_leap_spec in Hl. Z.div_mod_to_equations. lia. }
  destruct (month_recovered mp d) as (Hdoy & Hdoy365 & Hmp & Hday);
    [lia|lia|lia|lia|].
  set (doy := (153 * mp + 2) / 5 + d - 1) in *. clearbody doy.
  destruct (year_of_era_recovered r doy) as [Hdoe Hyoe]; [done|done| |].
  { intros H365. apply Hleap; lia. }
  set (doe := r * 365 + r / 4 - r / 100 + doy) in *.
  replace (q * 146097 + doe - 719468 + 719468) with (doe + q * 146097) by lia.
  rewrite Z.div_add by lia. rewrite (Z.div_small doe) by lia.
  replace (doe + q * 146097 - (0 + q) * 146097) with doe by lia.
  rewrite Hyoe.
  replace (doe - (365 * r + r / 4 - r / 100)) with doy by (subst doe; lia).
  rewrite Hmp, Hday.
  destruct Hy' as [(? & ? & ->)|(? & ? & ->)].
  - replace (m + 9 <? 10) with false by (symmetry; apply Z.ltb_ge; lia).
    replace (m + 9 - 9 <=? 2) with true by (symmetry; apply Z.leb_le; lia).
    apply pair_equal_spec; split; [apply pair_equal_spec; split|]; lia.
  - replace (m - 3 <? 10) with true by (symmetry; apply Z.ltb_lt; lia).
    replace (m - 3 + 3 <=? 2) with false by (symmetry; apply Z.leb_gt; lia).
    apply pair_equal_spec; split; [apply pair_equal_spec; split|]; lia.
Qed.

Lemma days_in_month_bounds y m : 28 ≤ days_in_month y m ≤ 31.
Proof.
  unfold days_in_month.
  repeat (destruct (_ =? _) || destruct (is_leap _) || simpl); lia.
Qed.

(** The days of a representable instant fall in the years 1677 to 2262. *)
Lemma days_from_civil_year y m d :
  1 ≤ m ≤ 12 → 1 ≤ d ≤ 31 →
  -106752 ≤ days_from_civil y m d ≤ 106751 → 1677 ≤ y ≤ 2262.
Proof.
  intros Hm Hd. unfold days_from_civil.
  set (y' := if m <=? 2 then y - 1 else y).
  set (mp := if 2 <? m then m - 3 else m + 9).
  assert (Hy' : (m ≤ 2 ∧ y' = y - 1 ∧ mp = m + 9)
                ∨ (2 < m ∧ y' = y ∧ mp = m - 3)).
  { subst y' mp. destruct (Z.leb_spec m 2), (Z.ltb_spec 2 m); lia. }
  clearbody y' mp.
  pose proof (Z.div_mod y' 400 ltac:(lia)).
  pose proof (Z.mod_pos_bound y' 400 ltac:(lia)).
  generalize dependent (y' / 400). intros q Hq.
  replace (y' - q * 400) with (y' mod 400) by lia.
  generalize dependent (y' mod 400). intros r Hr Hr'.
  pose proof (Z.div_mod r 4 ltac:(lia)).
  pose proof (Z.mod_pos_bound r 4 ltac:(lia)).
  pose proof (Z.div_mod r 100 ltac:(lia)).
  pose proof (Z.mod_pos_bound r 100 ltac:(lia)).
  pose proof (Z.div_mod (153 * mp + 2) 5 ltac:(lia)).
  pose proof (Z.mod_pos_bound (153 * mp + 2) 5 ltac:(lia)).
  generalize dependent (r / 4). generalize dependent (r / 100).
  generalize dependent ((153 * mp + 2) / 5).
  generalize dependent (r mod 4). generalize dependent (r mod 100).
  generalize dependent ((153 * mp + 2) mod 5).
  intros. lia.
Qed.

(** The seconds of the day of valid fields, and their day number. *)
Lemma epoch_ns_split f :
  0 ≤ f_hour f < 24 → 0 ≤ f_minute f < 60 → 0 ≤ f_second f < 60 →
  let secs := f_hour f * 3600 + f_minute f * 60 + f_second f in
  0 ≤ secs < 86400 ∧
  epoch_ns f / 86400000000000
  = days_from_civil (f_year f) (f_month f) (f_day f) ∧
  epoch_ns f mod 86400000000000 / 1000000000 = secs.
Proof.
  intros HH HM HS secs. assert (Hsecs : 0 ≤ secs < 86400) by (subst secs; lia).
  set (days := days_from_civil (f_year f) (f_month f) (f_day f)).
  assert (Heq : epoch_ns f
                = days * 86400000000000 + secs * 1000000000).
  { unfold epoch_ns. fold days. subst secs. lia. }
  split; [done|]. rewrite Heq. split.
  - symmetry. apply (Z.div_unique _ _ _ (secs * 1000000000)); lia.
  - rewrite Z.add_comm, Z.mod_add by lia.
    rewrite Z.mod_small by lia. apply Z.div_mul. lia.
Qed.

Lemma valid_fields_year f : valid_fields f → 1677 ≤ f_year f ≤ 2262.
Proof.
  intros (Hm & Hd & HH & HM & HS & Hlo & Hhi).
  destruct (epoch_ns_split f HH HM HS) as (Hsecs & Hdays & _).
  pose proof (days_in_month_bounds (f_year f) (f_month f)).
  apply (days_from_civil_year _ (f_month f) (f_day f)); [done|lia|].
  rewrite <- Hdays. unfold timestamp_min in Hlo.
  change timestamp_max with 9223372036854775807 in Hlo, Hhi.
  split.
  - apply Z.div_le_lower_bound; lia.
  - apply Z.lt_succ_r. apply Z.div_lt_upper_bound; lia.
Qed.

(** Formatting reads back the fields an instant was made from. *)
Lemma fields_of_epoch_ns f : valid_fields f → fields_of_ns (epoch_ns f) = f.
Proof.
  intros Hf. pose proof (valid_fields_year f Hf) as Hy.
  destruct Hf as (Hm & Hd & HH & HM & HS & _).
  destruct (epoch_ns_split f HH HM HS) as (Hsecs & Hdays & Hrem).
  unfold fields_of_ns. rewrite Hdays, Hrem.
  rewrite civil_from_days_from_civil by done.
  destruct f as [y m d H M S]; simpl in *. f_equal.
  - symmetry. apply (Z.div_unique _ _ _ (M * 60 + S)); lia.
  - replace (H * 3600 + M * 60 + S) with (M * 60 + S + H * 3600) by lia.
    rewrite Z.mod_add by lia. rewrite Z.mod_small by lia.
    symmetry. apply (Z.div_unique _ _ _ S); lia.
  - replace (H * 3600 + M * 60 + S) with (S + (H * 60 + M) * 60) by lia.
    rewrite Z.mod_add by lia. apply Z.mod_small. lia.
Qed.

(** ** Parsing what the formatter writes *)

Lemma Forall_seqZ (P : Z → Prop) lo len n :
  Forall P (seqZ lo len) → lo ≤ n < lo + len → P n.
Proof.
  rewrite Forall_forall. intros H Hn. apply H, elem_of_seqZ. lia.
Qed.

(** Settle [Forall P (seqZ lo len)] by running [tac] on each member. *)
Ltac each_of_range tac :=
  match goal with
  | |- Forall _ ?l => let l' := eval vm_compute in l in change l with l'
  end;
  repeat (apply Forall_cons_2; [tac|]); apply Forall_nil_2.

Ltac run_alternatives :=
  let rest := fresh "rest" in let k := fresh "k" in
  let r := fresh "r" in let Hk := fresh "Hk" in
  intros ? rest k r Hk; vm_compute; rewrite Hk; reflexivity.

Lemma first_alternative_day n : 1 ≤ n ≤ 31 →
  ∀ A rest (k : Z → string → option A) r, k n rest = Some r →
    first_alternative (alternatives Dd) (pad2 n rest) k = Some r.
Proof.
  intros Hn. pattern n. apply (Forall_seqZ _ 1 31); [|lia].
  each_of_range run_alternatives.
Qed.

Lemma first_alternative_month n : 1 ≤ n ≤ 12 →
  ∀ A rest (k : Z → string → option A) r, k n rest = Some r →
    first_alternative (alternatives Dm) (pad2 n rest) k = Some r.
Proof.
  intros Hn. pattern n. apply (Forall_seqZ _ 1 12); [|lia].
  each_of_range run_alternatives.
Qed.

Lemma first_alternative_year n : 1677 ≤ n ≤ 2262 →
  ∀ A rest (k : Z → string → option A) r, k n rest = Some r →
    first_alternative (alternatives DY) (pad4 n rest) k = Some r.
Proof.
  intros Hn. pattern n. apply (Forall_seqZ _ 1677 586); [|lia].
  each_of_range run_alternatives.
Qed.

Lemma first_alternative_hour n : 0 ≤ n < 24 →
  ∀ A rest (k : Z → string → option A) r, k n rest = Some r →
    first_alternative (alternatives DH) (pad2 n rest) k = Some r.
Proof.
  intros Hn. pattern n. apply (Forall_seqZ _ 0 24); [|lia].
  each_of_range run_alternatives.
Qed.

Lemma first_alternative_minute n : 0 ≤ n < 60 →
  ∀ A rest (k : Z → string → option A) r, k n rest = Some r →
    first_alternative (alternatives DM) (pad2 n rest) k = Some r.
Proof.
  intros Hn. pattern n. apply (Forall_seqZ _ 0 60); [|lia].
  each_of_range run_alternatives.
Qed.

Lemma first_alternative_second n : 0 ≤ n < 60 →
  ∀ A rest (k : Z → string → option A) r, k n rest = Some r →
    first_alternative (alternatives DS) (pad2 n rest) k = Some r.
Proof.
  intros Hn. pattern n. apply (Forall_seqZ _ 0 60); [|lia].
  each_of_range run_alternatives.
Qed.

(** The blank between date and time is matched alone: the hour that
    follows does not begin with white space. *)
Lemma match_space_hour n : 0 ≤ n < 24 →
  ∀ A rest (k : string → option A),
    match_space (String " " (pad2 n rest)) k = k (pad2 n rest).
Proof.
  intros Hn. pattern n. apply (Forall_seqZ _ 0 24); [|lia].
  each_of_range ltac:(intros ? rest k; vm_compute; reflexivity).
Qed.

Lemma string_app_cons c (a b : string) :
  String c a +:+ b = String c (a +:+ b).
Proof. reflexivity. Qed.

Lemma string_app_nil_l (b : string) : "" +:+ b = b.
Proof. reflexivity. Qed.

Lemma valid_fields_ranges f d :
  valid_fields f →
  match d with
  | Dd => 1 ≤ field d f ≤ 31
  | Dm => 1 ≤ field d f ≤ 12
  | DY => 1677 ≤ field d f ≤ 2262
  | DH => 0 ≤ field d f < 24
  | DM | DS => 0 ≤ field d f < 60
  end.
Proof.
  intros Hf. pose proof (valid_fields_year f Hf).
  destruct Hf as (Hm & Hd & HH & HM & HS & _).
  pose proof (days_in_month_bounds (f_year f) (f_month f)).
  destruct d; simpl; lia.
Qed.

(** One step of [match_items] on a rendered text. *)
Ltac match_step Hf :=
  cbn [render render_directive match_items];
  rewrite ?string_app_cons, ?string_app_nil_l;
  lazymatch goal with
  | |- first_alternative (alternatives Dd) _ _ = _ =>
      apply first_alternative_day; [exact (valid_fields_ranges _ Dd Hf)|]
  | |- first_alternative (alternatives Dm) _ _ = _ =>
      apply first_alternative_month; [exact (valid_fields_ranges _ Dm Hf)|]
  | |- first_alternative (alternatives DY) _ _ = _ =>
      apply first_alternative_year; [exact (valid_fields_ranges _ DY Hf)|]
  | |- first_alternative (alternatives DH) _ _ = _ =>
      apply first_alternative_hour; [exact (valid_fields_ranges _ DH Hf)|]
  | |- first_alternative (alternatives DM) _ _ = _ =>
      apply first_alternative_minute; [exact (valid_fields_ranges _ DM Hf)|]
  | |- first_alternative (alternatives DS) _ _ = _ =>
      apply first_alternative_second; [exact (valid_fields_ranges _ DS Hf)|]
  | |- match_space _ _ = _ =>
      rewrite match_space_hour by exact (valid_fields_ranges _ DH Hf)
  | |- (if Ascii.eqb _ _ then _ else _) = _ => rewrite Ascii.eqb_refl
  end.

Lemma compile_source_format format :
  format ∈ source_formats →
  compile_format format = Some items_with_seconds
  ∨ compile_format format = Some items_without_seconds.
Proof.
  intros [->|[->|[]%elem_of_nil]%elem_of_cons]%elem_of_cons;
    [left|right]; reflexivity.
Qed.

Lemma match_items_render items f :
  items = items_with_seconds ∨ items = items_without_seconds →
  valid_fields f →
  match_items items (render items f) default_fields
  = Some (shown items f default_fields, "").
Proof.
  intros [-> | ->] Hf; unfold items_with_seconds, items_without_seconds;
    cbn [shown]; repeat match_step Hf; reflexivity.
Qed.

(** A rendered text parses to the instant of its fields. *)
Lemma strptime_render format items f :
  format ∈ source_formats → compile_format format = Some items →
  valid_fields f → shown items f default_fields = f →
  strptime format (render items f) = Ok (epoch_ns f).
Proof.
  intros Hformat Hitems Hf Hshown. unfold strptime. rewrite Hitems.
  rewrite match_items_render, Hshown; [|by destruct
    (compile_source_format _ Hformat); [left|right]; congruence|done].
  pose proof (valid_fields_year f Hf).
  destruct Hf as (Hm & Hd & HH & HM & HS & Hlo & Hhi).
  rewrite bool_decide_eq_true_2 by done. cbn [negb].
  replace (f_year f <? 1) with false by (symmetry; apply Z.ltb_ge; lia).
  replace (days_in_month (f_year f) (f_month f) <? f_day f) with false
    by (symmetry; apply Z.ltb_ge; lia).
  cbn [orb].
  replace (timestamp_min <=? epoch_ns f) with true
    by (symmetry; by apply Z.leb_le).
  replace (epoch_ns f <=? timestamp_max) with true
    by (symmetry; by apply Z.leb_le).
  done.
Qed.

(** ** Splitting a rendered interval *)

Lemma prefix_app s1 s2 : String.prefix s1 s2 = true → ∃ b, s2 = s1 +:+ b.
Proof.
  revert s2. induction s1 as [|c s1 IH]; intros s2 H.
  - by exists s2.
  - destruct s2 as [|c' s2]; [done|]. simpl in H.
    destruct (ascii_dec c c') as [->|]; [|done].
    destruct (IH _ H) as [b ->]. by exists b.
Qed.

Lemma string_app_nil_r (a : string) : a +:+ "" = a.
Proof. induction a as [|x a IH]; [done|]. by rewrite string_app_cons, IH. Qed.

Lemma string_app_assoc (a b c : string) : (a +:+ b) +:+ c = a +:+ (b +:+ c).
Proof.
  induction a as [|x a IH]; [done|]. by rewrite !string_app_cons, IH.
Qed.

Lemma split_go_no_separator cur s :
  ¬ contains_separator s → split_go " - " 0 cur s = [cur +:+ s].
Proof.
  revert cur. induction s as [|c s IH]; intros cur Hno.
  - cbn [split_go]. by rewrite string_app_nil_r.
  - cbn [split_go].
    destruct (String.prefix " - " (String c s)) eqn:Hpre.
    { destruct (prefix_app _ _ Hpre) as [b Hb]. exfalso. apply Hno.
      exists "", b. exact Hb. }
    rewrite IH.
    + by rewrite string_app_assoc.
    + intros (a & b & ->). apply Hno. by exists (String c a), b.
Qed.

Lemma split_no_separator s : ¬ contains_separator s → split " - " s = [s].
Proof. apply split_go_no_separator. Qed.


Lemma has_char_app c a b :
  has_char c (a +:+ b) = has_char c a || has_char c b.
Proof.
  induction a as [|x a IH]; [done|].
  rewrite string_app_cons. cbn [has_char]. rewrite IH. apply orb_assoc.
Qed.

Lemma no_dash_no_separator s :
  has_char "-" s = false → ¬ contains_separator s.
Proof.
  intros Hs (a & b & ->). rewrite !has_char_app in Hs.
  by rewrite orb_true_r in Hs.
Qed.

Lemma prefix_nil s : String.prefix "" s = true.
Proof. by destruct s. Qed.

Lemma split_go_joined cur a b :
  has_char "-" a = false → has_char "-" b = false →
  split_go " - " 0 cur (a +:+ " - " +:+ b) = [cur +:+ a; b].
Proof.
  intros Ha Hb. revert cur. induction a as [|c a IH]; intros cur.
  - rewrite string_app_nil_l, string_app_nil_r.
    rewrite !string_app_cons, string_app_nil_l.
    cbn [split_go String.prefix String.length Nat.sub].
    destruct (ascii_dec " " " ") as [_|]; [|done].
    destruct (ascii_dec "-" "-") as [_|]; [|done].
    rewrite prefix_nil.
    by rewrite split_go_no_separator by by apply no_dash_no_separator.
  - cbn [has_char] in Ha. apply orb_false_iff in Ha as [Hc Ha].
    rewrite string_app_cons. cbn [split_go].
    assert (Hpre : String.prefix " - " (String c (a +:+ " - " +:+ b))
                   = false).
    { cbn [String.prefix]. destruct (ascii_dec " " c) as [<-|]; [|done].
      destruct a as [|c' a].
      - rewrite string_app_nil_l, !string_app_cons. cbn [String.prefix].
        by destruct (ascii_dec "-" " ").
      - rewrite string_app_cons. cbn [has_char] in Ha.
        apply orb_false_iff in Ha as [Hc' _]. cbn [String.prefix].
        destruct (ascii_dec "-" c') as [<-|]; [|done].
        by rewrite Ascii.eqb_refl in Hc'. }
    rewrite Hpre, IH by done.
    by rewrite string_app_assoc.
Qed.

Lemma split_joined a b :
  has_char "-" a = false → has_char "-" b = false →
  split " - " (a +:+ " - " +:+ b) = [a; b].
Proof. intros Ha Hb. unfold split. by rewrite split_go_joined. Qed.

Lemma has_dash_pad2 n : 0 ≤ n < 100 →
  ∀ rest, has_char "-" (pad2 n rest) = has_char "-" rest.
Proof.
  intros Hn. pattern n. apply (Forall_seqZ _ 0 100); [|lia].
  each_of_range ltac:(intros rest; reflexivity).
Qed.

Lemma render_no_dash items f :
  items = items_with_seconds ∨ items = items_without_seconds →
  valid_fields f → has_char "-" (render items f) = false.
Proof.
  intros Hitems Hf.
  pose proof (valid_fields_ranges f Dd Hf).
  pose proof (valid_fields_ranges f Dm Hf).
  pose proof (valid_fields_ranges f DY Hf).
  pose proof (valid_fields_ranges f DH Hf).
  pose proof (valid_fields_ranges f DM Hf).
  pose proof (valid_fields_ranges f DS Hf).
  cbn beta iota in *.
  assert (0 ≤ field DY f / 100 < 100).
  { split; [apply Z.div_pos; lia|apply Z.div_lt_upper_bound; lia]. }
  pose proof (Z.mod_pos_bound (field DY f) 100 ltac:(lia)).
  destruct Hitems as [-> | ->];
    unfold items_with_seconds, items_without_seconds;
    cbn [render render_directive]; unfold pad4;
    rewrite ?string_app_cons, ?string_app_nil_l;
    repeat (first [rewrite has_dash_pad2 by lia
                  | progress cbn [has_char Ascii.eqb Bool.eqb orb]]);
    reflexivity.
Qed.

Lemma render_not_null items f :
  items = items_with_seconds ∨ items = items_without_seconds →
  render items f ∉ nat_strings.
Proof.
  intros Hitems Hin.
  assert (Hlen : (String.length (render items f) ≤ 3)%nat).
  { revert Hin. generalize (render items f). intros s Hs.
    unfold nat_strings in Hs.
    repeat (apply elem_of_cons in Hs as [->|Hs]; [simpl; lia|]).
    by apply elem_of_nil in Hs. }
  destruct Hitems as [-> | ->]; cbn in Hlen; lia.
Qed.

(** ** The round trip *)

Lemma to_datetime_value_render format items f :
  format ∈ source_formats → compile_format format = Some items →
  valid_fields f → shown items f default_fields = f →
  to_datetime_value format (Some (render items f)) = Ok (Ts (epoch_ns f)).
Proof.
  intros Hformat Hitems Hf Hshown. unfold to_datetime_value.
  assert (Hshape : items = items_with_seconds
                   ∨ items = items_without_seconds).
  { destruct (compile_source_format _ Hformat); [left|right]; congruence. }
  rewrite decide_False by by apply render_not_null.
  by rewrite (strptime_render format items f).
Qed.

Lemma well_formed_parses format s :
  format ∈ source_formats → well_formed_interval format s →
  ∃ instants, parses_to format s instants.
Proof.
  intros Hformat (items & fa & fb & Hitems & Hfa & Hsa & Hfb & Hsb & ->).
  assert (Hshape : items = items_with_seconds
                   ∨ items = items_without_seconds).
  { destruct (compile_source_format _ Hformat); [left|right]; congruence. }
  exists (epoch_ns fa, epoch_ns fb). unfold parses_to.
  rewrite split_joined by by apply render_no_dash.
  cbn [lookup list_lookup fmap list_fmap default fst snd].
  split_and!; try done.
  - by apply to_datetime_value_render.
  - by apply to_datetime_value_render.
  - exists (render items fa), (render items fb).
    unfold strftime. rewrite Hitems. cbn [mbind option_bind].
    by rewrite !fields_of_epoch_ns.
Qed.

Lemma Forall_exists_Forall2 {A B} (R : A → B → Prop) l :
  Forall (λ a, ∃ b, R a b) l → ∃ k, Forall2 R l k.
Proof.
  induction 1 as [|a l [b Hb] _ [k Hk]]; [by exists []|].
  exists (b :: k). by constructor.
Qed.

Lemma mjoin_lookup_Some (l : list string) k :
  mjoin ((Some <$> l) !! k) = l !! k.
Proof. rewrite list_lookup_fmap. by destruct (l !! k). Qed.

Lemma expand_width_two (pieces : list (list (option string))) :
  pieces ≠ [] → Forall (λ row, length row = 2%nat) pieces →
  expand_width pieces = 2%nat.
Proof.
  unfold expand_width. intros Hne Hall.
  destruct Hall as [|row l Hrow Hl]; [done|]. clear Hne.
  rewrite fmap_cons, Hrow. cbn [foldr].
  assert (foldr Nat.max 0%nat (length <$> l) ≤ 2)%nat; [|lia].
  induction Hl as [|row' l' Hrow' _ IH]; [simpl; lia|].
  rewrite fmap_cons, Hrow'. cbn [foldr]. lia.
Qed.

(** C6. A column of well-formed interval texts in one of the two source
    formats parses, row by row, to a start and an end instant; writing
    these two back in the same format and joining them with " - " gives
    the text of the row again. *)
Theorem parse_intervals_round_trip format texts :
  format ∈ source_formats → texts ≠ [] →
  Forall (well_formed_interval format) texts →
  ∃ starts ends,
    parse_intervals format (Str <$> texts)
    = Ok (Ts <$> starts, Ts <$> ends) ∧
    length starts = length texts ∧ length ends = length texts ∧
    ∀ i s, texts !! i = Some s →
      ∃ start end_ text_start text_end,
        starts !! i = Some start ∧ ends !! i = Some end_ ∧
        strftime format start = Some text_start ∧
        strftime format end_ = Some text_end ∧
        text_start +:+ " - " +:+ text_end = s.
Proof.
  intros Hformat Hne Hall.
  assert (Hparses : Forall (λ s, ∃ p, parses_to format s p) texts).
  { eapply Forall_impl; [done|]. intros s. by apply well_formed_parses. }
  apply Forall_exists_Forall2 in Hparses as [pairs Hpairs].
  exists (fst <$> pairs), (snd <$> pairs).
  pose proof (Forall2_length _ _ _ Hpairs) as Hlen.
  split_and!; [|by rewrite length_fmap|by rewrite length_fmap|].
  - unfold parse_intervals, str_split.
    assert (existsb is_str (Str <$> texts) = true) as ->.
    { destruct texts; [done|]. reflexivity. }
    rewrite andb_false_r. cbn [bind].
    rewrite <- list_fmap_compose.
    set (pieces := _ <$> texts).
    assert (Hwidth : expand_width pieces = 2%nat).
    { apply expand_width_two.
      - subst pieces. by destruct texts.
      - subst pieces. apply Forall_fmap.
        eapply Forall2_Forall_l; [exact Hpairs|].
        apply Forall_forall. intros p _ s (_ & Hshape & _).
        unfold compose. by rewrite Hshape. }
    rewrite Hwidth.
    assert (Hcol0 : traverse (to_datetime_value format)
                      (expand_column pieces 0) = Ok (Ts <$> (fst <$> pairs))).
    { apply traverse_Ok. subst pieces. unfold expand_column.
      rewrite <- !list_fmap_compose. apply Forall2_fmap.
      eapply Forall2_impl; [exact Hpairs|].
      intros s p (_ & _ & H0 & _). unfold compose.
      by rewrite mjoin_lookup_Some. }
    assert (Hcol1 : traverse (to_datetime_value format)
                      (expand_column pieces 1) = Ok (Ts <$> (snd <$> pairs))).
    { apply traverse_Ok. subst pieces. unfold expand_column.
      rewrite <- !list_fmap_compose. apply Forall2_fmap.
      eapply Forall2_impl; [exact Hpairs|].
      intros s p (_ & _ & _ & H1 & _). unfold compose.
      by rewrite mjoin_lookup_Some. }
    cbn [seq traverse]. rewrite Hcol0, Hcol1. reflexivity.
  - intros i s Hi.
    destruct (Forall2_lookup_l _ _ _ _ _ Hpairs Hi)
      as ([start end_] & Hp & _ & _ & _ & _ & ts & te & Hs & He & Hjoin).
    exists start, end_, ts, te.
    rewrite !list_lookup_fmap, Hp. done.
Qed.


(** ** Splitting intervals *)

Lemma expand_width_le n (pieces : list (list (option string))) :
  Forall (λ row, (length row ≤ n)%nat) pieces → (expand_width pieces ≤ n)%nat.
Proof.
  unfold expand_width. induction 1 as [|row l Hrow _ IH]; [simpl; lia|].
  rewrite fmap_cons. simpl. lia.
Qed.

Lemma expand_width_ge (pieces : list (list (option string))) row :
  row ∈ pieces → (length row ≤ expand_width pieces)%nat.
Proof.
  unfold expand_width. induction 1 as [row l|row row' l _ IH];
    rewrite fmap_cons; simpl; lia.
Qed.

Lemma strptime_raises_to_datetime_value format piece :
  piece ∉ nat_strings → raises (strptime format piece) →
  raises (to_datetime_value format (Some piece)).
Proof.
  intros Hnat [e He]. unfold to_datetime_value.
  rewrite decide_False by done. rewrite He. by eexists.
Qed.

Lemma parse_intervals_rejects format series :
  (∃ s piece, Str s ∈ series ∧ piece ∈ split " - " s ∧
              (piece ∉ nat_strings) ∧ raises (strptime format piece)) ∨
  (∀ s, Str s ∈ series → ¬ contains_separator s) →
  raises (parse_intervals format series).
Proof.
  unfold parse_intervals, str_split.
  destruct (negb (bool_decide (series = [])) && negb (existsb is_str series));
    [intros _; by eexists|].
  cbn [bind].
  set (pieces := (λ c, match c with
                       | Str s => Some <$> split " - " s
                       | _ => [None]
                       end) <$> series).
  intros [(s & piece & Hs & Hpiece & Hnat & Hraise)|Hnone].
  - assert (Hrow : (Some <$> split " - " s) ∈ pieces).
    { subst pieces. apply list_elem_of_fmap. by exists (Str s). }
    apply list_elem_of_lookup in Hpiece as [k Hk].
    assert (Hcols : raises (traverse
              (λ k, traverse (to_datetime_value format)
                             (expand_column pieces k))
              (seq 0 (expand_width pieces)))).
    { apply (traverse_Raise _ _ k).
      - apply elem_of_seq. split; [lia|]. simpl.
        apply expand_width_ge in Hrow. rewrite length_fmap in Hrow.
        apply lookup_lt_Some in Hk. lia.
      - apply (traverse_Raise _ _ (Some piece)).
        + unfold expand_column. apply list_elem_of_fmap.
          exists (Some <$> split " - " s). split; [|done].
          by rewrite list_lookup_fmap, Hk.
        + by apply strptime_raises_to_datetime_value. }
    destruct Hcols as [e ->]. by eexists.
  - assert (Hw : (expand_width pieces ≤ 1)%nat).
    { apply expand_width_le. subst pieces. apply Forall_fmap, Forall_forall.
      intros c Hc. unfold compose. destruct c as [s| | | | |]; try done.
      rewrite length_fmap, split_no_separator by auto. done. }
    destruct (traverse _ (seq 0 (expand_width pieces))) as [parsed|e]
      eqn:Htr; [|by eexists].
    cbn [bind]. apply traverse_Ok, Forall2_length in Htr.
    rewrite length_seq in Htr.
    destruct parsed as [|starts [|ends [|]]]; try (by eexists).
    simpl in Htr. lia.
Qed.

(** C7, as the code has it.  The assignment of the interval columns
    raises, and returns no table, when some piece of some row (the row
    split at " - ") is not a null token and is refused by the format, and
    when no row of the column contains " - " at all. *)
Theorem assign_intervals_rejects format df :
  (∃ s piece, Str s ∈ column df "MTU (UTC)" ∧ piece ∈ split " - " s ∧
              (piece ∉ nat_strings) ∧ raises (strptime format piece)) ∨
  (∀ s, Str s ∈ column df "MTU (UTC)" → ¬ contains_separator s) →
  raises (assign_intervals format df).
Proof.
  intros H. unfold assign_intervals, getitem.
  case_decide; [|by eexists]. cbn [bind].
  destruct (parse_intervals_rejects format _ H) as [e ->]. by eexists.
Qed.

(** ** The claims on the example tables *)

Lemma read_from_dir_as_df_no_matching_file_witness :
  read_from_dir_as_df notes_fs "../data/raw/prices" ".csv"
  = Raise (ValueError NoObjectsToConcatenate).
Proof.
  apply (read_from_dir_as_df_no_matching_file
           notes_fs "../data/raw/prices" ".csv"); [reflexivity|].
  intros fn Hfn. apply list_elem_of_singleton in Hfn as ->. reflexivity.
Defined.

Lemma load_raw_data_from_dir_example :
  load_raw_data_from_dir example_fs = Ok example_merged.
Proof. vm_compute. reflexivity. Qed.

Lemma load_raw_data_from_dir_sentinels_witness :
  ∃ prices_df cons_df prod_df,
    load_raw_prices example_fs "../data/raw/" = Ok prices_df ∧
    load_raw_consumption example_fs "../data/raw/" = Ok cons_df ∧
    load_raw_production example_fs "../data/raw/" = Ok prod_df ∧
    let merged :=
      merge (merge prices_df cons_df interval_key) prod_df interval_key in
    columns example_merged = columns merged ∧
    length (rows example_merged) = length (rows merged) ∧
    (∀ i row label, rows merged !! i = Some row →
       ∃ row', rows example_merged !! i = Some row' ∧
               row' !! label = cleaned <$> row !! label) ∧
    (∀ c, cleaned c
          = if decide (c = Str "n/e" ∨ c = Str "-") then NaN else c) ∧
    (∀ row' label, row' ∈ rows example_merged →
       row' !! label ≠ Some (Str "n/e") ∧ row' !! label ≠ Some (Str "-")).
Proof.
  apply (load_raw_data_from_dir_sentinels example_fs example_merged).
  vm_compute. reflexivity.
Defined.

(** C4 as stated fails: the first hour is once in the price table and
    twice in the table returned, because the load table has it twice. *)
Lemma load_raw_data_from_dir_fans_out :
  (prices_df ←! load_raw_prices fan_out_fs "../data/raw/";
   Ok (count_key first_hour prices_df)) = Ok 1%nat ∧
  (merged_data ←! load_raw_data_from_dir fan_out_fs;
   Ok (count_key first_hour merged_data)) = Ok 2%nat.
Proof. split; vm_compute; reflexivity. Qed.

Lemma load_raw_data_from_dir_left_join_witness :
  ∃ prices_df cons_df prod_df,
    load_raw_prices example_fs "../data/raw/" = Ok prices_df ∧
    load_raw_consumption example_fs "../data/raw/" = Ok cons_df ∧
    load_raw_production example_fs "../data/raw/" = Ok prod_df ∧
    (∀ key, (count_key key prod_df ≤ 1)%nat) ∧
    (∀ key,
       count_key key example_merged
       = (count_key key prices_df * Nat.max 1 (count_key key cons_df))%nat) ∧
    (∀ key, count_key key prices_df = 1%nat →
            (count_key key cons_df ≤ 1)%nat →
            count_key key example_merged = 1%nat) ∧
    (∀ row, row ∈ rows prices_df →
       count_key (key_of interval_key row) cons_df = 0%nat →
       count_key (key_of interval_key row) prod_df = 0%nat →
       ∃ row', row' ∈ rows example_merged ∧
         key_of interval_key row' = key_of interval_key row ∧
         row' !! "da_price_eur_mwh" = cleaned <$> row !! "da_price_eur_mwh" ∧
         ∀ label, label ∈ columns example_merged →
                  label ∉ columns prices_df → row' !! label = Some NaN).
Proof.
  apply (load_raw_data_from_dir_left_join example_fs example_merged).
  vm_compute. reflexivity.
Defined.

Lemma load_raw_production_duplicates_witness :
  (production_long duplicated_fs "../data/raw/" = Ok duplicated_long ∧
   (∃ i j r1 r2, i ≠ j ∧ rows duplicated_long !! i = Some r1
                 ∧ rows duplicated_long !! j = Some r2
                 ∧ entry r1 = entry r2) ∧
   load_raw_production duplicated_fs "../data/raw/"
   = Raise (ValueError DuplicateEntries))
  ∧
  (production_long example_fs "../data/raw/" = Ok example_long ∧
   ∀ wide, load_raw_production example_fs "../data/raw/" = Ok wide →
     NoDup (entry <$> rows example_long) ∧
     ∀ row, row ∈ rows example_long →
       ∃ wide_row, wide_row ∈ rows wide ∧
         key_of interval_key wide_row = key_of interval_key row ∧
         get (generation_label (label_of (get "production_type" row)))
             wide_row
         = get "actual_generation_mw" row).
Proof.
  assert (Hlong : production_long duplicated_fs "../data/raw/"
                  = Ok duplicated_long) by (vm_compute; reflexivity).
  assert (Hsame : ∃ i j r1 r2,
            i ≠ j ∧ rows duplicated_long !! i = Some r1
            ∧ rows duplicated_long !! j = Some r2 ∧ entry r1 = entry r2).
  { exists 0%nat, 1%nat,
      (default ∅ (rows duplicated_long !! 0%nat)),
      (default ∅ (rows duplicated_long !! 1%nat)).
    split_and!; [discriminate|vm_compute; reflexivity..]. }
  assert (Hexample : production_long example_fs "../data/raw/"
                     = Ok example_long) by (vm_compute; reflexivity).
  split.
  - split_and!; [exact Hlong|exact Hsame|].
    exact (proj1 (load_raw_production_duplicates
                    duplicated_fs "../data/raw/" duplicated_long Hlong)
                 Hsame).
  - split; [exact Hexample|].
    exact (proj2 (load_raw_production_duplicates
                    example_fs "../data/raw/" example_long Hexample)).
Defined.

Lemma parse_intervals_round_trip_witness :
  ∃ starts ends,
    parse_intervals "%d/%m/%Y %H:%M:%S"
      [Str "01/01/2024 00:00:00 - 01/01/2024 01:00:00"]
    = Ok (Ts <$> starts, Ts <$> ends) ∧
    length starts = 1%nat ∧ length ends = 1%nat ∧
    ∀ i s,
      ["01/01/2024 00:00:00 - 01/01/2024 01:00:00"] !! i = Some s →
      ∃ start end_ text_start text_end,
        starts !! i = Some start ∧ ends !! i = Some end_ ∧
        strftime "%d/%m/%Y %H:%M:%S" start = Some text_start ∧
        strftime "%d/%m/%Y %H:%M:%S" end_ = Some text_end ∧
        text_start +:+ " - " +:+ text_end = s.
Proof.
  apply (parse_intervals_round_trip "%d/%m/%Y %H:%M:%S"
           ["01/01/2024 00:00:00 - 01/01/2024 01:00:00"]).
  - left.
  - discriminate.
  - apply Forall_cons_2; [|apply Forall_nil_2].
    exists items_with_seconds, midnight_fields, one_o_clock_fields.
    repeat split; try reflexivity; vm_compute; discriminate.
Defined.

(** C7 as stated fails: the second row of [mixed_batch] has no
    separator, and the column is parsed all the same; that row gets a
    start and a missing end. *)
Lemma assign_intervals_accepts_missing_separator :
  ¬ contains_separator "01/01/2024 01:00:00" ∧
  (df ←! assign_intervals "%d/%m/%Y %H:%M:%S" mixed_batch;
   Ok (column df "start_ts_utc", column df "end_ts_utc"))
  = Ok ([Ts 1704067200000000000; Ts 1704070800000000000],
        [Ts 1704070800000000000; NaT]).
Proof.
  split; [by apply no_dash_no_separator|]. vm_compute. reflexivity.
Qed.

Lemma assign_intervals_rejects_witness :
  raises (assign_intervals "%d/%m/%Y %H:%M:%S" iso_batch).
Proof.
  apply (assign_intervals_rejects "%d/%m/%Y %H:%M:%S" iso_batch).
  left. exists "2024-01-01 00:00:00 - 2024-01-01 01:00:00",
               "2024-01-01 00:00:00".
  split_and!.
  - left.
  - vm_compute. left.
  - apply (bool_decide_unpack _). vm_compute. exact I.
  - exists (ValueError (TimeDataMismatch "2024-01-01 00:00:00")).
    vm_compute. reflexivity.
Defined.

(** * Further properties of gap detection *)

Section gap_detection_more.

Variable infer_datetime : cell → option Z.

Local Abbreviation to_datetime := (to_datetime infer_datetime).
Local Abbreviation contains_datetime_gaps :=
  (contains_datetime_gaps infer_datetime).

Lemma series_min_is_min series lo :
  is_min (instants series) lo → series_min series = Some lo.
Proof.
  intros [Hin Hle]. pose proof (series_min_spec series) as H.
  destruct (series_min series) as [lo'|].
  - destruct H as [Hin' Hle']. f_equal.
    specialize (Hle _ Hin'). specialize (Hle' _ Hin). lia.
  - rewrite H in Hin. by apply elem_of_nil in Hin.
Qed.

Lemma series_max_is_max series hi :
  is_max (instants series) hi → series_max series = Some hi.
Proof.
  intros [Hin Hle]. pose proof (series_max_spec series) as H.
  destruct (series_max series) as [hi'|].
  - destruct H as [Hin' Hle']. f_equal.
    specialize (Hle _ Hin'). specialize (Hle' _ Hin). lia.
  - rewrite H in Hin. by apply elem_of_nil in Hin.
Qed.

(** A strictly ascending list is determined by its members. *)
Lemma strictly_sorted_ext (l1 l2 : list Z) :
  StronglySorted Z.lt l1 → StronglySorted Z.lt l2 →
  (∀ t, t ∈ l1 ↔ t ∈ l2) → l1 = l2.
Proof.
  intros H1. revert l2. induction H1 as [|x l1 Hs1 IH Hx]; intros l2 H2 Hext.
  - symmetry. apply elem_of_nil_inv. intros t Ht%Hext.
    by apply elem_of_nil in Ht.
  - destruct H2 as [|y l2 Hs2 Hy].
    { assert (x ∈ []) as Hnil by (apply Hext; left).
      by apply elem_of_nil in Hnil. }
    rewrite Forall_forall in Hx, Hy.
    assert (x = y) as <-.
    { assert (Hxin : x ∈ y :: l2) by (apply Hext; left).
      assert (Hyin : y ∈ x :: l1) by (apply Hext; left).
      apply elem_of_cons in Hxin as [?|Hxin]; [done|].
      apply elem_of_cons in Hyin as [?|Hyin]; [done|].
      specialize (Hx _ Hyin). specialize (Hy _ Hxin). lia. }
    f_equal. apply IH; [done|]. intros t. split; intros Ht.
    + assert (t ∈ x :: l2) as [->|?]%elem_of_cons; [apply Hext; by right| |done].
      specialize (Hx _ Ht). lia.
    + assert (t ∈ x :: l1) as [->|?]%elem_of_cons; [apply Hext; by right| |done].
      specialize (Hy _ Ht). lia.
Qed.

(** The value returned for a column that parses and holds an instant, at
    a positive step: the calendar instants that were not observed. *)
Lemma contains_datetime_gaps_missing
    df label frequency series coerced lo hi :
  getitem df label = Ok series →
  to_datetime series = Ok coerced →
  is_min (instants coerced) lo → is_max (instants coerced) hi →
  0 < frequency →
  ∃ missing_times,
    (contains_datetime_gaps df label frequency).2
      = Ok (negb (bool_decide (missing_times = [])), missing_times) ∧
    (∀ t, t ∈ missing_times ↔
       regular_calendar lo hi frequency t ∧ t ∉ instants coerced) ∧
    StronglySorted Z.lt missing_times.
Proof.
  intros Hget Hto Hmin Hmax Hf.
  rewrite (contains_datetime_gaps_result _ _ _ _ _ _ Hget Hto); simpl.
  rewrite (series_min_is_min _ _ Hmin), (series_max_is_max _ _ Hmax).
  assert (lo ≤ hi) by (destruct Hmin as [_ Hmin], Hmax as [Hin _]; auto).
  destruct (date_range (Some lo) (Some hi) frequency) as [full_range|e]
    eqn:Hrange;
    [|unfold date_range in Hrange; destruct (decide (frequency = 0)); [lia|done]].
  exists (difference full_range coerced). split_and!; [done| |].
  - intros t. rewrite elem_of_difference.
    by rewrite (elem_of_date_range _ _ _ _ t Hf ltac:(done) Hrange).
  - apply difference_sorted.
Qed.

(** X1. A table that holds every instant of the regular calendar between
    its least and greatest timestamp has no gaps. *)
Theorem contains_datetime_gaps_complete
    df label frequency series coerced lo hi :
  getitem df label = Ok series →
  to_datetime series = Ok coerced →
  is_min (instants coerced) lo → is_max (instants coerced) hi →
  0 < frequency →
  (∀ t, regular_calendar lo hi frequency t → t ∈ instants coerced) →
  (contains_datetime_gaps df label frequency).2 = Ok (false, []).
Proof.
  intros Hget Hto Hmin Hmax Hf Hall.
  destruct (contains_datetime_gaps_missing _ _ _ _ _ _ _
              Hget Hto Hmin Hmax Hf) as (missing & -> & Hmem & _).
  assert (missing = []) as ->; [|done].
  apply elem_of_nil_inv. intros t [Hcal Hnot]%Hmem. by apply Hnot, Hall.
Qed.

(** X2. A table that lacks exactly one instant of that calendar reports
    exactly that instant. *)
Theorem contains_datetime_gaps_one_missing
    df label frequency series coerced lo hi gap :
  getitem df label = Ok series →
  to_datetime series = Ok coerced →
  is_min (instants coerced) lo → is_max (instants coerced) hi →
  0 < frequency →
  regular_calendar lo hi frequency gap → gap ∉ instants coerced →
  (∀ t, regular_calendar lo hi frequency t → t ≠ gap →
        t ∈ instants coerced) →
  (contains_datetime_gaps df label frequency).2 = Ok (true, [gap]).
Proof.
  intros Hget Hto Hmin Hmax Hf Hgap Hnot Hall.
  destruct (contains_datetime_gaps_missing _ _ _ _ _ _ _
              Hget Hto Hmin Hmax Hf) as (missing & -> & Hmem & Hsorted).
  assert (missing = [gap]) as ->; [|done].
  apply strictly_sorted_ext; [done|repeat constructor|].
  intros t. rewrite Hmem, list_elem_of_singleton. split.
  - intros [Hcal Hmiss]. destruct (decide (t = gap)); [done|].
    exfalso. by apply Hmiss, Hall.
  - by intros ->.
Qed.

(** X3. When the call returns.  It returns a result exactly when the
    column exists, every value of it can be read as a datetime, at least
    one value is not missing, and the frequency is not zero.  A missing
    column raises [KeyError] and leaves the table alone; a column without
    instants makes [pd.date_range] raise. *)
Theorem contains_datetime_gaps_returns df label frequency :
  ((∃ r, (contains_datetime_gaps df label frequency).2 = Ok r) ↔
   label ∈ columns df ∧
   (∃ coerced, to_datetime (column df label) = Ok coerced
               ∧ instants coerced ≠ []) ∧
   frequency ≠ 0) ∧
  (label ∉ columns df →
   contains_datetime_gaps df label frequency = (df, Raise (KeyError label)))
  ∧
  (∀ e, label ∈ columns df → to_datetime (column df label) = Raise e →
        contains_datetime_gaps df label frequency = (df, Raise e)) ∧
  (∀ coerced, label ∈ columns df →
     to_datetime (column df label) = Ok coerced → instants coerced = [] →
     (contains_datetime_gaps df label frequency).2
     = Raise (ValueError NaTBound)).
Proof.
  assert (Hmissing : label ∉ columns df →
    contains_datetime_gaps df label frequency = (df, Raise (KeyError label))).
  { intros Hnot. unfold DataPreprocessing.contains_datetime_gaps, getitem.
    by rewrite decide_False. }
  assert (Hraise : ∀ e, label ∈ columns df →
    to_datetime (column df label) = Raise e →
    contains_datetime_gaps df label frequency = (df, Raise e)).
  { intros e Hin Hto. unfold DataPreprocessing.contains_datetime_gaps, getitem.
    rewrite decide_True by done. by rewrite Hto. }
  assert (Hresult : ∀ coerced, label ∈ columns df →
    to_datetime (column df label) = Ok coerced →
    (contains_datetime_gaps df label frequency).2
    = (full_range ←! date_range (series_min coerced) (series_max coerced)
                       frequency;
       Ok (negb (bool_decide (difference full_range coerced = [])),
           difference full_range coerced))).
  { intros coerced Hin Hto.
    rewrite (contains_datetime_gaps_result _ df label frequency
               (column df label) coerced); [done| |done].
    unfold getitem. by rewrite decide_True. }
  split_and!; [|done|done|].
  - split.
    + intros [r Hr]. destruct (decide (label ∈ columns df)) as [Hin|Hnot];
        [|by rewrite Hmissing in Hr].
      destruct (to_datetime (column df label)) as [coerced|e] eqn:Hto;
        [|by rewrite (Hraise e) in Hr].
      rewrite (Hresult coerced) in Hr by done.
      pose proof (series_min_spec coerced) as Hmin.
      pose proof (series_max_spec coerced) as Hmax.
      destruct (series_min coerced) as [lo|]; [|done].
      destruct (series_max coerced) as [hi|]; [|done].
      split_and!; [done| |].
      * exists coerced. split; [done|]. intros Hnil. destruct Hmin as [Hin' _].
        rewrite Hnil in Hin'. by apply elem_of_nil in Hin'.
      * intros ->. unfold date_range in Hr. by rewrite decide_True in Hr.
    + intros (Hin & (coerced & Hto & Hobs) & Hf).
      rewrite (Hresult coerced) by done.
      pose proof (series_min_spec coerced) as Hmin.
      pose proof (series_max_spec coerced) as Hmax.
      destruct (series_min coerced) as [lo|]; [|done].
      destruct (series_max coerced) as [hi|]; [|done].
      unfold date_range. rewrite decide_False by done. by eexists.
  - intros coerced Hin Hto Hnil. rewrite (Hresult coerced) by done.
    unfold series_min. by rewrite Hnil.
Qed.

(** X4. With a negative frequency the call reports no gaps, whatever the
    table holds: the range that [pd.date_range] builds from the least to
    the greatest instant has at most its first member. *)
Theorem contains_datetime_gaps_negative_frequency
    df label frequency series coerced :
  getitem df label = Ok series →
  to_datetime series = Ok coerced →
  instants coerced ≠ [] →
  frequency < 0 →
  (contains_datetime_gaps df label frequency).2 = Ok (false, []).
Proof.
  intros Hget Hto Hobs Hf.
  rewrite (contains_datetime_gaps_result _ _ _ _ _ _ Hget Hto); simpl.
  pose proof (series_min_spec coerced) as Hmin.
  pose proof (series_max_spec coerced) as Hmax.
  destruct (series_min coerced) as [lo|]; [|done].
  destruct (series_max coerced) as [hi|]; [|done].
  destruct Hmin as [Hlo Hmin], Hmax as [Hhi _].
  assert (lo ≤ hi) by auto.
  unfold date_range. rewrite decide_False by lia. simpl.
  set (e := lo + (hi - lo) / frequency * frequency + frequency / 2 + 1).
  assert (Hnil : difference (arange lo e frequency) coerced = []).
  { apply elem_of_nil_inv. intros t [Ht Hnotin]%elem_of_difference.
    apply Hnotin. unfold arange in Ht.
    apply list_elem_of_fmap in Ht as (j & -> & Hj%elem_of_seq).
    assert (- ((lo - e) / frequency) ≤ 1).
    { subst e. Z.div_mod_to_equations. nia. }
    replace j with 0%nat by lia. by rewrite Z.mul_0_l, Z.add_0_r. }
  by rewrite Hnil.
Qed.

Lemma to_datetime_is_utc series coerced :
  to_datetime series = Ok coerced → Forall is_utc coerced.
Proof.
  intros H%traverse_Ok. induction H as [|c c' l l' Hc _ IH]; constructor;
    [|done].
  destruct c; simpl in Hc; simplify_eq; try (by left); try (right; by eexists);
    destruct (infer_datetime _); simplify_eq; right; by eexists.
Qed.

(** X5. A second call with the same arguments finds the table as the
    first call left it, leaves it so, and gives the same answer. *)
Theorem contains_datetime_gaps_second_call df label frequency :
  contains_datetime_gaps
    (contains_datetime_gaps df label frequency).1 label frequency
  = contains_datetime_gaps df label frequency.
Proof.
  destruct (decide (label ∈ columns df)) as [Hin|Hnot].
  2: { assert (contains_datetime_gaps df label frequency
               = (df, Raise (KeyError label))) as Heq.
       { unfold DataPreprocessing.contains_datetime_gaps, getitem.
         by rewrite decide_False. }
       by rewrite Heq. }
  assert (Hget : getitem df label = Ok (column df label)).
  { unfold getitem. by rewrite decide_True. }
  destruct (to_datetime (column df label)) as [coerced|e] eqn:Hto.
  2: { assert (contains_datetime_gaps df label frequency = (df, Raise e))
         as Heq.
       { unfold DataPreprocessing.contains_datetime_gaps.
         by rewrite Hget, Hto. }
       by rewrite Heq. }
  rewrite (contains_datetime_gaps_result _ _ _ _ _ _ Hget Hto). cbn [fst].
  assert (Hlen : length coerced = length (rows df)).
  { rewrite (to_datetime_length _ _ _ Hto). unfold column.
    by rewrite length_fmap. }
  set (caller_df := setitem df label coerced).
  assert (Hget' : getitem caller_df label = Ok coerced).
  { unfold getitem. rewrite decide_True.
    - subst caller_df. by rewrite column_setitem.
    - subst caller_df. unfold setitem. cbn [columns].
      by rewrite decide_True. }
  assert (Hto' : to_datetime coerced = Ok coerced).
  { apply to_datetime_utc. by eapply to_datetime_is_utc. }
  rewrite (contains_datetime_gaps_result _ _ _ _ _ _ Hget' Hto').
  f_equal. rewrite <- (column_setitem df label coerced Hlen) at 1.
  fold caller_df. apply setitem_same.
  - subst caller_df. unfold setitem. cbn [columns]. by rewrite decide_True.
  - subst caller_df. unfold setitem. cbn [rows]. apply Forall_forall.
    intros row (r & v & -> & _ & _)%elem_of_zip_with.
    rewrite lookup_insert_eq. by eexists.
Qed.

Lemma remove_dups_NoDup (l : list Z) : NoDup l → remove_dups l = l.
Proof.
  induction 1 as [|x l Hx _ IH]; [done|]. simpl.
  destruct (decide_rel _ x l); [done|]. by rewrite IH.
Qed.

Lemma length_list_difference (l k : list Z) :
  (length (list_difference l k)
   + length (List.filter (λ t, bool_decide (t ∈ k)) l) = length l)%nat.
Proof.
  induction l as [|x l IH]; [done|]. simpl.
  destruct (decide_rel _ x k) as [Hin|Hnot].
  - rewrite bool_decide_eq_true_2 by done. simpl. lia.
  - rewrite bool_decide_eq_false_2 by done. simpl. lia.
Qed.

Lemma date_range_calendar_list lo hi frequency :
  0 < frequency → lo ≤ hi →
  date_range (Some lo) (Some hi) frequency
  = Ok (calendar_list lo hi frequency).
Proof.
  intros Hf Hle. unfold date_range. rewrite decide_False by lia.
  f_equal. unfold arange, calendar_list, seqZ.
  rewrite <- list_fmap_compose.
  assert (- ((lo - (lo + (hi - lo) / frequency * frequency
                    + frequency / 2 + 1)) / frequency)
          = (hi - lo) / frequency + 1) as ->.
  { Z.div_mod_to_equations. nia. }
  apply list_fmap_ext. intros i j _. simpl. lia.
Qed.

Lemma NoDup_calendar_list lo hi frequency :
  0 < frequency → NoDup (calendar_list lo hi frequency).
Proof.
  intros Hf. unfold calendar_list. apply NoDup_fmap_2_strong.
  - intros x y _ _ Heq. nia.
  - apply NoDup_seqZ.
Qed.

(** X6. Every instant of the calendar is either observed or reported:
    the number of gaps and the number of calendar instants that were
    observed add up to the size of the calendar. *)
Theorem contains_datetime_gaps_count
    df label frequency series coerced lo hi :
  getitem df label = Ok series →
  to_datetime series = Ok coerced →
  is_min (instants coerced) lo → is_max (instants coerced) hi →
  0 < frequency →
  ∃ has_gaps missing_times,
    (contains_datetime_gaps df label frequency).2
      = Ok (has_gaps, missing_times) ∧
    Z.of_nat (length missing_times)
    + Z.of_nat (length (List.filter
                          (λ t, bool_decide (t ∈ instants coerced))
                          (calendar_list lo hi frequency)))
    = (hi - lo) / frequency + 1.
Proof.
  intros Hget Hto Hmin Hmax Hf.
  rewrite (contains_datetime_gaps_result _ _ _ _ _ _ Hget Hto); simpl.
  rewrite (series_min_is_min _ _ Hmin), (series_max_is_max _ _ Hmax).
  assert (lo ≤ hi) by (destruct Hmin as [_ Hmin], Hmax as [Hin _]; auto).
  rewrite date_range_calendar_list by done. cbn [bind].
  eexists _, _. split; [done|].
  unfold difference. rewrite merge_sort_Permutation.
  rewrite remove_dups_NoDup by by apply NoDup_calendar_list.
  pose proof (length_list_difference (calendar_list lo hi frequency)
                (instants coerced)) as Hlen.
  assert (length (calendar_list lo hi frequency)
          = Z.to_nat ((hi - lo) / frequency + 1)) as Hcal.
  { unfold calendar_list. by rewrite length_fmap, length_seqZ. }
  assert (0 ≤ (hi - lo) / frequency) by (apply Z.div_pos; lia).
  lia.
Qed.

End gap_detection_more.

(** * Further properties of the loaders *)

(** ** Reading a directory *)

Lemma traverse_first_Raise {A B} (f : A → result B) l e :
  traverse f l = Raise e ↔
  ∃ before a after, l = before ++ a :: after ∧
    Forall (λ b, ∃ x, f b = Ok x) before ∧ f a = Raise e.
Proof.
  split.
  - induction l as [|a l IH]; simpl; [done|].
    destruct (f a) as [b|e'] eqn:Hfa; simpl.
    + destruct (traverse f l) as [bs|e'] eqn:Hl; simpl; [done|].
      intros [= ->]. destruct (IH eq_refl) as (before & a' & after & -> & Hb & Ha).
      exists (a :: before), a', after. split_and!; [done| |done].
      constructor; [by eexists|done].
    + intros [= ->]. exists [], a, l. split_and!; [done|constructor|done].
  - intros (before & a & after & -> & Hb & Ha).
    induction Hb as [|b before [x Hx] _ IH]; simpl.
    + by rewrite Ha.
    + by rewrite Hx, IH.
Qed.

Lemma elem_of_concat_columns (dataframes : list DataFrame) acc label :
  label ∈ foldl (λ acc df, acc ++ list_difference (columns df) acc)
                acc dataframes ↔
  label ∈ acc ∨ ∃ df, df ∈ dataframes ∧ label ∈ columns df.
Proof.
  revert acc. induction dataframes as [|df dfs IH]; intros acc; simpl.
  - split; [by left|]. intros [?|(df & []%elem_of_nil & _)]. done.
  - rewrite IH, elem_of_app, list_elem_of_difference. split.
    + intros [[?|[? ?]]|(df' & ? & ?)].
      * by left.
      * right. exists df. split; [left|done].
      * right. exists df'. split; [by right|done].
    + intros [?|(df' & [->|?]%elem_of_cons & ?)].
      * left; by left.
      * destruct (decide (label ∈ acc)); [left; by left|left; by right].
      * right. by exists df'.
Qed.

Lemma concat_Ok dataframes df :
  concat dataframes = Ok df →
  dataframes ≠ [] ∧
  (∀ label, label ∈ columns df ↔
            ∃ frame, frame ∈ dataframes ∧ label ∈ columns frame) ∧
  rows df = reindex (columns df) <$> (dataframes ≫= rows).
Proof.
  destruct dataframes as [|d ds] eqn:Heq; [done|]. rewrite <- Heq.
  unfold concat. rewrite Heq at 1. intros [= <-]. cbn [columns rows].
  split_and!; [by rewrite Heq| |done].
  intros label. rewrite elem_of_concat_columns. split; [|by right].
  intros [[]%elem_of_nil|?]. done.
Qed.

(** X7. What a successful read holds.  The directory exists, the format
    is one of the two that are supported, every entry with the requested
    ending was read, and there is at least one.  The table has the rows
    of these files in the order of the listing, over the union of their
    columns; a cell under a column that a file does not have is [NaN]. *)
Theorem read_from_dir_as_df_rows fs dir_path file_format df :
  read_from_dir_as_df fs dir_path file_format = Ok df →
  isdir fs dir_path = true ∧
  (file_format = ".csv" ∨ file_format = ".xlsx") ∧
  ∃ frames,
    frames ≠ [] ∧
    Forall2 (λ fn frame,
               reader_of fs file_format (path_join dir_path fn) = Some frame)
            (List.filter (λ fn, endswith fn file_format)
                         (listdir fs dir_path))
            frames ∧
    (∀ label, label ∈ columns df ↔
              ∃ frame, frame ∈ frames ∧ label ∈ columns frame) ∧
    length (rows df) = length (frames ≫= rows) ∧
    ∀ i row, (frames ≫= rows) !! i = Some row →
      ∃ row', rows df !! i = Some row' ∧
        ∀ label, row' !! label
                 = if decide (label ∈ columns df) then Some (get label row)
                   else None.
Proof.
  unfold read_from_dir_as_df.
  destruct (isdir fs dir_path); [|done]. cbn [negb].
  intros (frames & Htr & Hconcat)%bind_Ok.
  apply concat_Ok in Hconcat as (Hne & Hcols & Hrows).
  apply traverse_Ok in Htr.
  assert (Hformat : file_format = ".csv" ∨ file_format = ".xlsx").
  { destruct Htr as [|fn frame fns frames' Hfn _]; [done|].
    destruct (decide (file_format = ".csv")); [by left|].
    destruct (decide (file_format = ".xlsx")); [by right|done]. }
  split_and!; [done|done|]. exists frames. split_and!; [done| |done| |].
  - eapply Forall2_impl; [exact Htr|]. intros fn frame Hfn.
    unfold reader_of, read_with in *.
    destruct (decide (file_format = ".csv")).
    + by destruct (read_csv fs _); simplify_eq.
    + destruct (decide (file_format = ".xlsx")); [|done].
      by destruct (read_excel fs _); simplify_eq.
  - by rewrite Hrows, length_fmap.
  - intros i row Hi. exists (reindex (columns df) row). split.
    + by rewrite Hrows, list_lookup_fmap, Hi.
    + intros label. apply lookup_reindex.
Qed.

(** X8. Which error a failed read raises.  A path that is not a
    directory is refused before anything else is looked at; and when a
    file cannot be read, the error is that of the first such file of the
    listing, the files before it having been read. *)
Theorem read_from_dir_as_df_errors fs dir_path file_format :
  (isdir fs dir_path = false →
   read_from_dir_as_df fs dir_path file_format
   = Raise (ValueError (DirectoryMissing dir_path))) ∧
  (∀ path,
     read_from_dir_as_df fs dir_path file_format = Raise (OSError path) ↔
     isdir fs dir_path = true ∧
     (file_format = ".csv" ∨ file_format = ".xlsx") ∧
     ∃ before fn after,
       List.filter (λ fn, endswith fn file_format) (listdir fs dir_path)
       = before ++ fn :: after ∧
       Forall (λ fn', is_Some (reader_of fs file_format
                                 (path_join dir_path fn'))) before ∧
       reader_of fs file_format (path_join dir_path fn) = None ∧
       path = path_join dir_path fn).
Proof.
  unfold read_from_dir_as_df. split; [by intros ->|].
  intros path. destruct (isdir fs dir_path); cbn [negb];
    [|split; [done|by intros [? _]]].
  set (files := List.filter _ _).
  set (read := λ file, if decide (file_format = ".csv") then _ else _).
  assert (Hread : ∀ fn,
    (file_format = ".csv" ∨ file_format = ".xlsx") →
    read fn = match reader_of fs file_format (path_join dir_path fn) with
              | Some frame => Ok frame
              | None => Raise (OSError (path_join dir_path fn))
              end).
  { intros fn Hformat. subst read. unfold reader_of, read_with. cbn beta.
    destruct (decide (file_format = ".csv")); [done|].
    destruct (decide (file_format = ".xlsx")); [done|]. by destruct Hformat. }
  split.
  - destruct (traverse read files) as [frames|e] eqn:Htr; cbn [bind].
    { by intros [_ [=]]%concat_Raise. }
    intros [= ->].
    apply traverse_first_Raise in Htr
      as (before & fn & after & Hfiles & Hbefore & Hfn).
    assert (Hformat : file_format = ".csv" ∨ file_format = ".xlsx").
    { subst read. cbn beta in Hfn.
      destruct (decide (file_format = ".csv")); [by left|].
      destruct (decide (file_format = ".xlsx")); [by right|done]. }
    split_and!; [done|done|]. exists before, fn, after.
    rewrite (Hread fn Hformat) in Hfn.
    destruct (reader_of fs file_format (path_join dir_path fn)) eqn:Hr;
      [done|]. simplify_eq.
    split_and!; [done| |done|done].
    eapply Forall_impl; [exact Hbefore|]. intros fn' [x Hx]. cbn beta in Hx.
    rewrite (Hread fn' Hformat) in Hx.
    by destruct (reader_of fs file_format (path_join dir_path fn')).
  - intros (_ & Hformat & before & fn & after & Hfiles & Hbefore & Hfn & ->).
    assert (Htr : traverse read files
                  = Raise (OSError (path_join dir_path fn))).
    { apply traverse_first_Raise. exists before, fn, after.
      split_and!; [done| |by rewrite (Hread fn Hformat), Hfn].
      eapply Forall_impl; [exact Hbefore|]. intros fn' [frame Hframe].
      cbn beta. exists frame. by rewrite (Hread fn' Hformat), Hframe. }
    by rewrite Htr.
Qed.

(** ** Interval columns, row by row *)

Lemma mjoin_lookup_pieces (c : cell) (k : nat) :
  mjoin ((match c with
          | Str s => Some <$> split " - " s
          | _ => [None]
          end) !! k)
  = match c with Str s => split " - " s !! k | _ => None end.
Proof.
  destruct c; try (by destruct k as [|[|k]]).
  rewrite list_lookup_fmap. by destruct (_ !! k).
Qed.

Lemma parse_intervals_lookup format series starts ends i c :
  parse_intervals format series = Ok (starts, ends) →
  series !! i = Some c →
  ∃ a b, starts !! i = Some a ∧ ends !! i = Some b ∧
         parsed_interval format c a b.
Proof.
  intros Hparse Hi.
  unfold parse_intervals, str_split in Hparse.
  destruct (_ && _) in Hparse; [done|]. cbn [bind] in Hparse.
  apply bind_Ok in Hparse as (parsed & Htr & Hmatch).
  destruct parsed as [|starts' [|ends' [|]]]; simplify_eq.
  apply traverse_Ok in Htr.
  set (pieces := _ <$> series) in Htr.
  assert (Hwidth : expand_width pieces = 2%nat).
  { apply Forall2_length in Htr. by rewrite length_seq in Htr. }
  rewrite Hwidth in Htr. cbn [seq] in Htr.
  apply Forall2_cons_1 in Htr as [H0 Htr].
  apply Forall2_cons_1 in Htr as [H1 _].
  apply traverse_Ok in H0, H1.
  assert (Hpiece : ∀ k, expand_column pieces k !! i
            = Some (match c with
                    | Str s => split " - " s !! k
                    | _ => None
                    end)).
  { intros k. unfold expand_column. subst pieces.
    rewrite !list_lookup_fmap, Hi. cbn [fmap option_fmap option_map].
    by rewrite mjoin_lookup_pieces. }
  destruct (Forall2_lookup_l _ _ _ _ _ H0 (Hpiece 0%nat)) as (a & Ha & Hva).
  destruct (Forall2_lookup_l _ _ _ _ _ H1 (Hpiece 1%nat)) as (b & Hb & Hvb).
  exists a, b. split_and!; [done|done|].
  unfold parsed_interval. destruct c; try done;
    unfold to_datetime_value in Hva, Hvb; by simplify_eq.
Qed.

(** X9. Interval parsing keeps the rows aligned: when it returns, the two
    key columns have one cell per row of the interval column, and the
    cells of a row come from the text of that row alone.  A text without
    separator gets a missing end. *)
Theorem parse_intervals_aligned format series starts ends :
  parse_intervals format series = Ok (starts, ends) →
  length starts = length series ∧ length ends = length series ∧
  ∀ i c, series !! i = Some c →
    ∃ a b, starts !! i = Some a ∧ ends !! i = Some b ∧
           parsed_interval format c a b.
Proof.
  intros Hparse.
  destruct (parse_intervals_Ok _ _ _ _ Hparse) as (_ & _ & Hls & Hle).
  split_and!; [done|done|].
  intros i c. by apply parse_intervals_lookup.
Qed.

(** ** The price and the load table, row by row *)

Lemma Forall2_Permutation_r {A B} (R : A → B → Prop) l k k' :
  Forall2 R l k → k ≡ₚ k' → ∃ l', l' ≡ₚ l ∧ Forall2 R l' k'.
Proof.
  intros HR Hperm. revert l HR.
  induction Hperm as [|y k k' _ IH|y z k|k1 k2 k3 _ IH1 _ IH2]; intros l HR.
  - exists l. by split.
  - inversion HR as [|x ? l0 ? Hxy Hrest]; subst.
    destruct (IH _ Hrest) as (l' & Hl' & HR').
    exists (x :: l'). split; [by constructor|by constructor].
  - inversion HR as [|x ? l0 ? Hx Hrest]; subst.
    inversion Hrest as [|x' ? l1 ? Hx' Hrest']; subst.
    exists (x' :: x :: l1). split; [apply perm_swap|by repeat constructor].
  - destruct (IH1 _ HR) as (l1 & Hl1 & HR1).
    destruct (IH2 _ HR1) as (l2 & Hl2 & HR2).
    exists l2. split; [by etrans|done].
Qed.

Lemma get_delete_ne label label' (row : gmap string cell) :
  label ≠ label' → get label' (delete label row) = get label' row.
Proof. intros. unfold get. by rewrite lookup_delete_ne. Qed.

Lemma read_from_dir_as_df_total fs dir_path file_format raw :
  read_from_dir_as_df fs dir_path file_format = Ok raw →
  Forall (λ row, ∀ label, label ∈ columns raw →
                          row !! label = Some (get label row))
         (rows raw).
Proof.
  unfold read_from_dir_as_df. destruct (negb _); [done|].
  intros (frames & _ & (_ & _ & ->)%concat_Ok)%bind_Ok.
  apply Forall_fmap, Forall_forall. intros row _ label Hin. unfold compose.
  rewrite get_reindex by done. by rewrite lookup_reindex, decide_True.
Qed.

Lemma assign_intervals_lookup format df df' i row :
  assign_intervals format df = Ok df' →
  rows df !! i = Some row →
  ∃ a b,
    rows df' !! i
    = Some (<["end_ts_utc" := b]> (<["start_ts_utc" := a]> row)) ∧
    parsed_interval format (get "MTU (UTC)" row) a b.
Proof.
  intros (starts & ends & Hparse & ->)%assign_intervals_Ok Hi.
  destruct (parse_intervals_lookup _ _ _ _ i (get "MTU (UTC)" row) Hparse)
    as (a & b & Ha & Hb & Hab).
  { unfold column. by rewrite list_lookup_fmap, Hi. }
  exists a, b. split; [|done].
  unfold setitem. cbn [rows]. rewrite !lookup_zip_with, Hi. csimpl.
  rewrite Ha. csimpl. by rewrite Hb.
Qed.

Lemma assign_intervals_columns format df df' :
  assign_intervals format df = Ok df' →
  "MTU (UTC)" ∈ columns df ∧
  ∀ label, label ∈ columns df' ↔ label ∈ columns df ∨ label ∈ interval_key.
Proof.
  unfold assign_intervals.
  intros (mtu & Hget & (parsed & _ & [= <-])%bind_Ok)%bind_Ok.
  unfold getitem in Hget. case_decide; [|done]. split; [done|].
  intros label. unfold setitem, interval_key. cbn [columns].
  destruct (decide ("start_ts_utc" ∈ columns df)) as [Hs|Hs];
    destruct (decide ("end_ts_utc" ∈ _)) as [He|He];
    set_unfold; intuition (subst; auto).
Qed.

Lemma select_columns df labels df' :
  select df labels = Ok df' → labels ⊆ columns df.
Proof.
  unfold select. destruct (list_difference _ _) eqn:Hd; [|done].
  intros _ label Hin. destruct (decide (label ∈ columns df)); [done|].
  assert (label ∈ list_difference labels (columns df)) as Hx
    by by apply list_elem_of_difference.
  rewrite Hd in Hx. by apply elem_of_nil in Hx.
Qed.

Lemma elem_of_rename_columns old new df label :
  label ∈ columns (rename old new df) →
  label ≠ new → label ∈ columns df ∧ label ≠ old.
Proof.
  unfold rename. cbn [columns].
  intros (l & -> & Hl)%list_elem_of_fmap Hne. unfold rename_label in *.
  by case_decide.
Qed.

Lemma new_in_rename_columns old new df :
  new ∈ columns (rename old new df) → new ∉ columns df → old ∈ columns df.
Proof.
  unfold rename. cbn [columns].
  intros (l & Hl & Hin)%list_elem_of_fmap Hnew. unfold rename_label in Hl.
  case_decide; by subst.
Qed.

(** X10. The price table, row by row.  For a price directory read as [raw]
    that has no column named [da_price_eur_mwh] already: when the loader
    returns, [raw] has the sequence, the interval and the price column,
    and the rows returned are, up to their order, the rows of [raw] whose
    sequence is "Sequence Sequence 1", each one reduced to three cells:
    the start and the end parsed from its interval text, and its price. *)
Theorem load_raw_prices_rows fs raw_data_dir raw prices_df :
  read_from_dir_as_df fs (path_join raw_data_dir "prices") ".csv" = Ok raw →
  "da_price_eur_mwh" ∉ columns raw →
  load_raw_prices fs raw_data_dir = Ok prices_df →
  "Sequence" ∈ columns raw ∧ "MTU (UTC)" ∈ columns raw ∧
  "Day-ahead Price (EUR/MWh)" ∈ columns raw ∧
  ∃ picked,
    picked ≡ₚ List.filter
                (λ row, bool_decide
                          (get "Sequence" row = Str "Sequence Sequence 1"))
                (rows raw) ∧
    Forall2 (λ raw_row row,
               dom row = list_to_set ["start_ts_utc"; "end_ts_utc";
                                      "da_price_eur_mwh"] ∧
               parsed_interval "%d/%m/%Y %H:%M:%S"
                 (get "MTU (UTC)" raw_row)
                 (get "start_ts_utc" row) (get "end_ts_utc" row) ∧
               get "da_price_eur_mwh" row
               = get "Day-ahead Price (EUR/MWh)" raw_row)
            picked (rows prices_df).
Proof.
  intros Hread Hfresh. unfold load_raw_prices. rewrite Hread. cbn [bind].
  case_decide as Hseq; [|done]. cbn [bind].
  set (filtered := where_ _ raw).
  set (renamed := rename _ _ filtered).
  intros (assigned & Hassign & (selected & Hselect & [= <-])%bind_Ok)%bind_Ok.
  pose proof (assign_intervals_columns _ _ _ Hassign) as [Hmtu Hcols].
  pose proof (select_columns _ _ _ Hselect) as Hsub.
  assert (Hprice : "Day-ahead Price (EUR/MWh)" ∈ columns raw).
  { assert ("da_price_eur_mwh" ∈ columns assigned) as Hin
      by (apply Hsub; do 2 right; left).
    apply Hcols in Hin as [Hin|Hin].
    - by apply new_in_rename_columns in Hin.
    - by vm_compute in Hin; repeat (apply elem_of_cons in Hin as [Hin|Hin];
        [done|]); apply elem_of_nil in Hin. }
  split_and!; [done| |done|].
  { by apply elem_of_rename_columns in Hmtu as [? _]. }
  apply select_Ok in Hselect as [_ Hrows].
  apply (Forall2_Permutation_r _ _ (rows selected)).
  2:{ unfold sort_values. cbn [rows]. by rewrite merge_sort_Permutation. }
  pose proof (read_from_dir_as_df_total _ _ _ _ Hread) as Htotal.
  rewrite Forall_forall in Htotal.
  destruct (assign_intervals_rows _ _ _ Hassign) as (Hlen & _ & _).
  apply Forall2_same_length_lookup_2.
  { rewrite Hrows, length_fmap, Hlen. subst renamed. unfold rename.
    cbn [rows]. by rewrite length_fmap. }
  intros i raw_row row Hraw Hrow.
  assert (Hin : raw_row ∈ rows raw).
  { apply list_elem_of_lookup_2, list_elem_of_In, filter_In in Hraw as [Hin _].
    by apply list_elem_of_In. }
  pose proof (Htotal _ Hin _ Hprice) as Hold.
  destruct (assign_intervals_lookup _ _ _ i
              (<["da_price_eur_mwh" := get "Day-ahead Price (EUR/MWh)" raw_row]>
                 (delete "Day-ahead Price (EUR/MWh)" raw_row)) Hassign)
    as (a & b & Hi & Hab).
  { subst renamed filtered. unfold rename, where_. cbn [rows].
    rewrite list_lookup_fmap, Hraw. csimpl. by rewrite Hold. }
  rewrite Hrows, list_lookup_fmap, Hi in Hrow. simplify_eq/=.
  split_and!.
  - apply set_eq. intros label. rewrite elem_of_dom, lookup_reindex.
    case_decide as Hl; set_unfold; [by split|]. split; [by intros []|].
    intros Hl'. destruct Hl. set_unfold. tauto.
  - rewrite !get_reindex by (repeat first [left | right; left | right]).
    rewrite get_insert_ne, get_insert, get_insert by done.
    rewrite !get_insert_ne, get_delete_ne in Hab by done. done.
  - rewrite get_reindex by (do 2 right; left).
    by rewrite !get_insert_ne, get_insert by done.
Qed.

(** X11. The load table, row by row.  For a consumption directory read as
    [raw] that has no column named [actual_load_mw] already: when the
    loader returns, [raw] has the interval and the load column, and the
    rows returned are, up to their order, all the rows of [raw], each one
    reduced to three cells: the start and the end parsed from its
    interval text, which here has no seconds, and its load. *)
Theorem load_raw_consumption_rows fs raw_data_dir raw cons_df :
  read_from_dir_as_df fs (path_join raw_data_dir "consumption") ".csv"
  = Ok raw →
  "actual_load_mw" ∉ columns raw →
  load_raw_consumption fs raw_data_dir = Ok cons_df →
  "MTU (UTC)" ∈ columns raw ∧ "Actual Total Load (MW)" ∈ columns raw ∧
  ∃ picked,
    picked ≡ₚ rows raw ∧
    Forall2 (λ raw_row row,
               dom row = list_to_set ["start_ts_utc"; "end_ts_utc";
                                      "actual_load_mw"] ∧
               parsed_interval "%d/%m/%Y %H:%M"
                 (get "MTU (UTC)" raw_row)
                 (get "start_ts_utc" row) (get "end_ts_utc" row) ∧
               get "actual_load_mw" row
               = get "Actual Total Load (MW)" raw_row)
            picked (rows cons_df).
Proof.
  intros Hread Hfresh. unfold load_raw_consumption. rewrite Hread. cbn [bind].
  intros (assigned & Hassign & (selected & Hselect & [= <-])%bind_Ok)%bind_Ok.
  pose proof (assign_intervals_columns _ _ _ Hassign) as [Hmtu Hcols].
  pose proof (select_columns _ _ _ Hselect) as Hsub.
  assert (Hload : "Actual Total Load (MW)" ∈ columns raw).
  { assert ("actual_load_mw" ∈ columns (rename "Actual Total Load (MW)"
              "actual_load_mw" assigned)) as Hin
      by (apply Hsub; do 2 right; left).
    destruct (decide ("actual_load_mw" ∈ columns assigned)) as [Hnew|Hnew].
    - apply Hcols in Hnew as [Hnew|Hnew]; [done|].
      by vm_compute in Hnew;
        repeat (apply elem_of_cons in Hnew as [Hnew|Hnew]; [done|]);
        apply elem_of_nil in Hnew.
    - apply new_in_rename_columns in Hin; [|done].
      apply Hcols in Hin as [Hin|Hin]; [done|].
      by vm_compute in Hin;
        repeat (apply elem_of_cons in Hin as [Hin|Hin]; [done|]);
        apply elem_of_nil in Hin. }
  split_and!; [done|done|].
  apply select_Ok in Hselect as [_ Hrows].
  apply (Forall2_Permutation_r _ _ (rows selected)).
  2:{ unfold sort_values. cbn [rows]. by rewrite merge_sort_Permutation. }
  pose proof (read_from_dir_as_df_total _ _ _ _ Hread) as Htotal.
  rewrite Forall_forall in Htotal.
  destruct (assign_intervals_rows _ _ _ Hassign) as (Hlen & _ & _).
  apply Forall2_same_length_lookup_2.
  { rewrite Hrows, length_fmap. unfold rename. cbn [rows].
    by rewrite length_fmap. }
  intros i raw_row row Hraw Hrow.
  assert (Hin : raw_row ∈ rows raw) by by eapply list_elem_of_lookup_2.
  pose proof (Htotal _ Hin _ Hload) as Hold.
  destruct (assign_intervals_lookup _ _ _ i raw_row Hassign Hraw)
    as (a & b & Hi & Hab).
  rewrite Hrows in Hrow. unfold rename in Hrow. cbn [rows] in Hrow.
  rewrite !list_lookup_fmap, Hi in Hrow. csimpl in Hrow.
  rewrite !lookup_insert_ne, Hold in Hrow by done. simplify_eq.
  split_and!.
  - apply set_eq. intros label. rewrite elem_of_dom, lookup_reindex.
    case_decide as Hl; set_unfold; [by split|]. split; [by intros []|].
    intros Hl'. destruct Hl. set_unfold. tauto.
  - rewrite !get_reindex by (repeat first [left | right; left | right]).
    rewrite !get_insert_ne by done.
    rewrite !get_delete_ne by done.
    by rewrite get_insert_ne, !get_insert by done.
  - rewrite get_reindex by (do 2 right; left).
    by rewrite get_insert.
Qed.

(** ** The order of the rows *)

Lemma row_leb_total by_ :
  Total (λ r1 r2 : gmap string cell, row_leb by_ r1 r2).
Proof.
  intros r1 r2. induction by_ as [|label by_ IH]; simpl; [by left|].
  destruct (cell_leb (get label r2) (get label r1)) eqn:H21; simpl;
    [|by left].
  destruct (cell_leb (get label r1) (get label r2)) eqn:H12; simpl;
    [|by right].
  done.
Qed.

Lemma starts_before_trans : Transitive starts_before.
Proof.
  intros r1 r2 r3. unfold starts_before.
  destruct (get _ r1), (get _ r2), (get _ r3); try done. lia.
Qed.

Lemma Sorted_impl_Forall {A} (R R' : relation A) (P : A → Prop) l :
  (∀ x y, P x → P y → R x y → R' x y) →
  Forall P l → Sorted R l → Sorted R' l.
Proof.
  intros Himpl HP HS. induction HS as [|x l _ IH Hhd]; [constructor|].
  apply Forall_cons_1 in HP as [Hx Hl]. constructor; [by apply IH|].
  destruct Hhd as [|y l Hxy]; constructor.
  apply Forall_cons_1 in Hl as [Hy _]. by apply Himpl.
Qed.

Lemma row_leb_starts_before (r1 r2 : gmap string cell) :
  is_utc (get "start_ts_utc" r1) → is_utc (get "start_ts_utc" r2) →
  row_leb ["start_ts_utc"] r1 r2 → starts_before r1 r2.
Proof.
  unfold starts_before. cbn [row_leb].
  intros [->|[x ->]] [->|[y ->]]; cbn; try done.
  destruct (x <=? y) eqn:Hxy; [intros _; lia|].
  destruct (y <=? x) eqn:Hyx; [done|]. lia.
Qed.

Lemma sort_values_starts_before df :
  well_keyed df →
  StronglySorted starts_before (rows (sort_values df ["start_ts_utc"])).
Proof.
  intros Hkeyed.
  pose proof starts_before_trans as Htrans.
  pose proof (row_leb_total ["start_ts_utc"]) as Htotal.
  apply Sorted_StronglySorted; [done|].
  unfold sort_values. cbn [rows].
  eapply (Sorted_impl_Forall _ _
            (λ row, is_utc (get "start_ts_utc" row))).
  - apply row_leb_starts_before.
  - rewrite merge_sort_Permutation. eapply Forall_impl; [exact Hkeyed|].
    intros row Hrow. by apply Forall_cons_1 in Hrow as [? _].
  - apply (Sorted_merge_sort _).
Qed.

Lemma same_start_sorted (c : cell) l :
  Forall (λ row, get "start_ts_utc" row = c) l →
  StronglySorted starts_before l.
Proof.
  induction 1 as [|row l Hrow Hl IH]; constructor; [done|].
  eapply Forall_impl; [exact Hl|]. intros row' Hrow'.
  unfold starts_before. rewrite Hrow, Hrow'. by destruct c.
Qed.

Lemma starts_before_ext (r1 r2 r1' r2' : gmap string cell) :
  get "start_ts_utc" r1' = get "start_ts_utc" r1 →
  get "start_ts_utc" r2' = get "start_ts_utc" r2 →
  starts_before r1 r2 → starts_before r1' r2'.
Proof. unfold starts_before. by intros -> ->. Qed.

Lemma bind_starts_before (f : gmap string cell → list (gmap string cell)) l :
  (∀ row row', row' ∈ f row →
               get "start_ts_utc" row' = get "start_ts_utc" row) →
  StronglySorted starts_before l → StronglySorted starts_before (l ≫= f).
Proof.
  intros Hf. induction 1 as [|row l _ IH Hrow]; [constructor|].
  rewrite bind_cons. apply StronglySorted_app. split_and!; [|..|done].
  - intros r1 r2 H1 (row' & H2 & Hrow')%list_elem_of_bind.
    rewrite Forall_forall in Hrow.
    eapply starts_before_ext; [by apply Hf..|]. by apply Hrow.
  - apply (same_start_sorted (get "start_ts_utc" row)).
    apply Forall_forall. intros row'. apply Hf.
Qed.

Lemma merge_starts_before left right :
  StronglySorted starts_before (rows left) →
  StronglySorted starts_before (rows (merge left right interval_key)).
Proof.
  intros Hleft. unfold merge. cbn [rows].
  apply bind_starts_before; [|done]. intros row row' Hrow'.
  assert (∃ r, row' = row ∪ reindex (list_difference (columns right)
                                       interval_key) r) as [r ->].
  { destruct (List.filter _ (rows right)) as [|r matches].
    - apply list_elem_of_singleton in Hrow'. by exists ∅.
    - apply list_elem_of_fmap in Hrow' as (r' & -> & _). by exists r'. }
  apply get_union_l. rewrite lookup_reindex, decide_False; [done|].
  rewrite list_elem_of_difference. intros [_ []]. left.
Qed.

Lemma cleaned_Ts c x : cleaned c = Ts x ↔ c = Ts x.
Proof. rewrite cleaned_spec. case_decide as H; [|done]. by destruct H as [->| ->]. Qed.

Lemma replace_starts_before df :
  StronglySorted starts_before (rows df) →
  StronglySorted starts_before
    (rows (replace [Str "n/e"; Str "-"] NaN df)).
Proof.
  unfold replace. cbn [rows]. apply StronglySorted_fmap.
  intros r1 r2. unfold starts_before. rewrite !get_fmap by done.
  fold (cleaned (get "start_ts_utc" r1)) (cleaned (get "start_ts_utc" r2)).
  destruct (cleaned (get _ r2)) eqn:H2; try by destruct (cleaned (get _ r1)).
  apply cleaned_Ts in H2 as ->.
  destruct (cleaned (get _ r1)) eqn:H1.
  all: try (apply cleaned_Ts in H1 as ->; done).
  all: destruct (get _ r1) eqn:H1'; try done.
  all: by apply cleaned_Ts in H1.
Qed.

(** X12. The load table comes out in the order of the interval starts,
    earliest first, with the rows whose start is missing at the end. *)
Theorem load_raw_consumption_sorted fs raw_data_dir cons_df :
  load_raw_consumption fs raw_data_dir = Ok cons_df →
  StronglySorted starts_before (rows cons_df).
Proof.
  unfold load_raw_consumption.
  intros (raw & _ & (assigned & Hassign
    & (selected & Hselect & [= <-])%bind_Ok)%bind_Ok)%bind_Ok.
  apply sort_values_starts_before.
  eapply well_keyed_select; [done| |].
  { apply interval_key_subseteq; [left | right; left]. }
  apply well_keyed_column. rewrite !get_rename by done.
  apply well_keyed_column. by eapply well_keyed_assign_intervals.
Qed.

(** X13. The merged table keeps the order of the price table: its rows
    come in the order of the interval starts, earliest first, with the
    rows whose start is missing at the end; the two joins and the
    cleaning pass do not reorder them. *)
Theorem load_raw_data_from_dir_sorted fs merged_data :
  load_raw_data_from_dir fs = Ok merged_data →
  StronglySorted starts_before (rows merged_data).
Proof.
  intros (prices_df & cons_df & prod_df & Hprices & _ & _ & ->)
    %load_raw_data_from_dir_Ok.
  apply replace_starts_before. do 2 apply merge_starts_before.
  revert Hprices. unfold load_raw_prices.
  intros (raw & _ & (filtered & _ & (assigned & Hassign
    & (selected & Hselect & [= <-])%bind_Ok)%bind_Ok)%bind_Ok)%bind_Ok.
  apply sort_values_starts_before.
  eapply well_keyed_select; [done| |by eapply well_keyed_assign_intervals].
  apply interval_key_subseteq; [left | right; left].
Qed.

(** ** The columns of the generation table *)

Lemma cell_leb_total : Total (λ a b : cell, cell_leb a b).
Proof.
  intros a b. destruct a as [s1|x| |m|m| ], b as [s2|y| |n|n| ];
    try (by left); try (by right); unfold cell_leb.
  - unfold String.leb. rewrite (String.compare_antisym s1 s2).
    destruct (String.compare s2 s1); cbn; auto.
  - destruct (Qlt_le_dec y x) as [Hlt|Hle].
    + right. apply Is_true_true, Qle_bool_iff. by apply Qlt_le_weak.
    + left. by apply Is_true_true, Qle_bool_iff.
  - destruct (Z.leb_spec m n); [by left|right].
    apply Is_true_true, Z.leb_le. lia.
  - destruct (Z.leb_spec m n); [by left|right].
    apply Is_true_true, Z.leb_le. lia.
Qed.

Lemma Sorted_StronglySorted_Forall {A} (R : relation A) (P : A → Prop) l :
  (∀ x y z, P x → P y → P z → R x y → R y z → R x z) →
  Forall P l → Sorted R l → StronglySorted R l.
Proof.
  intros Htrans HP HS. induction HS as [|x l _ IH Hhd]; [constructor|].
  apply Forall_cons_1 in HP as [Hx Hl]. specialize (IH Hl).
  constructor; [done|].
  destruct Hhd as [|y l Hxy]; [constructor|].
  apply Forall_cons_1 in Hl as [Hy Hl].
  apply StronglySorted_cons in IH as [Hyl _].
  constructor; [done|].
  rewrite Forall_forall in Hyl, Hl. apply Forall_forall. intros z Hz.
  apply (Htrans x y z); auto.
Qed.

Ltac each_renewable H :=
  repeat (apply elem_of_cons in H as [->|H]);
  [| | |by apply elem_of_nil in H].

Lemma heads_present_types (long : DataFrame) :
  Forall (λ row, get "production_type" row ∈ Str <$> renewable_types)
         (rows long) →
  merge_sort (λ a b, cell_leb a b)
             (remove_dups (get "production_type" <$> rows long))
  = Str <$> present_types long.
Proof.
  intros Htypes.
  set (heads := merge_sort _ _).
  assert (Hin : ∀ head, head ∈ heads ↔ head ∈ column long "production_type").
  { intros head. subst heads.
    by rewrite merge_sort_Permutation, elem_of_remove_dups. }
  assert (Hrenewable : Forall (.∈ Str <$> renewable_types) heads).
  { apply Forall_forall. intros head (row & -> & Hrow)%Hin%list_elem_of_fmap.
    rewrite Forall_forall in Htypes. by apply Htypes. }
  apply (StronglySorted_unique_strong (λ a b : cell, cell_leb a b)).
  - intros a b Ha (t & -> & Hb)%list_elem_of_fmap.
    rewrite Forall_forall in Hrenewable. apply Hrenewable in Ha.
    apply list_elem_of_In, filter_In in Hb as [Hb%list_elem_of_In _].
    each_renewable Ha; each_renewable Hb; by vm_compute.
  - apply (Sorted_StronglySorted_Forall _ (.∈ Str <$> renewable_types));
      [|done|pose proof cell_leb_total; apply (Sorted_merge_sort _)].
    intros a b c Ha Hb Hc.
    each_renewable Ha; each_renewable Hb; each_renewable Hc; by vm_compute.
  - unfold present_types, renewable_types.
    rewrite !filter_cons_bool. cbn [List.filter].
    repeat destruct (bool_decide _); repeat constructor; by vm_compute.
  - apply NoDup_Permutation.
    + subst heads. rewrite merge_sort_Permutation. apply NoDup_remove_dups.
    + apply NoDup_fmap_2; [by intros x y [=]|]. unfold present_types.
      apply NoDup_ListNoDup, List.NoDup_filter, NoDup_ListNoDup.
      by apply (bool_decide_unpack _).
    + intros head. rewrite Hin. unfold present_types. split.
      * intros Hhead. assert (Hr := Hhead).
        apply list_elem_of_fmap in Hr as (row & -> & Hrow).
        rewrite Forall_forall in Htypes. specialize (Htypes _ Hrow).
        apply list_elem_of_fmap in Htypes as (t & Ht & Hrt).
        rewrite Ht. apply list_elem_of_fmap_2.
        apply list_elem_of_In, filter_In. split; [by apply list_elem_of_In|].
        apply bool_decide_eq_true. by rewrite <- Ht.
      * intros (t & -> & Ht)%list_elem_of_fmap.
        apply list_elem_of_In, filter_In in Ht as [_ Ht].
        by apply bool_decide_eq_true in Ht.
Qed.

Lemma get_relabelled (f : string → string) labels (row : gmap string cell)
    label :
  NoDup (f <$> labels) → label ∈ labels → f label ∉ interval_key →
  get (f label)
      (list_to_map (zip (interval_key ++ (f <$> labels))
                        (key_of (interval_key ++ labels) row)))
  = get label row.
Proof.
  intros Hnd Hin Hkey. unfold key_of at 1.
  rewrite fmap_app, zip_with_app by done.
  rewrite list_to_map_app. unfold get at 1.
  rewrite lookup_union_r.
  2: { apply not_elem_of_list_to_map_1. by rewrite fst_zip. }
  assert (zip (f <$> labels) ((λ label, get label row) <$> labels)
          = (λ label, (f label, get label row)) <$> labels) as ->.
  { clear. induction labels as [|l labels IH]; [done|]. csimpl.
    by rewrite IH. }
  by rewrite (lookup_list_to_map_fmap f (λ l, get l row) labels label).
Qed.

Lemma dom_list_to_map_zip (labels : list string) (cells : list cell) :
  length labels = length cells →
  dom (list_to_map (zip labels cells) : gmap string cell)
  = list_to_set labels.
Proof.
  intros Hlen. rewrite dom_list_to_map_L. by rewrite fst_zip by lia.
Qed.

Lemma pivot_sorted index columns_ values df wide :
  pivot index columns_ values df = Ok wide →
  columns wide
  = index ++ (label_of <$> merge_sort (λ a b, cell_leb a b)
                             (remove_dups (get columns_ <$> rows df))) ∧
  ∃ keys,
    (∀ key, key ∈ keys → key ∈ key_of index <$> rows df) ∧
    rows wide =
      (λ key,
         list_to_map (zip index key)
         ∪ list_to_map
             ((λ head,
                 (label_of head,
                  match List.filter
                          (λ row, bool_decide (key_of index row = key
                                               ∧ get columns_ row = head))
                          (rows df) with
                  | row :: _ => get values row
                  | [] => NaN
                  end))
                <$> merge_sort (λ a b, cell_leb a b)
                      (remove_dups (get columns_ <$> rows df))))
        <$> keys.
Proof.
  unfold pivot. case_decide as Hnd; [|done]. intros [= <-].
  split; [done|]. eexists. split; [|reflexivity].
  intros key. by rewrite merge_sort_Permutation, elem_of_remove_dups.
Qed.

(** X14. The columns of the generation table.  After the two key columns
    comes one column for each renewable production type that occurs in
    the long table, in the order Solar, Wind Offshore, Wind Onshore; a
    type that does not occur has no column.  Every row carries exactly
    these labels, and its cell for a type is the generation of the long
    row with the same interval and that type, [NaN] when there is none. *)
Theorem load_raw_production_columns fs raw_data_dir long wide :
  production_long fs raw_data_dir = Ok long →
  load_raw_production fs raw_data_dir = Ok wide →
  columns wide
  = "start_ts_utc" :: "end_ts_utc"
      :: (generation_label <$> present_types long) ∧
  ∀ wide_row, wide_row ∈ rows wide →
    dom wide_row = list_to_set (columns wide) ∧
    ∀ t, t ∈ present_types long →
      get (generation_label t) wide_row
      = match List.filter
                (λ row, bool_decide
                   (key_of interval_key row = key_of interval_key wide_row
                    ∧ get "production_type" row = Str t))
                (rows long) with
        | row :: _ => get "actual_generation_mw" row
        | [] => NaN
        end.
Proof.
  intros Hlong. unfold load_raw_production. rewrite Hlong. cbn [bind].
  pose proof (production_long_types _ _ _ Hlong) as Htypes.
  pose proof (heads_present_types long Htypes) as Hheads.
  intros (pivoted & Hpivot & [= <-])%bind_Ok.
  apply pivot_sorted in Hpivot as (Hcols & keys & Hkeys & Hrows).
  rewrite Hheads in Hcols, Hrows. clear Hheads.
  set (types := present_types long) in *.
  assert (Hrenewable : ∀ t, t ∈ types → Str t ∈ Str <$> renewable_types).
  { intros t Ht. apply list_elem_of_fmap_2.
    by apply list_elem_of_In, filter_In in Ht as [?%list_elem_of_In _]. }
  assert (Htypes_nd : NoDup types).
  { apply NoDup_ListNoDup, List.NoDup_filter, NoDup_ListNoDup.
    by apply (bool_decide_unpack _). }
  rewrite <- list_fmap_compose in Hcols.
  assert (Hlab : label_of ∘ Str <$> types = types)
    by exact (list_fmap_id types).
  rewrite Hlab in Hcols. clear Hlab.
  unfold set_columns. cbn [columns rows]. rewrite Hcols, Hrows.
  change (take 2 (["start_ts_utc"; "end_ts_utc"] ++ ?l)) with interval_key.
  change (drop 2 (["start_ts_utc"; "end_ts_utc"] ++ ?l)) with l.
  rewrite <- !list_fmap_compose.
  split; [done|].
  intros wide_row (key & -> & Hkey)%list_elem_of_fmap. unfold compose.
  apply Hkeys in Hkey as (row0 & -> & _)%list_elem_of_fmap.
  set (key := key_of _ row0).
  assert (Hkey : ∃ a b, key = [a; b]) by (by eexists _, _).
  destruct Hkey as (a & b & Hkey). rewrite Hkey. clearbody key. subst key.
  set (value_at := λ head : cell, (label_of head, _)).
  set (pivot_row := _ ∪ _).
  split.
  - rewrite dom_list_to_map_zip; [done|].
    unfold key_of, interval_key. by rewrite !length_app, !length_fmap.
  - intros t Ht.
    rewrite (key_of_set_columns (generation_label <$> types) types).
    assert (Hk : key_of interval_key pivot_row = [a; b])
      by apply key_of_pivot_row.
    rewrite Hk. change ["start_ts_utc"; "end_ts_utc"] with interval_key.
    rewrite (get_relabelled generation_label types pivot_row t).
    + unfold get, pivot_row. rewrite lookup_union_r.
      * subst value_at.
        by rewrite (lookup_list_to_map_fmap label_of _ (Str <$> types)
                      (Str t));
          [| rewrite <- list_fmap_compose;
             by rewrite (list_fmap_id types : label_of ∘ Str <$> types = _)
           | apply list_elem_of_fmap_2].
      * apply not_elem_of_list_to_map_1. rewrite fst_zip by done.
        by apply (renewable_not_key (Str t)), Hrenewable.
    + apply NoDup_fmap_2_strong; [|done].
      intros x y Hx Hy Heq.
      assert (Str x = Str y) as [= ->]; [|done].
      apply generation_label_renewable; auto.
    + done.
    + by apply (renewable_not_key (Str t)), Hrenewable.
Qed.

(** ** The merged table, column by column *)

Lemma load_raw_consumption_Ok fs raw_data_dir cons_df :
  load_raw_consumption fs raw_data_dir = Ok cons_df →
  columns cons_df = ["start_ts_utc"; "end_ts_utc"; "actual_load_mw"] ∧
  Forall (λ row, ∀ label,
            is_Some (row !! label) ↔ label ∈ columns cons_df)
         (rows cons_df).
Proof.
  unfold load_raw_consumption.
  intros (raw & _ & (assigned & _
    & (selected & Hselect & [= <-])%bind_Ok)%bind_Ok)%bind_Ok.
  pose proof (select_Ok _ _ _ Hselect) as [Hcols Hrows].
  split; [done|].
  simpl. rewrite merge_sort_Permutation, Hrows, Hcols.
  apply Forall_fmap, Forall_forall. intros row _ label. unfold compose.
  rewrite lookup_reindex. case_decide; [|split; [by intros []|done]].
  split; [done|by eexists].
Qed.

Lemma load_raw_production_Ok fs raw_data_dir prod_df :
  load_raw_production fs raw_data_dir = Ok prod_df →
  ∃ heads,
    Forall (.∈ Str <$> renewable_types) heads ∧
    columns prod_df
    = interval_key ++ (generation_label <$> (label_of <$> heads)).
Proof.
  unfold load_raw_production.
  intros (long & Hlong & (wide & Hpivot & [= <-])%bind_Ok)%bind_Ok.
  apply pivot_Ok in Hpivot
    as (_ & keys & heads & _ & _ & _ & Hin & Hcols & _).
  exists heads. split.
  - pose proof (production_long_types _ _ _ Hlong) as Htypes.
    rewrite Forall_forall in Htypes. apply Forall_forall.
    intros head (row & -> & Hrow)%Hin%list_elem_of_fmap. by apply Htypes.
  - unfold set_columns. cbn [columns]. by rewrite Hcols.
Qed.

Lemma generation_label_fresh (a : cell) :
  a ∈ (Str <$> renewable_types) →
  generation_label (label_of a)
  ∉ ["start_ts_utc"; "end_ts_utc"; "da_price_eur_mwh"; "actual_load_mw"].
Proof.
  intros Ha. each_renewable Ha; intros Hin;
    repeat (apply elem_of_cons in Hin as [Hin|Hin]; [by vm_compute in Hin|]);
    by apply elem_of_nil in Hin.
Qed.

Lemma is_Some_lookup_reindex labels row label :
  is_Some (reindex labels row !! label) ↔ label ∈ labels.
Proof.
  rewrite lookup_reindex. case_decide; [by split|]. split; [by intros []|done].
Qed.

Lemma list_difference_fresh (labels : list string) :
  Forall (.∉ interval_key) labels →
  list_difference (interval_key ++ labels) interval_key = labels.
Proof.
  intros Hfresh. unfold interval_key at 1. cbn [app list_difference].
  destruct (decide_rel _ "start_ts_utc" interval_key) as [_|[]]; [|left].
  destruct (decide_rel _ "end_ts_utc" interval_key) as [_|[]];
    [|right; left].
  induction Hfresh as [|l labels Hl _ IH]; [done|]. cbn [list_difference].
  destruct (decide_rel _ l interval_key); [done|]. by rewrite IH.
Qed.

(** X15. The columns of the merged table: the two key columns, the price,
    the load, and then the generation columns of the generation table in
    their order.  Every row has a cell under each of them and under no
    other label. *)
Theorem load_raw_data_from_dir_columns fs prod_df merged_data :
  load_raw_production fs "../data/raw/" = Ok prod_df →
  load_raw_data_from_dir fs = Ok merged_data →
  columns merged_data
  = ["start_ts_utc"; "end_ts_utc"; "da_price_eur_mwh"; "actual_load_mw"]
    ++ drop 2 (columns prod_df) ∧
  ∀ row, row ∈ rows merged_data →
    dom row = list_to_set (columns merged_data).
Proof.
  intros Hprod (prices_df & cons_df & prod_df' & Hprices & Hcons & Hprod'
                & ->)%load_raw_data_from_dir_Ok.
  rewrite Hprod in Hprod'. injection Hprod' as <-.
  destruct (load_raw_prices_Ok _ _ _ Hprices) as (Hpc & _ & Hprows).
  destruct (load_raw_consumption_Ok _ _ _ Hcons) as (Hcc & _).
  destruct (load_raw_production_Ok _ _ _ Hprod) as (heads & Hheads & Hgc).
  assert (Hextra : list_difference (columns prod_df) interval_key
                   = drop 2 (columns prod_df)).
  { rewrite Hgc. apply list_difference_fresh.
    rewrite <- list_fmap_compose. apply Forall_fmap.
    eapply Forall_impl; [exact Hheads|]. intros head Hhead.
    by apply renewable_not_key. }
  assert (Hcols : columns (replace [Str "n/e"; Str "-"] NaN
                    (merge (merge prices_df cons_df interval_key) prod_df
                       interval_key))
          = ["start_ts_utc"; "end_ts_utc"; "da_price_eur_mwh";
             "actual_load_mw"] ++ drop 2 (columns prod_df)).
  { unfold replace, merge. cbn [columns]. by rewrite Hpc, Hcc, Hextra. }
  split; [done|]. rewrite Hcols.
  unfold replace. cbn [rows].
  intros row (merged_row & -> & Hrow)%list_elem_of_fmap.
  rewrite dom_fmap_L.
  apply elem_of_merge_rows in Hrow as (left_row & r2 & Hleft & ->).
  apply elem_of_merge_rows in Hleft as (price_row & r1 & Hprice & ->).
  rewrite Forall_forall in Hprows. specialize (Hprows _ Hprice).
  rewrite Hextra, Hcc.
  apply set_eq. intros label.
  rewrite !dom_union_L, !elem_of_union, !elem_of_dom, Hprows, Hpc.
  rewrite !is_Some_lookup_reindex.
  change (list_difference _ interval_key) with ["actual_load_mw"].
  set_unfold. tauto.
Qed.

Lemma elem_of_merge_rows_matched left right row' :
  row' ∈ rows (merge left right interval_key) →
  ∃ left_row r,
    left_row ∈ rows left ∧
    row' = left_row
           ∪ reindex (list_difference (columns right) interval_key) r ∧
    ((count_key (key_of interval_key left_row) right = 0%nat ∧ r = ∅) ∨
     (r ∈ rows right ∧
      key_of interval_key r = key_of interval_key left_row)).
Proof.
  unfold merge, count_key. cbn [rows].
  intros (left_row & Hrow' & Hleft)%list_elem_of_bind.
  destruct (List.filter _ (rows right)) as [|r matches] eqn:Hfilter.
  - apply list_elem_of_singleton in Hrow'. exists left_row, ∅.
    split_and!; [done|done|]. left. by rewrite Hfilter.
  - apply list_elem_of_fmap in Hrow' as (r' & -> & Hr').
    exists left_row, r'. split_and!; [done|done|]. right.
    rewrite <- Hfilter in Hr'.
    apply list_elem_of_In, filter_In in Hr' as [Hin Hkey].
    split; [by apply list_elem_of_In|by apply bool_decide_eq_true in Hkey].
Qed.

Lemma get_union_Some label (r1 r2 : gmap string cell) :
  is_Some (r1 !! label) → get label (r1 ∪ r2) = get label r1.
Proof.
  intros [c Hc]. unfold get. by rewrite (lookup_union_Some_l _ _ _ c), Hc.
Qed.

Lemma get_union_None label (r1 r2 : gmap string cell) :
  r1 !! label = None → get label (r1 ∪ r2) = get label r2.
Proof. intros H1. unfold get. by rewrite lookup_union_r. Qed.

(** X16. Where the cells of the merged table come from.  Every row comes
    from a row of the price table and has its key and its price.  Its
    load is that of a load row with the same key, and is [NaN] when the
    load table has no such row; its generation cells are those of the
    generation row with the same key, and are [NaN] when the generation
    table has no such row.  Every cell has gone through [cleaned]. *)
Theorem load_raw_data_from_dir_joined fs merged_data :
  load_raw_data_from_dir fs = Ok merged_data →
  ∃ prices_df cons_df prod_df,
    load_raw_prices fs "../data/raw/" = Ok prices_df ∧
    load_raw_consumption fs "../data/raw/" = Ok cons_df ∧
    load_raw_production fs "../data/raw/" = Ok prod_df ∧
    ∀ row, row ∈ rows merged_data →
      ∃ price_row load_row generation_row,
        price_row ∈ rows prices_df ∧
        key_of interval_key row = key_of interval_key price_row ∧
        get "da_price_eur_mwh" row
        = cleaned (get "da_price_eur_mwh" price_row) ∧
        get "actual_load_mw" row
        = cleaned (get "actual_load_mw" load_row) ∧
        (∀ label, label ∈ drop 2 (columns prod_df) →
                  get label row = cleaned (get label generation_row)) ∧
        ((count_key (key_of interval_key price_row) cons_df = 0%nat
          ∧ load_row = ∅) ∨
         (load_row ∈ rows cons_df ∧
          key_of interval_key load_row
          = key_of interval_key price_row)) ∧
        ((count_key (key_of interval_key price_row) prod_df = 0%nat
          ∧ generation_row = ∅) ∨
         (generation_row ∈ rows prod_df ∧
          key_of interval_key generation_row
          = key_of interval_key price_row)).
Proof.
  intros (prices_df & cons_df & prod_df & Hprices & Hcons & Hprod & ->)
    %load_raw_data_from_dir_Ok.
  exists prices_df, cons_df, prod_df. split_and!; [done..|].
  destruct (load_raw_prices_Ok _ _ _ Hprices) as (Hpc & Hkeyed & Hprows).
  destruct (load_raw_consumption_Ok _ _ _ Hcons) as (Hcc & _).
  destruct (load_raw_production_Ok _ _ _ Hprod) as (heads & Hheads & Hgc).
  assert (Hextra : list_difference (columns prod_df) interval_key
                   = drop 2 (columns prod_df)).
  { rewrite Hgc. apply list_difference_fresh.
    rewrite <- list_fmap_compose. apply Forall_fmap.
    eapply Forall_impl; [exact Hheads|]. intros head Hhead.
    by apply renewable_not_key. }
  unfold replace. cbn [rows].
  intros row (merged_row & -> & Hrow)%list_elem_of_fmap.
  assert (Hutc : Forall is_utc (key_of interval_key merged_row)).
  { pose proof (well_keyed_merge _ prod_df
                  (well_keyed_merge _ cons_df Hkeyed)) as Hm.
    unfold well_keyed in Hm. rewrite Forall_forall in Hm. by apply Hm. }
  change (replace_cell [Str "n/e"; Str "-"] NaN) with cleaned.
  rewrite (key_of_cleaned _ Hutc).
  apply elem_of_merge_rows_matched in Hrow
    as (left_row & generation_row & Hleft & -> & Hgen).
  apply elem_of_merge_rows_matched in Hleft
    as (price_row & load_row & Hprice & -> & Hload).
  rewrite key_of_merged in Hgen. rewrite !key_of_merged.
  exists price_row, load_row, generation_row.
  rewrite Forall_forall in Hprows. specialize (Hprows _ Hprice).
  rewrite Hpc in Hprows. rewrite Hextra, Hcc.
  change (list_difference _ interval_key) with ["actual_load_mw"].
  split_and!; [done|done| | | |done|done].
  - rewrite get_fmap by done. f_equal.
    assert (is_Some (price_row !! "da_price_eur_mwh")) as Hp
      by (apply Hprows; do 2 right; left).
    rewrite get_union_Some, get_union_Some; [done|done|].
    destruct Hp as [c Hc]. exists c. by apply lookup_union_Some_l.
  - rewrite get_fmap by done. f_equal.
    assert (price_row !! "actual_load_mw" = None) as Hp.
    { apply eq_None_not_Some. rewrite Hprows. by apply (bool_decide_unpack _). }
    rewrite get_union_Some.
    + rewrite get_union_None by done. apply get_reindex. left.
    + rewrite lookup_union_r by done. apply is_Some_lookup_reindex. left.
  - intros label Hlabel. rewrite get_fmap by done. f_equal.
    assert (label ∉ ["start_ts_utc"; "end_ts_utc"; "da_price_eur_mwh";
                     "actual_load_mw"]) as Hfresh.
    { rewrite Hgc in Hlabel. cbn [drop interval_key app] in Hlabel.
      apply list_elem_of_fmap in Hlabel as (l & -> & Hl).
      apply list_elem_of_fmap in Hl as (head & -> & Hhead).
      rewrite Forall_forall in Hheads.
      by apply generation_label_fresh, Hheads. }
    rewrite get_union_None.
    + by apply get_reindex.
    + apply lookup_union_None. split.
      * apply eq_None_not_Some. rewrite Hprows. contradict Hfresh.
        set_unfold. tauto.
      * rewrite lookup_reindex, decide_False; [done|]. contradict Hfresh.
        set_unfold. tauto.
Qed.

(** ** The two interval formats *)

(** The format without seconds reads a text rendered with seconds up to
    the minutes and leaves the seconds over. *)
Lemma match_items_seconds_left f :
  valid_fields f →
  match_items items_without_seconds (render items_with_seconds f)
              default_fields
  = Some (shown items_without_seconds f default_fields,
          String ":" (pad2 (f_second f) "")).
Proof.
  intros Hf. unfold items_with_seconds, items_without_seconds.
  cbn [shown]. repeat match_step Hf. reflexivity.
Qed.

Lemma strptime_seconds_left f :
  valid_fields f →
  strptime "%d/%m/%Y %H:%M" (render items_with_seconds f)
  = Raise (ValueError (UnconvertedDataRemains
                         (render items_with_seconds f))).
Proof.
  intros Hf. unfold strptime.
  assert (compile_format "%d/%m/%Y %H:%M" = Some items_without_seconds)
    as -> by by vm_compute.
  by rewrite match_items_seconds_left.
Qed.

(** X17. The load loader refuses intervals written with seconds.  The
    load table is read with the format "%d/%m/%Y %H:%M", the price and
    the generation table with "%d/%m/%Y %H:%M:%S"; a consumption file
    with one interval text in the format of the other two tables makes
    [load_raw_consumption] raise. *)
Theorem load_raw_consumption_refuses_seconds fs raw_data_dir raw s :
  read_from_dir_as_df fs (path_join raw_data_dir "consumption") ".csv"
  = Ok raw →
  well_formed_interval "%d/%m/%Y %H:%M:%S" s →
  Str s ∈ column raw "MTU (UTC)" →
  raises (load_raw_consumption fs raw_data_dir).
Proof.
  intros Hread (items & fa & fb & Hitems & Hfa & _ & Hfb & _ & ->) Hin.
  assert (compile_format "%d/%m/%Y %H:%M:%S" = Some items_with_seconds)
    as Hc by by vm_compute.
  rewrite Hc in Hitems. injection Hitems as <-.
  unfold load_raw_consumption. rewrite Hread. cbn [bind].
  unfold assign_intervals, getitem. case_decide; [|by eexists]. cbn [bind].
  destruct (parse_intervals_rejects "%d/%m/%Y %H:%M"
              (column raw "MTU (UTC)")) as [e ->];
    [|by eexists].
  left. eexists _, (render items_with_seconds fa).
  split_and!; [done| | |].
  - rewrite split_joined by (apply render_no_dash; auto). left.
  - apply render_not_null. by left.
  - rewrite strptime_seconds_left by done. by eexists.
Qed.

(** A directive fails on a rendered field when what follows fails both
    after the whole field and after its first digit alone. *)
Ltac run_failing :=
  let rest := fresh "rest" in let k := fresh "k" in
  let Hrest := fresh "Hrest" in let Hdigit := fresh "Hdigit" in
  intros ? rest k Hrest Hdigit; vm_compute;
  repeat first [rewrite Hrest | rewrite Hdigit by reflexivity];
  reflexivity.

Lemma first_alternative_day_fails n : 1 ≤ n ≤ 31 →
  ∀ A rest (k : Z → string → option A),
    (∀ v, k v rest = None) →
    (∀ v c s, in_range "0" "9" c = true → k v (String c s) = None) →
    first_alternative (alternatives Dd) (pad2 n rest) k = None.
Proof.
  intros Hn. pattern n. apply (Forall_seqZ _ 1 31); [|lia].
  each_of_range run_failing.
Qed.

Lemma first_alternative_month_fails n : 1 ≤ n ≤ 12 →
  ∀ A rest (k : Z → string → option A),
    (∀ v, k v rest = None) →
    (∀ v c s, in_range "0" "9" c = true → k v (String c s) = None) →
    first_alternative (alternatives Dm) (pad2 n rest) k = None.
Proof.
  intros Hn. pattern n. apply (Forall_seqZ _ 1 12); [|lia].
  each_of_range run_failing.
Qed.

Lemma first_alternative_year_fails n : 1677 ≤ n ≤ 2262 →
  ∀ A rest (k : Z → string → option A),
    (∀ v, k v rest = None) →
    (∀ v c s, in_range "0" "9" c = true → k v (String c s) = None) →
    first_alternative (alternatives DY) (pad4 n rest) k = None.
Proof.
  intros Hn. pattern n. apply (Forall_seqZ _ 1677 586); [|lia].
  each_of_range run_failing.
Qed.

Lemma first_alternative_hour_fails n : 0 ≤ n < 24 →
  ∀ A rest (k : Z → string → option A),
    (∀ v, k v rest = None) →
    (∀ v c s, in_range "0" "9" c = true → k v (String c s) = None) →
    first_alternative (alternatives DH) (pad2 n rest) k = None.
Proof.
  intros Hn. pattern n. apply (Forall_seqZ _ 0 24); [|lia].
  each_of_range run_failing.
Qed.

Lemma first_alternative_minute_fails n : 0 ≤ n < 60 →
  ∀ A rest (k : Z → string → option A),
    (∀ v, k v rest = None) →
    (∀ v c s, in_range "0" "9" c = true → k v (String c s) = None) →
    first_alternative (alternatives DM) (pad2 n rest) k = None.
Proof.
  intros Hn. pattern n. apply (Forall_seqZ _ 0 60); [|lia].
  each_of_range run_failing.
Qed.

Lemma digit_not_space c : in_range "0" "9" c = true → is_space c = false.
Proof.
  unfold in_range, is_space. cbv zeta. generalize (N_of_ascii c). intros n.
  change (N_of_ascii "0") with 48%N. change (N_of_ascii "9") with 57%N.
  intros [H1%N.leb_le H2%N.leb_le]%andb_true_iff.
  apply orb_false_iff. split; apply andb_false_iff.
  - right. apply N.leb_gt. lia.
  - right. apply N.leb_gt. lia.
Qed.

Ltac literal_fails l :=
  let c := fresh "c" in let Hc := fresh "Hc" in
  intros ? c ? Hc;
  destruct (Ascii.eqb_spec l c) as [<-|]; [by vm_compute in Hc|done].

(** The format with seconds does not match a text rendered without. *)
Lemma match_items_seconds_missing f acc :
  valid_fields f →
  match_items items_with_seconds (render items_without_seconds f) acc
  = None.
Proof.
  intros Hf. unfold items_with_seconds, items_without_seconds.
  cbn [render render_directive match_items].
  rewrite ?string_app_cons, ?string_app_nil_l.
  apply first_alternative_day_fails;
    [exact (valid_fields_ranges _ Dd Hf)| |literal_fails "/"%char].
  intros v1. rewrite Ascii.eqb_refl.
  apply first_alternative_month_fails;
    [exact (valid_fields_ranges _ Dm Hf)| |literal_fails "/"%char].
  intros v2. rewrite Ascii.eqb_refl.
  apply first_alternative_year_fails;
    [exact (valid_fields_ranges _ DY Hf)| |].
  2: { intros v c s Hc. cbn [match_space].
       by rewrite (digit_not_space c Hc). }
  intros v3.
  rewrite match_space_hour by exact (valid_fields_ranges _ DH Hf).
  apply first_alternative_hour_fails;
    [exact (valid_fields_ranges _ DH Hf)| |literal_fails ":"%char].
  intros v4. rewrite Ascii.eqb_refl.
  apply first_alternative_minute_fails;
    [exact (valid_fields_ranges _ DM Hf)| |literal_fails ":"%char].
  done.
Qed.

Lemma strptime_seconds_missing f :
  valid_fields f →
  strptime "%d/%m/%Y %H:%M:%S" (render items_without_seconds f)
  = Raise (ValueError (TimeDataMismatch (render items_without_seconds f))).
Proof.
  intros Hf. unfold strptime.
  assert (compile_format "%d/%m/%Y %H:%M:%S" = Some items_with_seconds)
    as -> by by vm_compute.
  by rewrite match_items_seconds_missing.
Qed.

(** X18. The price loader refuses intervals written without seconds: a
    price file with one "Sequence Sequence 1" row whose interval text is
    in the format of the load table makes [load_raw_prices] raise. *)
Theorem load_raw_prices_refuses_minutes fs raw_data_dir raw row s :
  read_from_dir_as_df fs (path_join raw_data_dir "prices") ".csv" = Ok raw →
  well_formed_interval "%d/%m/%Y %H:%M" s →
  row ∈ rows raw →
  get "Sequence" row = Str "Sequence Sequence 1" →
  get "MTU (UTC)" row = Str s →
  raises (load_raw_prices fs raw_data_dir).
Proof.
  intros Hread (items & fa & fb & Hitems & Hfa & _ & Hfb & _ & ->)
    Hrow Hseq Hmtu.
  assert (compile_format "%d/%m/%Y %H:%M" = Some items_without_seconds)
    as Hc by by vm_compute.
  rewrite Hc in Hitems. injection Hitems as <-.
  unfold load_raw_prices. rewrite Hread. cbn [bind].
  case_decide; [|by eexists]. cbn [bind].
  set (renamed := rename _ _ _).
  unfold assign_intervals, getitem. case_decide; [|by eexists]. cbn [bind].
  destruct (parse_intervals_rejects "%d/%m/%Y %H:%M:%S"
              (column renamed "MTU (UTC)")) as [e ->];
    [|by eexists].
  left. eexists _, (render items_without_seconds fa).
  split_and!.
  - subst renamed. rewrite get_rename by done. unfold column, where_.
    cbn [rows]. rewrite <- Hmtu. apply list_elem_of_fmap_2.
    apply list_elem_of_In, filter_In. split; [by apply list_elem_of_In|].
    by apply bool_decide_eq_true.
  - rewrite split_joined by (apply render_no_dash; auto). left.
  - apply render_not_null. by right.
  - rewrite strptime_seconds_missing by done. by eexists.
Qed.

(** ** The further properties on the example tables *)

Lemma is_min_two_hours : is_min (instants two_hours) midnight_ns.
Proof.
  split; [left|]. intros t Ht.
  repeat (apply elem_of_cons in Ht as [->|Ht]); [| |by apply elem_of_nil in Ht];
    vm_compute; discriminate.
Qed.

Lemma is_max_two_hours :
  is_max (instants two_hours) (midnight_ns + hour_ns).
Proof.
  split; [right; left|]. intros t Ht.
  repeat (apply elem_of_cons in Ht as [->|Ht]); [| |by apply elem_of_nil in Ht];
    vm_compute; discriminate.
Qed.

Lemma is_min_three_hours : is_min (instants three_hours) midnight_ns.
Proof.
  split; [left|]. intros t Ht.
  repeat (apply elem_of_cons in Ht as [->|Ht]);
    [| | |by apply elem_of_nil in Ht]; vm_compute; discriminate.
Qed.

Lemma is_max_three_hours :
  is_max (instants three_hours) (midnight_ns + 3 * hour_ns).
Proof.
  split; [do 2 right; left|]. intros t Ht.
  repeat (apply elem_of_cons in Ht as [->|Ht]);
    [| | |by apply elem_of_nil in Ht]; vm_compute; discriminate.
Qed.

Lemma contains_datetime_gaps_complete_witness :
  (contains_datetime_gaps no_inference (observations two_hours)
     "timestamp" hour_ns).2 = Ok (false, []).
Proof.
  apply (contains_datetime_gaps_complete no_inference
           (observations two_hours) "timestamp" hour_ns
           two_hours two_hours midnight_ns (midnight_ns + hour_ns)).
  - reflexivity.
  - reflexivity.
  - apply is_min_two_hours.
  - apply is_max_two_hours.
  - reflexivity.
  - intros t [[Hlo Hhi] (k & Hk & ->)].
    assert (k = 0 ∨ k = 1) as [-> | ->]
      by (unfold hour_ns in Hhi; lia);
      vm_compute; [left|right; left].
Defined.

Lemma contains_datetime_gaps_one_missing_witness :
  (contains_datetime_gaps no_inference (observations three_hours)
     "timestamp" hour_ns).2 = Ok (true, [midnight_ns + 2 * hour_ns]).
Proof.
  apply (contains_datetime_gaps_one_missing no_inference
           (observations three_hours) "timestamp" hour_ns
           three_hours three_hours midnight_ns (midnight_ns + 3 * hour_ns)).
  - reflexivity.
  - reflexivity.
  - apply is_min_three_hours.
  - apply is_max_three_hours.
  - reflexivity.
  - split; [vm_compute; split; discriminate|]. exists 2. split; [lia|].
    reflexivity.
  - intros Hin.
    repeat (apply elem_of_cons in Hin as [Hin|Hin]; [by vm_compute in Hin|]).
    by apply elem_of_nil in Hin.
  - intros t [[Hlo Hhi] (k & Hk & ->)] Hne.
    assert (k = 0 ∨ k = 1 ∨ k = 2 ∨ k = 3) as [-> | [-> | [-> | ->]]]
      by (unfold hour_ns in Hhi; lia);
      [vm_compute; left|vm_compute; right; left|done
      |vm_compute; do 2 right; left].
Defined.

Lemma contains_datetime_gaps_negative_frequency_witness :
  (contains_datetime_gaps no_inference (observations three_hours)
     "timestamp" (- hour_ns)).2 = Ok (false, []).
Proof.
  apply (contains_datetime_gaps_negative_frequency no_inference
           (observations three_hours) "timestamp" (- hour_ns)
           three_hours three_hours).
  - reflexivity.
  - reflexivity.
  - discriminate.
  - reflexivity.
Defined.

Lemma contains_datetime_gaps_count_witness :
  ∃ has_gaps missing_times,
    (contains_datetime_gaps no_inference (observations three_hours)
       "timestamp" hour_ns).2 = Ok (has_gaps, missing_times) ∧
    Z.of_nat (length missing_times)
    + Z.of_nat (length (List.filter
                          (λ t, bool_decide (t ∈ instants three_hours))
                          (calendar_list midnight_ns
                             (midnight_ns + 3 * hour_ns) hour_ns)))
    = (midnight_ns + 3 * hour_ns - midnight_ns) / hour_ns + 1.
Proof.
  apply (contains_datetime_gaps_count no_inference
           (observations three_hours) "timestamp" hour_ns
           three_hours three_hours).
  - reflexivity.
  - reflexivity.
  - apply is_min_three_hours.
  - apply is_max_three_hours.
  - reflexivity.
Defined.

Lemma read_from_dir_as_df_example :
  read_from_dir_as_df example_fs "../data/raw/prices" ".csv"
  = Ok example_prices_raw.
Proof. vm_compute. reflexivity. Qed.

Lemma read_from_dir_as_df_consumption_example :
  read_from_dir_as_df example_fs "../data/raw/consumption" ".csv"
  = Ok example_consumption_raw.
Proof. vm_compute. reflexivity. Qed.

Lemma load_raw_prices_example :
  load_raw_prices example_fs "../data/raw/" = Ok example_prices.
Proof. vm_compute. reflexivity. Qed.

Lemma load_raw_consumption_example :
  load_raw_consumption example_fs "../data/raw/" = Ok example_consumption.
Proof. vm_compute. reflexivity. Qed.

Lemma load_raw_production_example :
  load_raw_production example_fs "../data/raw/" = Ok example_production.
Proof. vm_compute. reflexivity. Qed.

Lemma production_long_example :
  production_long example_fs "../data/raw/" = Ok example_long.
Proof. vm_compute. reflexivity. Qed.

Lemma read_from_dir_as_df_rows_witness :
  isdir example_fs "../data/raw/prices" = true ∧
  (".csv" = ".csv" ∨ ".csv" = ".xlsx") ∧
  ∃ frames,
    frames ≠ [] ∧
    Forall2 (λ fn frame,
               reader_of example_fs ".csv"
                 (path_join "../data/raw/prices" fn) = Some frame)
            (List.filter (λ fn, endswith fn ".csv")
                         (listdir example_fs "../data/raw/prices"))
            frames ∧
    (∀ label, label ∈ columns example_prices_raw ↔
              ∃ frame, frame ∈ frames ∧ label ∈ columns frame) ∧
    length (rows example_prices_raw) = length (frames ≫= rows) ∧
    ∀ i row, (frames ≫= rows) !! i = Some row →
      ∃ row', rows example_prices_raw !! i = Some row' ∧
        ∀ label, row' !! label
                 = if decide (label ∈ columns example_prices_raw)
                   then Some (get label row) else None.
Proof.
  apply (read_from_dir_as_df_rows example_fs "../data/raw/prices" ".csv"
           example_prices_raw).
  apply read_from_dir_as_df_example.
Defined.

Lemma parse_intervals_aligned_witness :
  let series := [Str "01/01/2024 00:00:00 - 01/01/2024 01:00:00";
                 Str "01/01/2024 01:00:00"] in
  let starts := [Ts 1704067200000000000; Ts 1704070800000000000] in
  let ends := [Ts 1704070800000000000; NaT] in
  length starts = length series ∧ length ends = length series ∧
  ∀ i c, series !! i = Some c →
    ∃ a b, starts !! i = Some a ∧ ends !! i = Some b ∧
           parsed_interval "%d/%m/%Y %H:%M:%S" c a b.
Proof.
  intros series starts ends.
  apply (parse_intervals_aligned "%d/%m/%Y %H:%M:%S" series starts ends).
  vm_compute. reflexivity.
Defined.

Lemma load_raw_prices_rows_witness :
  "Sequence" ∈ columns example_prices_raw ∧
  "MTU (UTC)" ∈ columns example_prices_raw ∧
  "Day-ahead Price (EUR/MWh)" ∈ columns example_prices_raw ∧
  ∃ picked,
    picked ≡ₚ List.filter
                (λ row, bool_decide
                          (get "Sequence" row = Str "Sequence Sequence 1"))
                (rows example_prices_raw) ∧
    Forall2 (λ raw_row row,
               dom row = list_to_set ["start_ts_utc"; "end_ts_utc";
                                      "da_price_eur_mwh"] ∧
               parsed_interval "%d/%m/%Y %H:%M:%S"
                 (get "MTU (UTC)" raw_row)
                 (get "start_ts_utc" row) (get "end_ts_utc" row) ∧
               get "da_price_eur_mwh" row
               = get "Day-ahead Price (EUR/MWh)" raw_row)
            picked (rows example_prices).
Proof.
  apply (load_raw_prices_rows example_fs "../data/raw/"
           example_prices_raw example_prices).
  - apply read_from_dir_as_df_example.
  - apply (bool_decide_unpack _). vm_compute. exact I.
  - apply load_raw_prices_example.
Defined.

Lemma load_raw_consumption_rows_witness :
  "MTU (UTC)" ∈ columns example_consumption_raw ∧
  "Actual Total Load (MW)" ∈ columns example_consumption_raw ∧
  ∃ picked,
    picked ≡ₚ rows example_consumption_raw ∧
    Forall2 (λ raw_row row,
               dom row = list_to_set ["start_ts_utc"; "end_ts_utc";
                                      "actual_load_mw"] ∧
               parsed_interval "%d/%m/%Y %H:%M"
                 (get "MTU (UTC)" raw_row)
                 (get "start_ts_utc" row) (get "end_ts_utc" row) ∧
               get "actual_load_mw" row
               = get "Actual Total Load (MW)" raw_row)
            picked (rows example_consumption).
Proof.
  apply (load_raw_consumption_rows example_fs "../data/raw/"
           example_consumption_raw example_consumption).
  - apply read_from_dir_as_df_consumption_example.
  - apply (bool_decide_unpack _). vm_compute. exact I.
  - apply load_raw_consumption_example.
Defined.

Lemma load_raw_consumption_sorted_witness :
  StronglySorted starts_before (rows example_consumption).
Proof.
  apply (load_raw_consumption_sorted example_fs "../data/raw/").
  apply load_raw_consumption_example.
Defined.

Lemma load_raw_data_from_dir_sorted_witness :
  StronglySorted starts_before (rows example_merged).
Proof.
  apply (load_raw_data_from_dir_sorted example_fs).
  apply load_raw_data_from_dir_example.
Defined.

Lemma load_raw_production_columns_witness :
  columns example_production
  = "start_ts_utc" :: "end_ts_utc"
      :: (generation_label <$> present_types example_long) ∧
  ∀ wide_row, wide_row ∈ rows example_production →
    dom wide_row = list_to_set (columns example_production) ∧
    ∀ t, t ∈ present_types example_long →
      get (generation_label t) wide_row
      = match List.filter
                (λ row, bool_decide
                   (key_of interval_key row = key_of interval_key wide_row
                    ∧ get "production_type" row = Str t))
                (rows example_long) with
        | row :: _ => get "actual_generation_mw" row
        | [] => NaN
        end.
Proof.
  apply (load_raw_production_columns example_fs "../data/raw/").
  - apply production_long_example.
  - apply load_raw_production_example.
Defined.

Lemma load_raw_data_from_dir_columns_witness :
  columns example_merged
  = ["start_ts_utc"; "end_ts_utc"; "da_price_eur_mwh"; "actual_load_mw"]
    ++ drop 2 (columns example_production) ∧
  ∀ row, row ∈ rows example_merged →
    dom row = list_to_set (columns example_merged).
Proof.
  apply (load_raw_data_from_dir_columns example_fs).
  - apply load_raw_production_example.
  - apply load_raw_data_from_dir_example.
Defined.

Lemma load_raw_data_from_dir_joined_witness :
  ∃ prices_df cons_df prod_df,
    load_raw_prices example_fs "../data/raw/" = Ok prices_df ∧
    load_raw_consumption example_fs "../data/raw/" = Ok cons_df ∧
    load_raw_production example_fs "../data/raw/" = Ok prod_df ∧
    ∀ row, row ∈ rows example_merged →
      ∃ price_row load_row generation_row,
        price_row ∈ rows prices_df ∧
        key_of interval_key row = key_of interval_key price_row ∧
        get "da_price_eur_mwh" row
        = cleaned (get "da_price_eur_mwh" price_row) ∧
        get "actual_load_mw" row
        = cleaned (get "actual_load_mw" load_row) ∧
        (∀ label, label ∈ drop 2 (columns prod_df) →
                  get label row = cleaned (get label generation_row)) ∧
        ((count_key (key_of interval_key price_row) cons_df = 0%nat
          ∧ load_row = ∅) ∨
         (load_row ∈ rows cons_df ∧
          key_of interval_key load_row
          = key_of interval_key price_row)) ∧
        ((count_key (key_of interval_key price_row) prod_df = 0%nat
          ∧ generation_row = ∅) ∨
         (generation_row ∈ rows prod_df ∧
          key_of interval_key generation_row
          = key_of interval_key price_row)).
Proof.
  apply (load_raw_data_from_dir_joined example_fs example_merged).
  apply load_raw_data_from_dir_example.
Defined.

Lemma valid_midnight_fields : valid_fields midnight_fields.
Proof. repeat split; vm_compute; discriminate. Qed.

Lemma valid_one_o_clock_fields : valid_fields one_o_clock_fields.
Proof. repeat split; vm_compute; discriminate. Qed.

Lemma load_raw_consumption_refuses_seconds_witness :
  raises (load_raw_consumption seconds_in_load_fs "../data/raw/").
Proof.
  apply (load_raw_consumption_refuses_seconds seconds_in_load_fs
           "../data/raw/" consumption_file_seconds
           "01/01/2024 00:00:00 - 01/01/2024 01:00:00").
  - vm_compute. reflexivity.
  - exists items_with_seconds, midnight_fields, one_o_clock_fields.
    split_and!; try reflexivity;
      [apply valid_midnight_fields|apply valid_one_o_clock_fields].
  - vm_compute. left.
Defined.

Lemma load_raw_prices_refuses_minutes_witness :
  raises (load_raw_prices minutes_in_prices_fs "../data/raw/").
Proof.
  apply (load_raw_prices_refuses_minutes minutes_in_prices_fs
           "../data/raw/" prices_file_minutes
           (price_row "01/01/2024 00:00 - 01/01/2024 01:00"
                      "Sequence Sequence 1" (Num 5))
           "01/01/2024 00:00 - 01/01/2024 01:00").
  - vm_compute. reflexivity.
  - exists items_without_seconds, midnight_fields, one_o_clock_fields.
    split_and!; try reflexivity;
      [apply valid_midnight_fields|apply valid_one_o_clock_fields].
  - left.
  - reflexivity.
  - reflexivity.
Defined.
